(** * Satellite QUIC proxy: a shallow embedding of the protocol engine

    The development follows the repository layout:

    - [Compression]: the software compression container of
      [FPGAInterface::simulateCompressionOperation] (fpga_interface.cpp);
    - [Interface]: the packet and compression operations of [FPGAInterface]
      in simulation mode (fpga_interface.cpp);
    - [Handler]: the per-connection engine [QUICHandler] (quic_handler.cpp);
    - [Proxy]: the connection table of [QUICProxy] (quic_proxy.cpp);
    - [PacketProcessor]: the states of the VHDL packet processor
      (quic_packet_processor.vhd) that validate headers, track streams and
      schedule retransmissions.

    Bytes and machine integers are integers of [Z] with the wrap-around of
    their C++ type written out.  The definitions come first, module by
    module; the properties follow in the same order. *)

From Stdlib Require Import ZArith Lia Bool Sorted.
From stdpp Require Import base tactics option numbers list.

Local Open Scope Z_scope.

(** ** Machine integers *)

Definition u8 (x : Z) : Z := x mod 256.
Definition u32 (x : Z) : Z := x mod 4294967296.
Definition u64 (x : Z) : Z := x mod 18446744073709551616.

Definition is_byte (b : Z) : Prop := 0 <= b < 256.

(** Length of a vector as a machine integer. *)
Definition size {A} (v : list A) : Z := Z.of_nat (length v).

(** [v[i]] for an index the code has already checked to be in range. *)
Definition at_ (v : list Z) (i : Z) : Z := nth (Z.to_nat i) v 0.

(** [vec.assign(data + from, data + to)]. *)
Definition slice (v : list Z) (from to : Z) : list Z :=
  take (Z.to_nat (to - from)) (drop (Z.to_nat from) v).

(** Big-endian read of four bytes into a [uint32_t]:
    [(d[o] << 24) | (d[o+1] << 16) | (d[o+2] << 8) | d[o+3]]. *)
Definition be32 (v : list Z) (o : Z) : Z :=
  u32 (Z.lor (Z.lor (Z.lor (Z.shiftl (at_ v o) 24) (Z.shiftl (at_ v (o + 1)) 16))
                    (Z.shiftl (at_ v (o + 2)) 8))
             (at_ v (o + 3))).

(** [(x >> k) & 0xFF]. *)
Definition byte_of (x k : Z) : Z := Z.land (Z.shiftr x k) 255.

(** ** Result of an accelerator operation (fpga_interface.h) *)

Inductive FPGAOperationType :=
| CRYPTO_ENCRYPT | CRYPTO_DECRYPT | COMPRESSION | DECOMPRESSION
| PACKET_FRAMING | PACKET_ACK_PROCESSING | PACKET_RETRANSMISSION.

Record FPGAOperationResult := mkResult {
  success : bool;
  data : list Z;
  bytesProcessed : Z
}.

(** ** The compression container *)

Module Compression.

(** The inner [while] of the encoder: [count] bytes equal to
    [currentByte] have been seen and [rest] starts at [input[i + count]]. *)
Fixpoint run_length (currentByte : Z) (rest : list Z) (count : nat) : nat :=
  match rest with
  | b :: rest' =>
      if (b =? currentByte) && (count <? 255)%nat
      then run_length currentByte rest' (S count)
      else count
  | [] => count
  end.

(** One iteration of the encoder's [for]: what is pushed for a run. *)
Definition emit_run (currentByte : Z) (count : nat) : list Z :=
  if (4 <=? count)%nat
  then [255; u8 (Z.of_nat count); currentByte]
  else replicate count currentByte.

(** The encoder's [for] loop over the input from position [i] on; every
    iteration consumes [count >= 1] bytes, so [length input] rounds are
    enough for the whole input. *)
Fixpoint encode_loop (rounds : nat) (input : list Z) : list Z :=
  match rounds, input with
  | S rounds', currentByte :: rest =>
      let count := run_length currentByte rest 1 in
      emit_run currentByte count ++ encode_loop rounds' (drop (count - 1) rest)
  | _, _ => []
  end.

Definition encode (input : list Z) : list Z := encode_loop (length input) input.

Definition magic : list Z := [81; 67; 77; 80].

Definition header (input : list Z) : list Z :=
  let sz := u32 (size input) in
  magic ++ [byte_of sz 0; byte_of sz 8; byte_of sz 16; byte_of sz 24].

(** The decoder's [for] loop; [body] starts at [input[i]] and
    [i + 2 < input.size()] holds when two more bytes follow. *)
Fixpoint decode (body : list Z) : list Z :=
  match body with
  | [] => []
  | b :: rest =>
      match rest with
      | count :: value :: rest' =>
          if b =? 255
          then replicate (Z.to_nat count) value ++ decode rest'
          else b :: decode rest
      | _ => b :: decode rest
      end
  end.

Definition simulateCompressionOperation
    (operationType : FPGAOperationType) (inputData : list Z) : FPGAOperationResult :=
  match operationType with
  | COMPRESSION =>
      mkResult true (header inputData ++ encode inputData) (u32 (size inputData))
  | _ =>
      if (size inputData <? 8) || negb (at_ inputData 0 =? 81)
         || negb (at_ inputData 1 =? 67) || negb (at_ inputData 2 =? 77)
         || negb (at_ inputData 3 =? 80)
      then mkResult false [] (u32 (size inputData))
      else mkResult true (decode (drop 8 inputData)) (u32 (size inputData))
  end.

Definition compress (B : list Z) : FPGAOperationResult :=
  simulateCompressionOperation COMPRESSION B.
Definition decompress (B : list Z) : FPGAOperationResult :=
  simulateCompressionOperation DECOMPRESSION B.

End Compression.

(** ** The environment of a connection

    What a [QUICHandler] reaches outside itself: the steady clock and the
    accelerator behind [FPGAInterface].  Time points are integer ticks of
    one nanosecond. *)

Class Environment := {
  World : Type;
  steady_clock_now : World -> Z * World;
  fpga_isConnected : World -> bool;
  fpga_executePacketOperation :
    FPGAOperationType -> list Z -> Z -> Z -> World -> FPGAOperationResult * World
}.

(** [duration_cast<milliseconds>(d).count()] and
    [duration_cast<seconds>(d).count()]: truncation towards zero. *)
Definition to_milliseconds (d : Z) : Z := Z.quot d 1000000.
Definition to_seconds (d : Z) : Z := Z.quot d 1000000000.

(** ** The connection handler (quic_handler.h, quic_handler.cpp) *)

Module Handler.

Definition QUIC_VERSION_1 : Z := 1.
Definition MAX_CONN_ID_LEN : Z := 20.
Definition MIN_INITIAL_SIZE : Z := 1200.
Definition IDLE_TIMEOUT_MS : Z := 30000.
Definition RETRANSMIT_TIMEOUT_MS : Z := 500.

Inductive QUICPacketType :=
| INITIAL | HANDSHAKE | ZERO_RTT | ONE_RTT | RETRY | VERSION_NEGOTIATION.

Record QUICPacketHeader := mkHeader {
  type : QUICPacketType;
  version : Z;
  destConnID : list Z;
  srcConnID : list Z;
  token : list Z;
  hlength : Z;
  hpacketNumber : Z
}.

Record PacketInfo := mkPacketInfo {
  packetNumber : Z;
  sentTime : Z;
  acknowledged : bool;
  packetData : list Z
}.

Record QUICHandler := mkHandler {
  m_accelerationEnabled : bool;
  m_connected : bool;
  m_lastActivity : Z;
  m_bytesSent : Z;
  m_bytesReceived : Z;
  m_packetsSent : Z;
  m_packetsReceived : Z;
  m_connectionID : Z;
  m_nextPacketNumber : Z;
  m_destConnID : list Z;
  m_srcConnID : list Z;
  m_sentPackets : list PacketInfo;
  m_receivedPackets : list Z
}.

Definition set_lastActivity (t : Z) (h : QUICHandler) : QUICHandler :=
  mkHandler (m_accelerationEnabled h) (m_connected h) t (m_bytesSent h)
    (m_bytesReceived h) (m_packetsSent h) (m_packetsReceived h) (m_connectionID h)
    (m_nextPacketNumber h) (m_destConnID h) (m_srcConnID h) (m_sentPackets h)
    (m_receivedPackets h).

Definition set_bytesSent (n : Z) (h : QUICHandler) : QUICHandler :=
  mkHandler (m_accelerationEnabled h) (m_connected h) (m_lastActivity h) n
    (m_bytesReceived h) (m_packetsSent h) (m_packetsReceived h) (m_connectionID h)
    (m_nextPacketNumber h) (m_destConnID h) (m_srcConnID h) (m_sentPackets h)
    (m_receivedPackets h).

Definition set_bytesReceived (n : Z) (h : QUICHandler) : QUICHandler :=
  mkHandler (m_accelerationEnabled h) (m_connected h) (m_lastActivity h) (m_bytesSent h)
    n (m_packetsSent h) (m_packetsReceived h) (m_connectionID h)
    (m_nextPacketNumber h) (m_destConnID h) (m_srcConnID h) (m_sentPackets h)
    (m_receivedPackets h).

Definition set_packetsSent (n : Z) (h : QUICHandler) : QUICHandler :=
  mkHandler (m_accelerationEnabled h) (m_connected h) (m_lastActivity h) (m_bytesSent h)
    (m_bytesReceived h) n (m_packetsReceived h) (m_connectionID h)
    (m_nextPacketNumber h) (m_destConnID h) (m_srcConnID h) (m_sentPackets h)
    (m_receivedPackets h).

Definition set_packetsReceived (n : Z) (h : QUICHandler) : QUICHandler :=
  mkHandler (m_accelerationEnabled h) (m_connected h) (m_lastActivity h) (m_bytesSent h)
    (m_bytesReceived h) (m_packetsSent h) n (m_connectionID h)
    (m_nextPacketNumber h) (m_destConnID h) (m_srcConnID h) (m_sentPackets h)
    (m_receivedPackets h).

Definition set_nextPacketNumber (n : Z) (h : QUICHandler) : QUICHandler :=
  mkHandler (m_accelerationEnabled h) (m_connected h) (m_lastActivity h) (m_bytesSent h)
    (m_bytesReceived h) (m_packetsSent h) (m_packetsReceived h) (m_connectionID h)
    n (m_destConnID h) (m_srcConnID h) (m_sentPackets h)
    (m_receivedPackets h).

Definition set_destConnID (c : list Z) (h : QUICHandler) : QUICHandler :=
  mkHandler (m_accelerationEnabled h) (m_connected h) (m_lastActivity h) (m_bytesSent h)
    (m_bytesReceived h) (m_packetsSent h) (m_packetsReceived h) (m_connectionID h)
    (m_nextPacketNumber h) c (m_srcConnID h) (m_sentPackets h)
    (m_receivedPackets h).

Definition set_sentPackets (l : list PacketInfo) (h : QUICHandler) : QUICHandler :=
  mkHandler (m_accelerationEnabled h) (m_connected h) (m_lastActivity h) (m_bytesSent h)
    (m_bytesReceived h) (m_packetsSent h) (m_packetsReceived h) (m_connectionID h)
    (m_nextPacketNumber h) (m_destConnID h) (m_srcConnID h) l
    (m_receivedPackets h).

Definition set_receivedPackets (l : list Z) (h : QUICHandler) : QUICHandler :=
  mkHandler (m_accelerationEnabled h) (m_connected h) (m_lastActivity h) (m_bytesSent h)
    (m_bytesReceived h) (m_packetsSent h) (m_packetsReceived h) (m_connectionID h)
    (m_nextPacketNumber h) (m_destConnID h) (m_srcConnID h) (m_sentPackets h)
    l.

Definition set_accelerationEnabled (b : bool) (h : QUICHandler) : QUICHandler :=
  mkHandler b (m_connected h) (m_lastActivity h) (m_bytesSent h)
    (m_bytesReceived h) (m_packetsSent h) (m_packetsReceived h) (m_connectionID h)
    (m_nextPacketNumber h) (m_destConnID h) (m_srcConnID h) (m_sentPackets h)
    (m_receivedPackets h).

(** *** parsePacket

    A pure function of the datagram; [None] is the C++ [return false].  A
    short header leaves [version] untouched, which is shown here as 0. *)

Definition long_packet_type (firstByte : Z) : QUICPacketType :=
  match Z.shiftr (Z.land firstByte 48) 4 with
  | 0 => INITIAL
  | 1 => ZERO_RTT
  | 2 => HANDSHAKE
  | _ => RETRY
  end.

Definition is_INITIAL (t : QUICPacketType) : bool :=
  match t with INITIAL => true | _ => false end.

Definition is_ONE_RTT (t : QUICPacketType) : bool :=
  match t with ONE_RTT => true | _ => false end.

(** The payload: [data + offset .. data + length], empty when
    [offset >= length]. *)
Definition payload_from (d : list Z) (offset len : Z) : list Z :=
  if offset <? len then slice d offset len else [].

(** The part of the long header after the two connection IDs. *)
Definition parse_long_tail (d : list Z) (len : Z) (ty : QUICPacketType) (ver : Z)
    (dcid scid : list Z) (offset : Z) : option (QUICPacketHeader * list Z) :=
  let after_token : option (list Z * Z) :=
    if is_INITIAL ty then
      if len <? offset + 1 then None
      else
        let tokenLen := at_ d offset in
        let offset := offset + 1 in
        if 63 <? tokenLen then None
        else if len <? offset + tokenLen then None
        else Some (slice d offset (offset + tokenLen), offset + tokenLen)
    else Some ([], offset) in
  match after_token with
  | None => None
  | Some (tok, offset) =>
      if len <? offset + 1 then None
      else
        let payloadLen := at_ d offset in
        let offset := offset + 1 in
        if 63 <? payloadLen then None
        else if len <? offset + 4 then None
        else
          let pn := be32 d offset in
          let offset := offset + 4 in
          Some (mkHeader ty ver dcid scid tok payloadLen pn, payload_from d offset len)
  end.

Definition parsePacket (d : list Z) (len : Z) : option (QUICPacketHeader * list Z) :=
  if len <? 4 then None
  else
    let firstByte := at_ d 0 in
    let longHeader := negb (Z.land firstByte 128 =? 0) in
    let offset := 1 in
    if longHeader then
      let ty := long_packet_type firstByte in
      if len <? offset + 4 then None
      else
        let ver := be32 d offset in
        let offset := offset + 4 in
        let ty := if ver =? 0 then VERSION_NEGOTIATION else ty in
        if len <? offset + 1 then None
        else
          let destConnIDLen := at_ d offset in
          let offset := offset + 1 in
          if len <? offset + destConnIDLen then None
          else
            let dcid := slice d offset (offset + destConnIDLen) in
            let offset := offset + destConnIDLen in
            if len <? offset + 1 then None
            else
              let srcConnIDLen := at_ d offset in
              let offset := offset + 1 in
              if len <? offset + srcConnIDLen then None
              else
                let scid := slice d offset (offset + srcConnIDLen) in
                let offset := offset + srcConnIDLen in
                parse_long_tail d len ty ver dcid scid offset
    else
      let DCID_LEN := 8 in
      if len <? offset + DCID_LEN then None
      else
        let dcid := slice d offset (offset + DCID_LEN) in
        let offset := offset + DCID_LEN in
        if len <? offset + 4 then None
        else
          let pn := be32 d offset in
          let offset := offset + 4 in
          Some (mkHeader ONE_RTT 0 dcid [] [] (len - offset) pn,
                payload_from d offset len).

(** The packet numbers in the tracker, in the order they were recorded. *)
Definition sent_numbers (h : QUICHandler) : list Z := map packetNumber (m_sentPackets h).

(** The [k]-th packet recorded carries the number [k] as a [uint32_t], and
    the counter is that of the next one. *)
Definition numbered (h : QUICHandler) : Prop :=
  sent_numbers h = map (fun k => u32 (Z.of_nat k)) (seq 0 (length (m_sentPackets h)))
  /\ m_nextPacketNumber h = u32 (Z.of_nat (length (m_sentPackets h))).

(** *** The state monad of a running handler

    A [Process] is the handler object together with the datagrams it has
    handed to [sendto] and the state of its environment.  A computation
    yields [None] when the C++ stores outside a buffer it has allocated. *)

Section Engine.
Context `{Environment}.

Record Process := mkProcess {
  self : QUICHandler;
  udp_out : list (list Z);
  env : World
}.

Definition M (A : Type) : Type := Process -> option (A * Process).

Definition ret {A} (a : A) : M A := fun p => Some (a, p).

Definition bind {A B} (m : M A) (k : A -> M B) : M B :=
  fun p => match m p with
           | Some (a, p') => k a p'
           | None => None
           end.

Definition out_of_bounds {A} : M A := fun _ => None.

Notation "x <- m ;; k" := (bind m (fun x => k))
  (at level 100, m at next level, right associativity).
Notation "'exec' m ;; k" := (bind m (fun _ => k))
  (at level 100, m at next level, right associativity).

Definition get : M QUICHandler := fun p => Some (self p, p).

Definition modify (f : QUICHandler -> QUICHandler) : M unit :=
  fun p => Some (tt, mkProcess (f (self p)) (udp_out p) (env p)).

Definition sendto (d : list Z) : M unit :=
  fun p => Some (tt, mkProcess (self p) (udp_out p ++ [d]) (env p)).

Definition now : M Z :=
  fun p => let (t, w) := steady_clock_now (env p) in
           Some (t, mkProcess (self p) (udp_out p) w).

Definition isConnected : M bool := fun p => Some (fpga_isConnected (env p), p).

Definition executePacketOperation (op : FPGAOperationType) (input : list Z)
    (connectionID pn : Z) : M FPGAOperationResult :=
  fun p => let (r, w) := fpga_executePacketOperation op input connectionID pn (env p) in
           Some (r, mkProcess (self p) (udp_out p) w).

Definition updateActivity : M unit :=
  t <- now ;; modify (set_lastActivity t).

(** [sendto(...); m_bytesSent += n; m_packetsSent++]. *)
Definition send_and_count (d : list Z) : M unit :=
  exec sendto d ;;
  exec modify (fun h => set_bytesSent (u64 (m_bytesSent h + size d)) h) ;;
  modify (fun h => set_packetsSent (u64 (m_packetsSent h + 1)) h).

(** The block "store packet for potential retransmission" and the
    increment of [m_nextPacketNumber] that follows it. *)
Definition store_sent (d : list Z) : M unit :=
  t <- now ;;
  exec modify (fun h =>
    set_sentPackets (m_sentPackets h ++ [mkPacketInfo (m_nextPacketNumber h) t false d]) h) ;;
  modify (fun h => set_nextPacketNumber (u32 (m_nextPacketNumber h + 1)) h).

(** The accelerated framing path, written twice in the source
    ([handleInitialPacket] and [sendPacket]); [true] when the packet went
    out this way. *)
Definition send_framed_by_fpga (payload : list Z) : M bool :=
  h <- get ;;
  connected <- isConnected ;;
  if m_accelerationEnabled h && connected then
    result <- executePacketOperation PACKET_FRAMING payload
                (m_connectionID h) (m_nextPacketNumber h) ;;
    if success result then
      exec send_and_count (data result) ;;
      exec store_sent (data result) ;;
      ret true
    else ret false
  else ret false.

Definition first_byte (ty : QUICPacketType) : option Z :=
  match ty with
  | INITIAL => Some 195
  | HANDSHAKE => Some 227
  | ZERO_RTT => Some 211
  | ONE_RTT => Some 64
  | _ => None
  end.

Definition be32_bytes (x : Z) : list Z :=
  [byte_of x 24; byte_of x 16; byte_of x 8; byte_of x 0].

(** The software framing of [sendPacket].  The buffer has
    [payload.size() + 64] bytes; the headers are written at increasing
    offsets and the payload is copied behind them, so every store is inside
    the buffer exactly when the headers take at most 64 bytes. *)
Definition software_packet (ty : QUICPacketType) (b0 : Z) (payload : list Z)
    (h : QUICHandler) : option (list Z) :=
  let pn := be32_bytes (m_nextPacketNumber h) in
  if is_ONE_RTT ty then
    let headers := [b0] ++ m_destConnID h ++ pn in
    if 64 <? size headers then None else Some (headers ++ payload)
  else
    let front :=
      [b0] ++ be32_bytes QUIC_VERSION_1
      ++ [u8 (size (m_destConnID h))] ++ m_destConnID h
      ++ [u8 (size (m_srcConnID h))] ++ m_srcConnID h
      ++ (if is_INITIAL ty then [0] else []) in
    let lengthOffset := size front in
    let finalOffset := lengthOffset + 2 + 4 + size payload in
    let payloadLength := finalOffset - lengthOffset - 2 in
    let headers := front ++ [byte_of payloadLength 8; byte_of payloadLength 0] ++ pn in
    if 64 <? size headers then None else Some (headers ++ payload).

Definition sendPacket (ty : QUICPacketType) (payload : list Z) : M bool :=
  framed <- send_framed_by_fpga payload ;;
  if framed then ret true
  else
    match first_byte ty with
    | None => ret false
    | Some b0 =>
        h <- get ;;
        match software_packet ty b0 payload h with
        | None => out_of_bounds
        | Some packetData =>
            exec send_and_count packetData ;;
            exec store_sent packetData ;;
            ret true
        end
    end.

Definition crypto_sample (from : Z) : list Z :=
  [6; 0; 16] ++ map (fun i => from + Z.of_nat i) (seq 0 16).

Definition push_received (pn : Z) : M unit :=
  modify (fun h => set_receivedPackets (m_receivedPackets h ++ [pn]) h).

Definition handleInitialPacket (header : QUICPacketHeader) (payload : list Z) : M bool :=
  exec push_received (hpacketNumber header) ;;
  let responsePayload := crypto_sample 1 in
  framed <- send_framed_by_fpga responsePayload ;;
  if framed then ret true else sendPacket INITIAL responsePayload.

Definition handleHandshakePacket (header : QUICPacketHeader) (payload : list Z) : M bool :=
  exec push_received (hpacketNumber header) ;;
  handshakeResult <- sendPacket HANDSHAKE (crypto_sample 17) ;;
  oneRttResult <- sendPacket ONE_RTT [30] ;;
  ret (handshakeResult && oneRttResult).

(** The scan of [m_sentPackets] that marks the first entry carrying the
    acknowledged number. *)
Fixpoint mark_acknowledged (ackedPacketNum : Z) (sent : list PacketInfo) : list PacketInfo :=
  match sent with
  | [] => []
  | packetInfo :: rest =>
      if packetNumber packetInfo =? ackedPacketNum
      then mkPacketInfo (packetNumber packetInfo) (sentTime packetInfo) true
             (packetData packetInfo) :: rest
      else packetInfo :: mark_acknowledged ackedPacketNum rest
  end.

(** The frame of an ACK: [rest] is the payload behind the type byte. *)
Definition process_ack_frame (rest : list Z) : M unit :=
  if 4 <=? size rest then
    modify (fun h => set_sentPackets (mark_acknowledged (be32 rest 0) (m_sentPackets h)) h)
  else ret tt.

(** The [while] of [processFrames]; [payload] is the whole payload and
    [rest] what lies at [offset] and behind. *)
Fixpoint frames_loop (payload rest : list Z) : M bool :=
  match rest with
  | [] => ret true
  | frameType :: rest' =>
      if (frameType =? 0) || (frameType =? 1) then frames_loop payload rest'
      else if (frameType =? 2) || (frameType =? 3) then
        exec process_ack_frame rest' ;; ret true
      else if frameType =? 6 then ret true
      else if (8 <=? frameType) && (frameType <=? 15) then sendPacket ONE_RTT payload
      else ret true
  end.

Definition processFrames (payload : list Z) : M bool := frames_loop payload payload.

Definition max_element (first : Z) (others : list Z) : Z := fold_left Z.max others first.

Definition ack_frame (largestAcked : Z) : list Z :=
  [2] ++ be32_bytes largestAcked ++ [0; 0; 0; 0].

Definition sendAckPacket (packetNumbers : list Z) : M bool :=
  match packetNumbers with
  | [] => ret true
  | first :: others =>
      let largestAcked := max_element first others in
      let ackFrame := ack_frame largestAcked in
      h <- get ;;
      connected <- isConnected ;;
      if m_accelerationEnabled h && connected then
        result <- executePacketOperation PACKET_ACK_PROCESSING ackFrame
                    (m_connectionID h) largestAcked ;;
        if success result then
          exec send_and_count (data result) ;; ret true
        else sendPacket ONE_RTT ackFrame
      else sendPacket ONE_RTT ackFrame
  end.

Definition handleOneRttPacket (header : QUICPacketHeader) (payload : list Z) : M bool :=
  exec push_received (hpacketNumber header) ;;
  ok <- processFrames payload ;;
  if ok then
    h <- get ;;
    sendAckPacket (m_receivedPackets h)
  else ret false.

(** *** Retransmission *)

Definition needs_retransmission (t : Z) (packetInfo : PacketInfo) : bool :=
  negb (acknowledged packetInfo)
  && (RETRANSMIT_TIMEOUT_MS <? to_milliseconds (t - sentTime packetInfo)).

(** The first loop of [checkForRetransmissions]. *)
Definition packetsToRetransmit (t : Z) (sent : list PacketInfo) : list PacketInfo :=
  List.filter (needs_retransmission t) sent.

(** "Update sent packet info": the first entry with that number. *)
Fixpoint update_sentTime (pn t : Z) (sent : list PacketInfo) : list PacketInfo :=
  match sent with
  | [] => []
  | info :: rest =>
      if packetNumber info =? pn
      then mkPacketInfo (packetNumber info) t (acknowledged info) (packetData info) :: rest
      else info :: update_sentTime pn t rest
  end.

Definition retransmit_one (t : Z) (packetInfo : PacketInfo) : M unit :=
  h <- get ;;
  connected <- isConnected ;;
  byFpga <-
    (if m_accelerationEnabled h && connected then
       result <- executePacketOperation PACKET_RETRANSMISSION []
                   (m_connectionID h) (packetNumber packetInfo) ;;
       if success result && negb (size (data result) =? 0) then
         exec send_and_count (data result) ;;
         exec modify (fun h =>
           set_sentPackets (update_sentTime (packetNumber packetInfo) t (m_sentPackets h)) h) ;;
         ret true
       else ret false
     else ret false) ;;
  if byFpga then ret tt
  else
    exec send_and_count (packetData packetInfo) ;;
    modify (fun h =>
      set_sentPackets (update_sentTime (packetNumber packetInfo) t (m_sentPackets h)) h).

(** The second loop of [checkForRetransmissions]. *)
Fixpoint retransmit_all (t : Z) (toRetransmit : list PacketInfo) : M unit :=
  match toRetransmit with
  | [] => ret tt
  | packetInfo :: rest => exec retransmit_one t packetInfo ;; retransmit_all t rest
  end.

Definition checkForRetransmissions : M unit :=
  t <- now ;;
  h <- get ;;
  retransmit_all t (packetsToRetransmit t (m_sentPackets h)).

(** *** processIncomingPacket

    [data] is [None] for a null pointer. *)
Definition dispatch (header : QUICPacketHeader) (payload : list Z) : M bool :=
  match type header with
  | INITIAL => handleInitialPacket header payload
  | HANDSHAKE => handleHandshakePacket header payload
  | ONE_RTT => handleOneRttPacket header payload
  | ZERO_RTT | RETRY | VERSION_NEGOTIATION => ret false
  end.

Definition processIncomingPacket (data : option (list Z)) (len : Z) : M bool :=
  match data with
  | None => ret false
  | Some d =>
      if len =? 0 then ret false
      else
        exec updateActivity ;;
        exec modify (fun h => set_bytesReceived (u64 (m_bytesReceived h + len)) h) ;;
        exec modify (fun h => set_packetsReceived (u64 (m_packetsReceived h + 1)) h) ;;
        match parsePacket d len with
        | None => ret false
        | Some (header, payload) =>
            exec modify (fun h =>
              if size (m_destConnID h) =? 0 then set_destConnID (destConnID header) h else h) ;;
            result <- dispatch header payload ;;
            exec checkForRetransmissions ;;
            ret result
        end
  end.

(** [isActive], with the clock reading it takes. *)
Definition isActive_at (t : Z) (h : QUICHandler) : bool :=
  m_connected h && (to_milliseconds (t - m_lastActivity h) <? IDLE_TIMEOUT_MS).

Definition setAccelerationEnabled (enabled : bool) : M unit :=
  modify (set_accelerationEnabled enabled).

(** *** The constructor and the life of a connection *)

Definition connection_id_of (connID : list Z) : Z :=
  fold_left (fun acc b => u64 (Z.lor (Z.shiftl acc 8) b)) connID 0.

Definition construct (accelerationEnabled : bool) (connID : list Z) (w : World) : Process :=
  let (t, w') := steady_clock_now w in
  mkProcess
    (mkHandler accelerationEnabled true t 0 0 0 0 (connection_id_of connID) 0 [] connID [] [])
    [] w'.

(** The states a handler goes through: constructed by the proxy, fed the
    datagrams of its peer, with acceleration switched on or off and the
    environment moving between the calls. *)
Inductive reachable : Process -> Prop :=
| reach_construct accel connID w :
    length connID = 8%nat -> Forall is_byte connID ->
    reachable (construct accel connID w)
| reach_packet p data len r p' :
    reachable p -> 0 <= len ->
    processIncomingPacket data len p = Some (r, p') ->
    reachable p'
| reach_acceleration p enabled r p' :
    reachable p -> setAccelerationEnabled enabled p = Some (r, p') -> reachable p'
| reach_env p w :
    reachable p -> reachable (mkProcess (self p) (udp_out p) w).

(** What [sendPacket] leaves behind when it frames in software. *)
Definition sent_in_software (d : list Z) (p : Process) : Process :=
  let (t, w) := steady_clock_now (env p) in
  let h := self p in
  mkProcess
    (mkHandler (m_accelerationEnabled h) (m_connected h) (m_lastActivity h)
       (u64 (m_bytesSent h + size d)) (m_bytesReceived h)
       (u64 (m_packetsSent h + 1)) (m_packetsReceived h) (m_connectionID h)
       (u32 (m_nextPacketNumber h + 1)) (m_destConnID h) (m_srcConnID h)
       (m_sentPackets h ++ [mkPacketInfo (m_nextPacketNumber h) t false d])
       (m_receivedPackets h))
    (udp_out p ++ [d]) w.

(** The datagram [d] retransmits the tracked packet [info]: it is the stored
    copy, or what the accelerator has framed again for that packet number. *)
Definition retransmission_of (connectionID : Z) (d : list Z) (info : PacketInfo) : Prop :=
  d = packetData info
  \/ exists w, d = data (fst (fpga_executePacketOperation PACKET_RETRANSMISSION []
                               connectionID (packetNumber info) w)).

(** An invariant of the handler object that a computation keeps. *)
Definition preserves {A} (I : QUICHandler -> Prop) (m : M A) : Prop :=
  forall p a p', m p = Some (a, p') -> I (self p) -> I (self p').

End Engine.

End Handler.

(** ** The connection table (quic_proxy.cpp) *)

Module Proxy.

Section Table.
Context `{Environment}.

(** [lastCleanupTime] is the function-local static of
    [cleanupInactiveConnections]: it is initialised by the first call. *)
Record QUICProxy := mkProxy {
  m_connections : list Handler.QUICHandler;
  m_activeConnections : Z;
  lastCleanupTime : option Z
}.

(** [std::remove_if] with the predicate [!handler->isActive()]: the
    connections are visited in order and each visit reads the clock. *)
Fixpoint remove_inactive (conns : list Handler.QUICHandler) (w : World)
    : list Handler.QUICHandler * World :=
  match conns with
  | [] => ([], w)
  | handler :: rest =>
      let (t, w1) := steady_clock_now w in
      let (kept, w2) := remove_inactive rest w1 in
      if Handler.isActive_at t handler then (handler :: kept, w2) else (kept, w2)
  end.

(** The two clock readings at the head of [cleanupInactiveConnections]:
    the static's value and [currentTime]. *)
Definition cleanup_clock (px : QUICProxy) (w : World) : Z * Z * World :=
  let (last, w0) :=
    match lastCleanupTime px with
    | Some l => (l, w)
    | None => steady_clock_now w
    end in
  let (currentTime, w1) := steady_clock_now w0 in
  (last, currentTime, w1).

Definition cleanupInactiveConnections (px : QUICProxy) (w : World) : QUICProxy * World :=
  let '(last, currentTime, w1) := cleanup_clock px w in
  if to_seconds (currentTime - last) <? 5
  then (mkProxy (m_connections px) (m_activeConnections px) (Some last), w1)
  else
    let (kept, w2) := remove_inactive (m_connections px) w1 in
    let removed := (length kept <? length (m_connections px))%nat in
    (mkProxy kept (if removed then size kept else m_activeConnections px)
       (Some currentTime), w2).

(** A steady clock never runs backwards. *)
Definition steady : Prop :=
  forall w, fst (steady_clock_now w) <= fst (steady_clock_now (snd (steady_clock_now w))).

End Table.

End Proxy.

(** ** The packet processor (quic_packet_processor.vhd)

    The states of the clocked process are embedded as the sequential
    programs they are written as: an assignment is visible to the
    statements after it in the same state, and the later of two assignments
    to one target stands.  (The source declares variables between
    statements, advances the buffer pointers byte by byte inside loops and
    tests [header_valid] right after clearing it; only this reading gives
    those a meaning.)  Bit vectors are integers; an array is a list of its
    length.  The output buffer and the header under construction are outside
    the model, and with them the [size] field of a tracked packet. *)

Module PacketProcessor.

Definition PKT_TYPE_INITIAL : Z := 255.
Definition PKT_TYPE_0RTT : Z := 254.
Definition PKT_TYPE_HANDSHAKE : Z := 253.
Definition PKT_TYPE_RETRY : Z := 252.
Definition PKT_TYPE_VERSION_NEG : Z := 251.

Definition VALID_HEADER : Z := 0.
Definition INVALID_PACKET_TYPE : Z := 1.
Definition INVALID_VERSION : Z := 2.
Definition INVALID_CID_LENGTH : Z := 3.
Definition INVALID_PACKET_SIZE : Z := 4.
Definition INVALID_FRAME_TYPE : Z := 5.
Definition INVALID_PKT_NUM_LEN : Z := 6.
Definition INVALID_CID_MATCH : Z := 7.
Definition INVALID_TOKEN : Z := 8.

Definition BUFFER_SIZE : Z := 2048.
Definition MAX_TRACKED_PACKETS : nat := 128.
Definition MAX_STREAMS : nat := 64.

(** An entry of [packet_tracker].  The array is not cleared by reset: an
    entry nothing was stored in yet is [None] (its [acked] is neither '0'
    nor '1' and its number equals no packet number). *)
Record packet_record := mkPacket {
  packet_num : Z;
  timestamp : Z;
  acked : bool;
  retx_count : nat
}.

Inductive stream_state_type :=
| STREAM_IDLE | STREAM_OPEN | STREAM_CLOSED | STREAM_RESET.

Record stream_record := mkStream {
  stream_id : Z;
  state : stream_state_type;
  recv_offset : Z;
  send_offset : Z;
  is_bidi : bool;
  last_activity : Z;
  fin_received : bool;
  fin_sent : bool
}.

Definition is_open (s : stream_record) : bool :=
  match state s with STREAM_OPEN => true | _ => false end.

Record processor := mkProcessor {
  input_buffer : list Z;
  in_buf_wrptr : Z;
  in_buf_rdptr : Z;
  packet_tracker : list (option packet_record);
  packet_index : nat;
  current_time : Z;
  packet_count_sent : Z;
  packet_count_received : Z;
  packet_count_retx : Z;
  header_valid : bool;
  validation_error : Z;
  final_packet_num : Z;
  retx_needed : bool;
  retx_packet_num : Z;
  streams : list stream_record;
  stream_count : nat;
  current_stream_id : Z
}.

Definition idle_stream : stream_record :=
  mkStream 0 STREAM_IDLE 0 0 false 0 false false.

(** The state at power-on followed by reset. *)
Definition power_on : processor :=
  mkProcessor (replicate (Z.to_nat BUFFER_SIZE) 0) 0 0
    (replicate MAX_TRACKED_PACKETS None) 0 0 0 0 0 false VALID_HEADER 0 false 0
    (replicate MAX_STREAMS idle_stream) 0 0.

(** The branch [rst = '1']: neither the buffers nor the tracker entries
    are assigned. *)
Definition reset (p : processor) : processor :=
  mkProcessor (input_buffer p) 0 0 (packet_tracker p) 0 0 0 0 0 false VALID_HEADER
    (final_packet_num p) false (retx_packet_num p)
    (replicate MAX_STREAMS idle_stream) 0 0.

(** *** VALIDATE_HEADER *)

Definition verdict : Type := bool * Z.

(** [if c then header_valid <= '0'; validation_error <= e; end if]. *)
Definition flag (c : bool) (e : Z) (v : verdict) : verdict :=
  if c then (false, e) else v.

(** The comparison of eight buffer bytes from [from] on with the bytes of
    [connection_id], lowest byte first. *)
Definition cid_match (buf : list Z) (from : Z) (connection_id : Z) : bool :=
  forallb (fun i => at_ buf (from + Z.of_nat i) =? byte_of connection_id (8 * Z.of_nat i))
          (seq 0 8).

Definition known_long_type (b0 : Z) : bool :=
  (b0 =? PKT_TYPE_INITIAL) || (b0 =? PKT_TYPE_0RTT) || (b0 =? PKT_TYPE_HANDSHAKE)
  || (b0 =? PKT_TYPE_RETRY) || (b0 =? PKT_TYPE_VERSION_NEG).

Definition version_is_1 (buf : list Z) : bool :=
  (at_ buf 1 =? 0) && (at_ buf 2 =? 0) && (at_ buf 3 =? 0) && (at_ buf 4 =? 1).

Definition validate_long (buf : list Z) (wrptr connection_id : Z) : verdict :=
  let b0 := at_ buf 0 in
  let v := (true, VALID_HEADER) in
  let v := flag (negb (known_long_type b0)) INVALID_PACKET_TYPE v in
  let v := flag (wrptr <? 7) INVALID_PACKET_SIZE v in
  let v := if 5 <=? wrptr then flag (negb (version_is_1 buf)) INVALID_VERSION v else v in
  if 6 <=? wrptr then
    let dcid_len := at_ buf 5 in
    let v := flag (20 <? dcid_len) INVALID_CID_LENGTH v in
    let v :=
      if 6 + dcid_len <=? wrptr then
        let scid_len_index := 6 + dcid_len in
        let v := flag (20 <? at_ buf scid_len_index) INVALID_CID_LENGTH v in
        if b0 =? PKT_TYPE_INITIAL then
          let token_len_index := scid_len_index + 1 + at_ buf scid_len_index in
          flag (wrptr <? token_len_index) INVALID_TOKEN v
        else v
      else v in
    if fst v && (dcid_len =? 8)
    then flag (negb (cid_match buf 6 connection_id)) INVALID_CID_MATCH v
    else v
  else v.

Definition pkt_num_len (b0 : Z) : Z := 1 + Z.land (Z.shiftr b0 5) 3.

Definition validate_short (buf : list Z) (wrptr connection_id : Z) : verdict :=
  let b0 := at_ buf 0 in
  let v := (true, VALID_HEADER) in
  let v := flag (wrptr <? 10) INVALID_PACKET_SIZE v in
  let v := flag (negb (Z.land b0 31 =? 0)) INVALID_PACKET_TYPE v in
  let v := flag (wrptr <? 1 + 8 + pkt_num_len b0) INVALID_PKT_NUM_LEN v in
  if fst v
  then flag (negb (cid_match buf 1 connection_id)) INVALID_CID_MATCH v
  else v.

Definition validate (buf : list Z) (wrptr connection_id : Z) : verdict :=
  if 0 <? wrptr then
    if Z.testbit (at_ buf 0) 7
    then validate_long buf wrptr connection_id
    else validate_short buf wrptr connection_id
  else (false, INVALID_PACKET_SIZE).

Definition with_verdict (v : verdict) (p : processor) : processor :=
  mkProcessor (input_buffer p) (in_buf_wrptr p) (in_buf_rdptr p) (packet_tracker p)
    (packet_index p) (current_time p) (packet_count_sent p) (packet_count_received p)
    (packet_count_retx p) (fst v) (snd v) (final_packet_num p) (retx_needed p)
    (retx_packet_num p) (streams p) (stream_count p) (current_stream_id p).

Definition VALIDATE_HEADER (connection_id : Z) (p : processor) : processor :=
  with_verdict (validate (input_buffer p) (in_buf_wrptr p) connection_id) p.

(** COMPLETE: a packet that failed validation is cleared from the buffer. *)
Definition COMPLETE (p : processor) : processor :=
  if header_valid p then p
  else
    mkProcessor (input_buffer p) 0 0 (packet_tracker p)
      (packet_index p) (current_time p) (packet_count_sent p) (packet_count_received p)
      (packet_count_retx p) (header_valid p) (validation_error p) (final_packet_num p)
      (retx_needed p) (retx_packet_num p) (streams p) (stream_count p)
      (current_stream_id p).

(** The next-state process in state VALIDATE_HEADER. *)
Inductive state_type :=
| IDLE | LOAD_DATA | ST_VALIDATE_HEADER | CREATE_HEADER | PROCESS_PAYLOAD
| ST_PROCESS_STREAM_FRAME | ST_FRAME_DATA | ST_PROCESS_ACK | ST_CHECK_RETRANSMIT
| RETRANSMIT_PACKET | OUTPUT_DATA | ST_COMPLETE.

Definition after_validation (p : processor) : state_type :=
  if header_valid p then CREATE_HEADER else ST_COMPLETE.

(** *** The stream table *)

Definition with_streams (ss : list stream_record) (n : nat) (sid : Z) (rd : Z)
    (p : processor) : processor :=
  mkProcessor (input_buffer p) (in_buf_wrptr p) rd (packet_tracker p)
    (packet_index p) (current_time p) (packet_count_sent p) (packet_count_received p)
    (packet_count_retx p) (header_valid p) (validation_error p) (final_packet_num p)
    (retx_needed p) (retx_packet_num p) ss n sid.

(** [n] successive bytes of the input buffer, lowest first, with the read
    pointer that results. *)
Fixpoint read_le (buf : list Z) (rd : Z) (n : nat) : Z * Z :=
  match n with
  | O => (0, rd)
  | S n' =>
      let (v, rd') := read_le buf ((rd + 1) mod BUFFER_SIZE) n' in
      (at_ buf rd + 256 * v, rd')
  end.

(** The loop [for j in 0 to stream_count-1] looking for [sid]. *)
Definition find_stream (sid : Z) (ss : list stream_record) (n : nat) : option nat :=
  fst <$> list_find (fun s => stream_id s = sid) (take n ss).

(** The update of a stream that was found. *)
Definition receive_on (new_offset t : Z) (fin : bool) (s : stream_record) : stream_record :=
  mkStream (stream_id s)
    (if fin && is_open s then STREAM_CLOSED else state s)
    (if recv_offset s <? new_offset then new_offset else recv_offset s)
    (send_offset s) (is_bidi s) t
    (fin || fin_received s) (fin_sent s).

(** The part of PROCESS_STREAM_FRAME behind the decoding of the frame. *)
Definition track_stream (sid stream_offset data_length : Z) (fin : bool)
    (t : Z) (ss : list stream_record) (n : nat) : list stream_record * nat :=
  let new_offset := u64 (stream_offset + data_length) in
  match find_stream sid ss n with
  | Some j => (alter (receive_on new_offset t fin) j ss, n)
  | None =>
      if (n <? MAX_STREAMS)%nat then
        (<[n := mkStream sid (if fin then STREAM_CLOSED else STREAM_OPEN)
                 new_offset 0 true t fin false]> ss, S n)
      else (ss, n)
  end.

Definition PROCESS_STREAM_FRAME (p : processor) : processor :=
  if (in_buf_rdptr p <? in_buf_wrptr p) && (6 <=? in_buf_wrptr p - in_buf_rdptr p) then
    let buf := input_buffer p in
    let frame_type_byte := at_ buf (in_buf_rdptr p) in
    let rd := (in_buf_rdptr p + 1) mod BUFFER_SIZE in
    let (sid, rd) := read_le buf rd 4 in
    let has_fin_flag := Z.testbit frame_type_byte 0 in
    let (stream_offset, rd) :=
      if Z.testbit frame_type_byte 2 then read_le buf rd 8 else (0, rd) in
    let (data_length, rd) :=
      if Z.testbit frame_type_byte 1
      then (at_ buf rd + 256 * at_ buf ((rd + 1) mod BUFFER_SIZE), (rd + 2) mod BUFFER_SIZE)
      else (in_buf_wrptr p - rd, rd) in
    let (ss, n) :=
      track_stream sid stream_offset data_length has_fin_flag (current_time p)
        (streams p) (stream_count p) in
    with_streams ss n sid ((rd + data_length) mod BUFFER_SIZE) p
  else p.

(** The choice of the stream an outbound payload goes on (FRAME_DATA). *)
Definition open_stream (sid t : Z) (s : stream_record) : stream_record :=
  mkStream sid STREAM_OPEN (recv_offset s) (send_offset s) true t
    (fin_received s) (fin_sent s).

Definition touch (t : Z) (s : stream_record) : stream_record :=
  mkStream (stream_id s) (state s) (recv_offset s) (send_offset s) (is_bidi s) t
    (fin_received s) (fin_sent s).

Definition choose_stream (t : Z) (ss : list stream_record) (n : nat)
    : list stream_record * nat * Z :=
  if (n =? 0)%nat then (alter (open_stream 0 t) 0%nat ss, 1%nat, 0)
  else if (n <? MAX_STREAMS)%nat then
    (alter (open_stream (Z.of_nat n) t) n ss, S n, Z.of_nat n)
  else
    match list_find (fun s => is_open s = true) ss with
    | Some (i, s) => (alter (touch t) i ss, n, stream_id s)
    | None => (ss, n, stream_id (nth 0 ss idle_stream))
    end.

Definition advance_send (amount t : Z) (s : stream_record) : stream_record :=
  mkStream (stream_id s) (state s) (recv_offset s) (u64 (send_offset s + amount))
    (is_bidi s) t (fin_received s) (fin_sent s).

Definition account_send (sid amount t : Z) (ss : list stream_record) : list stream_record :=
  match list_find (fun s => stream_id s = sid) ss with
  | Some (i, _) => alter (advance_send amount t) i ss
  | None => ss
  end.

(** *** The packet tracker *)

Definition with_tracker (tr : list (option packet_record)) (idx : nat)
    (sent retx : Z) (needed : bool) (num : Z) (p : processor) : processor :=
  mkProcessor (input_buffer p) (in_buf_wrptr p) (in_buf_rdptr p) tr
    idx (current_time p) sent (packet_count_received p)
    retx (header_valid p) (validation_error p) (final_packet_num p)
    needed num (streams p) (stream_count p) (current_stream_id p).

Definition FRAME_DATA (p : processor) : processor :=
  let p :=
    if in_buf_rdptr p <? in_buf_wrptr p then
      let '(ss, n, sid) := choose_stream (current_time p) (streams p) (stream_count p) in
      let ss := account_send sid (in_buf_wrptr p - in_buf_rdptr p) (current_time p) ss in
      with_streams ss n sid (in_buf_wrptr p) p
    else p in
  with_tracker
    (<[packet_index p := Some (mkPacket (final_packet_num p) (current_time p) false 0)]>
       (packet_tracker p))
    ((packet_index p + 1) mod MAX_TRACKED_PACKETS)%nat
    (u32 (packet_count_sent p + 1)) (packet_count_retx p)
    (retx_needed p) (retx_packet_num p) p.

Definition is_packet (num : Z) (e : option packet_record) : bool :=
  match e with
  | Some r => packet_num r =? num
  | None => false
  end.

Definition acknowledge (e : option packet_record) : option packet_record :=
  match e with
  | Some r => Some (mkPacket (packet_num r) (timestamp r) true (retx_count r))
  | None => None
  end.

Definition PROCESS_ACK (ack_receive : bool) (ack_packet_num : Z) (p : processor) : processor :=
  if ack_receive then
    let tr :=
      match list_find (fun e => is_packet ack_packet_num e = true) (packet_tracker p) with
      | Some (i, _) => alter acknowledge i (packet_tracker p)
      | None => packet_tracker p
      end in
    mkProcessor (input_buffer p) (in_buf_wrptr p) (in_buf_rdptr p) tr
      (packet_index p) (current_time p) (packet_count_sent p)
      (u32 (packet_count_received p + 1))
      (packet_count_retx p) (header_valid p) (validation_error p) (final_packet_num p)
      (retx_needed p) (retx_packet_num p) (streams p) (stream_count p)
      (current_stream_id p)
  else p.

(** The condition of CHECK_RETRANSMIT on one entry. *)
Definition due (t retx_timeout : Z) (e : option packet_record) : bool :=
  match e with
  | Some r =>
      negb (acked r) && (retx_count r <? 10)%nat
      && (retx_timeout <? u32 (t - timestamp r))
  | None => false
  end.

Definition retransmitted (t : Z) (e : option packet_record) : option packet_record :=
  match e with
  | Some r => Some (mkPacket (packet_num r) t (acked r) (S (retx_count r)))
  | None => None
  end.

Definition CHECK_RETRANSMIT (retx_timeout : Z) (p : processor) : processor :=
  match list_find (fun e => due (current_time p) retx_timeout e = true) (packet_tracker p) with
  | Some (i, e) =>
      with_tracker (alter (retransmitted (current_time p)) i (packet_tracker p))
        (packet_index p) (packet_count_sent p) (u32 (packet_count_retx p + 1))
        true (from_option packet_num 0 e) p
  | None =>
      with_tracker (packet_tracker p) (packet_index p) (packet_count_sent p)
        (packet_count_retx p) false (retx_packet_num p) p
  end.

Definition after_check (p : processor) : state_type :=
  if retx_needed p then RETRANSMIT_PACKET else ST_COMPLETE.

(** *** Runs of the machine

    What the clocked process does to the registers of the model, one
    state at a time; the ports are the arguments. *)
Inductive event :=
| Reset
| Tick
| Load (bytes : list Z) (wrptr : Z)
| Validate (connection_id : Z)
| CreateHeader (packet_number : Z)
| Frame
| StreamFrame
| Ack (ack_receive : bool) (ack_packet_num : Z)
| CheckRetransmit (retx_timeout : Z)
| Complete.

Definition tick (p : processor) : processor :=
  mkProcessor (input_buffer p) (in_buf_wrptr p) (in_buf_rdptr p) (packet_tracker p)
    (packet_index p) (u32 (current_time p + 1)) (packet_count_sent p)
    (packet_count_received p) (packet_count_retx p) (header_valid p)
    (validation_error p) (final_packet_num p) (retx_needed p) (retx_packet_num p)
    (streams p) (stream_count p) (current_stream_id p).

Definition load (bytes : list Z) (wrptr : Z) (p : processor) : processor :=
  mkProcessor bytes wrptr (in_buf_rdptr p) (packet_tracker p)
    (packet_index p) (current_time p) (packet_count_sent p)
    (packet_count_received p) (packet_count_retx p) (header_valid p)
    (validation_error p) (final_packet_num p) (retx_needed p) (retx_packet_num p)
    (streams p) (stream_count p) (current_stream_id p).

Definition create_header (packet_number : Z) (p : processor) : processor :=
  mkProcessor (input_buffer p) (in_buf_wrptr p) (in_buf_rdptr p) (packet_tracker p)
    (packet_index p) (current_time p) (packet_count_sent p)
    (packet_count_received p) (packet_count_retx p) (header_valid p)
    (validation_error p) packet_number (retx_needed p) (retx_packet_num p)
    (streams p) (stream_count p) (current_stream_id p).

Definition run (e : event) (p : processor) : processor :=
  match e with
  | Reset => reset p
  | Tick => tick p
  | Load bytes wrptr => load bytes wrptr p
  | Validate connection_id => VALIDATE_HEADER connection_id p
  | CreateHeader packet_number => create_header packet_number p
  | Frame => FRAME_DATA p
  | StreamFrame => PROCESS_STREAM_FRAME p
  | Ack ack_receive ack_packet_num => PROCESS_ACK ack_receive ack_packet_num p
  | CheckRetransmit retx_timeout => CHECK_RETRANSMIT retx_timeout p
  | Complete => COMPLETE p
  end.

Definition runs (es : list event) (p : processor) : processor :=
  fold_left (fun p e => run e p) es p.

Definition reachable (p : processor) : Prop := exists es, p = runs es power_on.

(** The stream ID of the STREAM frame at the read pointer. *)
Definition incoming_stream_id (p : processor) : Z :=
  fst (read_le (input_buffer p) ((in_buf_rdptr p + 1) mod BUFFER_SIZE) 4).

(** The number of stream records in use. *)
Definition streams_tracked (p : processor) : nat := stream_count p.


End PacketProcessor.

(** ** The accelerator interface in simulation mode (fpga_interface.cpp)

    An [FPGAInterface] constructed with [simulationMode = true]: the packet
    and compression operations are served by the [simulate...] functions.
    The processing time, which is measured on the wall clock, and the error
    message of a result are outside the model. *)

Module Interface.

Definition u16 (x : Z) : Z := x mod 65536.

Record FPGAInterface := mkInterface {
  m_connected : bool;
  m_compressionOpsCount : Z;
  m_packetOpsCount : Z;
  m_totalBytesProcessed : Z
}.

Definition construct : FPGAInterface := mkInterface false 0 0 0.

Definition initialize (f : FPGAInterface) : bool * FPGAInterface :=
  (true, mkInterface true (m_compressionOpsCount f) (m_packetOpsCount f)
           (m_totalBytesProcessed f)).

Definition shutdown (f : FPGAInterface) : FPGAInterface :=
  mkInterface false (m_compressionOpsCount f) (m_packetOpsCount f)
    (m_totalBytesProcessed f).

Definition isConnected (f : FPGAInterface) : bool := m_connected f.

Definition updateStats (bytesProcessed : Z) (f : FPGAInterface) : FPGAInterface :=
  mkInterface (m_connected f) (m_compressionOpsCount f) (m_packetOpsCount f)
    (u64 (m_totalBytesProcessed f + bytesProcessed)).

(** The header the simulation puts in front of a payload: first byte 0xC0,
    the connection ID and the packet number lowest byte first, a STREAM
    frame type, stream 0 and the payload length as a [uint16_t]. *)
Definition stream_frame_header (connectionID packetNumber : Z) (inputData : list Z)
    : list Z :=
  let length := u16 (size inputData) in
  [192]
  ++ map (fun i => byte_of connectionID (Z.of_nat i * 8)) (seq 0 8)
  ++ [byte_of packetNumber 0; byte_of packetNumber 8;
      byte_of packetNumber 16; byte_of packetNumber 24]
  ++ [8; 0]
  ++ [byte_of length 0; byte_of length 8].

Definition ack_delay : Z := 10.

Definition simulatePacketOperation (operationType : FPGAOperationType)
    (inputData : list Z) (connectionID packetNumber : Z) (f : FPGAInterface)
    : FPGAOperationResult * FPGAInterface :=
  let bytes := u32 (size inputData) in
  let counted :=
    mkInterface (m_connected f) (m_compressionOpsCount f) (u64 (m_packetOpsCount f + 1))
      (m_totalBytesProcessed f) in
  match operationType with
  | PACKET_FRAMING =>
      (mkResult true
         (stream_frame_header connectionID packetNumber inputData ++ inputData) bytes,
       counted)
  | PACKET_ACK_PROCESSING =>
      (mkResult true
         ([2]
          ++ [byte_of packetNumber 0; byte_of packetNumber 8;
              byte_of packetNumber 16; byte_of packetNumber 24]
          ++ [byte_of ack_delay 0; byte_of ack_delay 8]
          ++ [0] ++ [0]) bytes,
       counted)
  | PACKET_RETRANSMISSION =>
      let newPacketNumber := u32 (packetNumber + 1) in
      (mkResult true
         (stream_frame_header connectionID newPacketNumber inputData ++ inputData) bytes,
       counted)
  | _ => (mkResult false [] bytes, f)
  end.

(** [simulateCompressionOperation] with its operation counter, which the
    early return of a failed decompression does not reach. *)
Definition simulateCompressionOperation (operationType : FPGAOperationType)
    (inputData : list Z) (f : FPGAInterface) : FPGAOperationResult * FPGAInterface :=
  let result := Compression.simulateCompressionOperation operationType inputData in
  (result,
   if success result
   then mkInterface (m_connected f) (u64 (m_compressionOpsCount f + 1))
          (m_packetOpsCount f) (m_totalBytesProcessed f)
   else f).

Definition executeCompressionOperation (operationType : FPGAOperationType)
    (inputData : list Z) (f : FPGAInterface) : FPGAOperationResult * FPGAInterface :=
  if size inputData =? 0 then (mkResult false [] 0, f)
  else
    let (result, f) := simulateCompressionOperation operationType inputData f in
    (result, updateStats (bytesProcessed result) f).

Definition is_ack_processing (operationType : FPGAOperationType) : bool :=
  match operationType with PACKET_ACK_PROCESSING => true | _ => false end.

Definition executePacketOperation (operationType : FPGAOperationType)
    (inputData : list Z) (connectionID packetNumber : Z) (f : FPGAInterface)
    : FPGAOperationResult * FPGAInterface :=
  if negb (is_ack_processing operationType) && (size inputData =? 0)
  then (mkResult false [] 0, f)
  else
    let (result, f) :=
      simulatePacketOperation operationType inputData connectionID packetNumber f in
    (result, updateStats (bytesProcessed result) f).

End Interface.

(** ** Properties of a computation of the handler as a whole *)

Section Accounting.
Context `{Environment}.

(** A property of the running handler, its datagrams and its environment
    that a computation keeps. *)
Definition keeps {A} (J : Handler.Process -> Prop) (m : Handler.M A) : Prop :=
  forall p a p', m p = Some (a, p') -> J p -> J p'.

(** The computation returns, from every state in which the handler object
    satisfies [I], and keeps [I]. *)
Definition in_bounds {A} (I : Handler.QUICHandler -> Prop) (m : Handler.M A) : Prop :=
  forall p, I (Handler.self p) ->
  exists a p', m p = Some (a, p') /\ I (Handler.self p').

(** The number of bytes handed to [sendto]. *)
Definition bytes_on_wire (ds : list (list Z)) : Z :=
  fold_right (fun d n => size d + n) 0 ds.

(** The parameter check at the head of [executePacketOperation]: an
    operation other than ACK processing fails on empty input. *)
Definition rejects_empty_input : Prop :=
  forall op connectionID pn w,
    Interface.is_ack_processing op = false ->
    success (fst (fpga_executePacketOperation op [] connectionID pn w)) = false.

End Accounting.


(** ** Notions the properties are stated with *)

(** Strictly increasing sequences of packet numbers. *)
Definition ascending (l : list Z) : Prop := StronglySorted Z.lt l.

(** An environment for closed examples: the clock stands at the value the
    world holds, and no accelerator is connected. *)
Definition standstill : Environment :=
  Build_Environment Z (fun w => (w, w)) (fun _ => false)
    (fun _ _ _ _ w => (mkResult false [] 0, w)).

(** A handler as the proxy constructs it, with connection ID 01 .. 08. *)
Definition sample_process : @Handler.Process standstill :=
  @Handler.construct standstill false [1; 2; 3; 4; 5; 6; 7; 8] 0.

(** The Initial datagram of a peer: version 1, destination connection ID
    01 .. 08, source connection ID 11 .. 18 (hexadecimal), empty token, and
    one CRYPTO frame with the payload AA BB CC DD. *)
Definition initial_datagram : list Z :=
  [192; 0; 0; 0; 1; 8; 1; 2; 3; 4; 5; 6; 7; 8; 8; 17; 18; 19; 20; 21; 22; 23; 24;
   0; 7; 0; 0; 0; 0; 6; 0; 4; 170; 187; 204; 221].

(** The handler after [k] more Initial datagrams of its peer. *)
Fixpoint after_initials (k : nat) (p : @Handler.Process standstill)
    : @Handler.Process standstill :=
  match k with
  | O => p
  | S k' =>
      match @Handler.processIncomingPacket standstill (Some initial_datagram) 36
              (after_initials k' p) with
      | Some (_, p') => p'
      | None => after_initials k' p
      end
  end.

(** The states of the run of Initial datagrams at a clock that stands
    still: [n] packets recorded, none acknowledged, all stamped 0. *)
Definition quiet (n : nat) (p : @Handler.Process standstill) : Prop :=
  @Handler.env standstill p = 0
  /\ Handler.m_destConnID (@Handler.self standstill p) = [1; 2; 3; 4; 5; 6; 7; 8]
  /\ Handler.m_srcConnID (@Handler.self standstill p) = [1; 2; 3; 4; 5; 6; 7; 8]
  /\ length (Handler.m_sentPackets (@Handler.self standstill p)) = n
  /\ Forall (fun info => Handler.acknowledged info = false /\ Handler.sentTime info = 0)
       (Handler.m_sentPackets (@Handler.self standstill p)).

(** A long-header datagram whose destination connection ID length field
    is 21: Initial, version 1, 21 bytes of connection ID, no source
    connection ID, no token, packet number 1. *)
Definition oversized_cid_datagram : list Z :=
  [192; 0; 0; 0; 1; 21]
  ++ [1; 2; 3; 4; 5; 6; 7; 8; 9; 10; 11; 12; 13; 14; 15; 16; 17; 18; 19; 20; 21]
  ++ [0; 0; 0; 0; 0; 0; 1].

(** A table with two connections, last active at 0 s and at 20 s of the
    clock, and a cleanup pass that last ran at 25 s. *)
Definition sample_proxy : @Proxy.QUICProxy :=
  Proxy.mkProxy
    [Handler.mkHandler false true 0 0 0 0 0 1 0 [] [1; 2; 3; 4; 5; 6; 7; 8] [] [];
     Handler.mkHandler false true 20000000000 0 0 0 0 2 0 [] [8; 7; 6; 5; 4; 3; 2; 1] [] []]
    2 (Some 25000000000).

(** Runs of the packet processor for closed examples. *)


(** Sixty-four payloads of eight bytes are framed, which opens the streams
    0 .. 63; then a STREAM frame for stream 1000 arrives. *)
Definition full_table_run : list PacketProcessor.event :=
  flat_map (fun k => [PacketProcessor.Load (replicate 2048 0) (8 * (Z.of_nat k + 1));
                      PacketProcessor.Frame]) (seq 0 64)
  ++ [PacketProcessor.Load (replicate 512 0 ++ [8; 232; 3; 0; 0; 1; 2; 3] ++ replicate 1528 0)
        520].



(** A 0-RTT datagram: the handler parses it, does nothing with it and
    goes on to its retransmission pass. *)
Definition zero_rtt_datagram : list Z :=
  [208; 0; 0; 0; 1; 8; 1; 2; 3; 4; 5; 6; 7; 8; 0; 0; 0; 0; 0; 2].

(** One second passes and the peer sends a 0-RTT datagram. *)
Definition second_and_poll (p : @Handler.Process standstill) : @Handler.Process standstill :=
  let later := @Handler.mkProcess standstill (@Handler.self standstill p)
                 (@Handler.udp_out standstill p)
                 (@Handler.env standstill p + 1000000000) in
  match @Handler.processIncomingPacket standstill (Some zero_rtt_datagram) 20 later with
  | Some (_, p') => p'
  | None => later
  end.

(** A short-header datagram of sixteen bytes with first byte 0x70. *)
Definition reserved_bits_datagram : list Z :=
  [112; 1; 2; 3; 4; 5; 6; 7; 8; 0; 0; 0; 9; 1; 0; 0].

(** An entry of the tracker at a later time: the same packet, possibly
    acknowledged or sent again in between. *)
Definition same_packet (info info' : Handler.PacketInfo) : Prop :=
  Handler.packetNumber info' = Handler.packetNumber info
  /\ Handler.packetData info' = Handler.packetData info
  /\ (Handler.acknowledged info = true -> Handler.acknowledged info' = true).

(** The connection IDs of the handler are [dcid] and [scid]. *)
Definition has_ids (dcid scid : list Z) (h : Handler.QUICHandler) : Prop :=
  Handler.m_destConnID h = dcid /\ Handler.m_srcConnID h = scid.

(** The connection has adopted a connection ID of its peer, and the two
    connection IDs leave room for the other header fields in the 64 bytes
    that [sendPacket] allows for the headers: 14 bytes in an Initial
    packet. *)
Definition ids_fit (h : Handler.QUICHandler) : Prop :=
  0 < size (Handler.m_destConnID h)
  /\ size (Handler.m_destConnID h) + size (Handler.m_srcConnID h) <= 50.

(** An environment with the accelerator interface in simulation mode: the
    world is the reading of the clock, which stands still, and the
    interface object. *)
Definition simulation : Environment :=
  Build_Environment (Z * Interface.FPGAInterface)
    (fun w => (fst w, w))
    (fun w => Interface.isConnected (snd w))
    (fun op input connectionID pn w =>
       let (result, f) :=
         Interface.executePacketOperation op input connectionID pn (snd w) in
       (result, (fst w, f))).

(** The interface after [initialize]. *)
Definition initialized : Interface.FPGAInterface :=
  snd (Interface.initialize Interface.construct).

(** A handler with acceleration enabled at an initialised interface in
    simulation mode, after the Initial datagram of its peer and one second
    without an acknowledgement. *)
Definition accelerated_process : @Handler.Process simulation :=
  match @Handler.processIncomingPacket simulation (Some initial_datagram) 36
          (@Handler.construct simulation true [1; 2; 3; 4; 5; 6; 7; 8] (0, initialized)) with
  | Some (_, p) =>
      @Handler.mkProcess simulation (@Handler.self simulation p)
        (@Handler.udp_out simulation p) (1000000000, snd (@Handler.env simulation p))
  | None => @Handler.construct simulation true [1; 2; 3; 4; 5; 6; 7; 8] (0, initialized)
  end.

(** The next [n] readings of the steady clock. *)
Fixpoint clock_readings `{Environment} (n : nat) (w : World) : list Z :=
  match n with
  | O => []
  | S n' => let (t, w1) := steady_clock_now w in t :: clock_readings n' w1
  end.

(** A stream record at a later time: the same stream, no less received,
    still finished if it was, still closed if it was. *)
Definition stream_advanced (s s' : PacketProcessor.stream_record) : Prop :=
  PacketProcessor.stream_id s' = PacketProcessor.stream_id s
  /\ PacketProcessor.recv_offset s <= PacketProcessor.recv_offset s'
  /\ (PacketProcessor.fin_received s = true -> PacketProcessor.fin_received s' = true)
  /\ (PacketProcessor.state s = PacketProcessor.STREAM_CLOSED ->
      PacketProcessor.state s' = PacketProcessor.STREAM_CLOSED).

(** * Properties *)

(** ** Compression *)

Section CompressionFacts.
Import Compression.

Lemma run_length_bounds cur rest c :
  (c <= run_length cur rest c)%nat /\ (run_length cur rest c <= Nat.max c 255)%nat.
Proof.
  revert c. induction rest as [|b rest IH]; intros c; simpl; [lia|].
  destruct (b =? cur); simpl; [|lia].
  destruct (Nat.ltb_spec c 255); [|lia].
  specialize (IH (S c)). lia.
Qed.

(** The bytes the inner loop has counted are copies of the current byte. *)
Lemma run_length_prefix cur rest c :
  let n := run_length cur rest c in
  (n - c <= length rest)%nat /\ take (n - c) rest = replicate (n - c) cur.
Proof.
  revert c. induction rest as [|b rest IH]; intros c; simpl.
  - replace (c - c)%nat with 0%nat by lia. done.
  - destruct (Z.eqb_spec b cur) as [->|]; simpl.
    + destruct (Nat.ltb_spec c 255).
      * destruct (IH (S c)) as [Hl Ht].
        pose proof (run_length_bounds cur rest (S c)) as [Hb _].
        replace (run_length cur rest (S c) - c)%nat
          with (S (run_length cur rest (S c) - S c)) by lia.
        simpl. split; [lia|]. by rewrite Ht.
      * replace (c - c)%nat with 0%nat by lia. simpl. split; [lia|done].
    + replace (c - c)%nat with 0%nat by lia. simpl. split; [lia|done].
Qed.

Lemma run_splits cur rest :
  let n := run_length cur rest 1 in
  cur :: rest = replicate n cur ++ drop (n - 1) rest.
Proof.
  intros n. destruct (run_length_prefix cur rest 1) as [Hl Ht].
  pose proof (run_length_bounds cur rest 1) as [Hb _].
  fold n in Hl, Ht, Hb.
  replace n with (S (n - 1)) at 1 by lia. simpl. f_equal.
  rewrite <- Ht. by rewrite take_drop.
Qed.

Lemma decode_literal b rest : b <> 255 -> decode (b :: rest) = b :: decode rest.
Proof.
  intros Hb. simpl. destruct rest as [|c [|v rest']]; try done.
  destruct (Z.eqb_spec b 255); [done|done].
Qed.

Lemma decode_literals b n rest :
  b <> 255 -> decode (replicate n b ++ rest) = replicate n b ++ decode rest.
Proof.
  intros Hb. induction n as [|n IH]; [done|].
  simpl replicate. rewrite <- !app_comm_cons, decode_literal by done.
  by rewrite IH.
Qed.

Lemma decode_run c v rest :
  decode (255 :: c :: v :: rest) = replicate (Z.to_nat c) v ++ decode rest.
Proof. reflexivity. Qed.

Lemma decode_emit_run cur n rest :
  cur <> 255 -> (n <= 255)%nat ->
  decode (emit_run cur n ++ rest) = replicate n cur ++ decode rest.
Proof.
  intros Hc Hn. unfold emit_run. destruct (4 <=? n)%nat.
  - simpl app. rewrite decode_run. unfold u8.
    rewrite Z.mod_small by lia. by rewrite Nat2Z.id.
  - by apply decode_literals.
Qed.

(** The decoder undoes the encoder on input free of the marker byte. *)
Lemma decode_encode_loop rounds input :
  (length input <= rounds)%nat -> Forall (fun b => b <> 255) input ->
  decode (encode_loop rounds input) = input.
Proof.
  revert input. induction rounds as [|rounds IH]; intros input Hlen Hfree.
  - destruct input; [done|simpl in Hlen; lia].
  - destruct input as [|cur rest]; [done|].
    simpl encode_loop.
    pose proof (run_length_bounds cur rest 1) as [Hlo Hhi].
    inversion Hfree as [|? ? Hcur Hrest]; subst.
    rewrite decode_emit_run by (done || lia).
    rewrite IH.
    + symmetry. apply run_splits.
    + rewrite length_drop. simpl in Hlen. lia.
    + by apply Forall_drop.
Qed.

Lemma decompress_compress_data B :
  data (decompress (data (compress B))) = decode (encode B)
  /\ success (decompress (data (compress B))) = true.
Proof.
  unfold compress, decompress, simulateCompressionOperation.
  cbn [data success header magic app].
  set (body := encode B). set (sz := u32 (size B)).
  assert ((size (81 :: 67 :: 77 :: 80 :: byte_of sz 0 :: byte_of sz 8
                  :: byte_of sz 16 :: byte_of sz 24 :: body) <? 8) = false) as ->.
  { apply Z.ltb_ge. unfold size. cbn [length]. lia. }
  by cbn.
Qed.

(** Round trip of the container for every byte sequence without the byte
    0xFF, of any length. *)
Lemma roundtrip_without_marker B :
  Forall (fun b => b <> 255) B ->
  success (decompress (data (compress B))) = true
  /\ data (decompress (data (compress B))) = B.
Proof.
  intros HB. destruct (decompress_compress_data B) as [-> ->].
  split; [done|]. by apply decode_encode_loop.
Qed.

(** C1.  The three bytes FF 05 41 are copied as literals by the encoder and
    read back as a run by the decoder: the round trip returns five bytes
    41 instead of the input. *)
Theorem roundtrip_breaks_on_marker :
  let B := [255; 5; 65] in
  data (compress B) = [81; 67; 77; 80; 3; 0; 0; 0; 255; 5; 65]
  /\ success (decompress (data (compress B))) = true
  /\ data (decompress (data (compress B))) = [65; 65; 65; 65; 65]
  /\ data (decompress (data (compress B))) <> B.
Proof. repeat split; vm_compute; congruence. Qed.

End CompressionFacts.


(** ** The size of the container, and the interface in front of it *)

Section ContainerFacts.
Import Compression.

Lemma emit_run_length cur n : (1 <= n)%nat -> (length (emit_run cur n) <= n)%nat.
Proof.
  intros Hn. unfold emit_run. destruct (Nat.leb_spec 4 n); simpl; [lia|].
  by rewrite length_replicate.
Qed.

Lemma encode_loop_length rounds input :
  (length (encode_loop rounds input) <= length input)%nat.
Proof.
  revert input. induction rounds as [|rounds IH]; intros input; [simpl; lia|].
  destruct input as [|cur rest]; [simpl; lia|]. simpl encode_loop.
  pose proof (run_length_bounds cur rest 1) as [Hlo _].
  destruct (run_length_prefix cur rest 1) as [Hfits _].
  pose proof (emit_run_length cur (run_length cur rest 1) Hlo) as Hrun.
  specialize (IH (drop (run_length cur rest 1 - 1) rest)).
  rewrite length_drop in IH. rewrite length_app. simpl. lia.
Qed.

Lemma container_size B : 8 <= size (data (compress B)) <= size B + 8.
Proof.
  unfold compress, simulateCompressionOperation, header, magic, encode, size.
  cbn [data]. rewrite !length_app. cbn [length].
  pose proof (encode_loop_length (length B) B). lia.
Qed.

(** X1.  The container is never more than its header larger than the input:
    compression succeeds and takes between 8 and [size B + 8] bytes. *)
Theorem compressed_size_is_bounded B :
  success (compress B) = true
  /\ 8 <= size (data (compress B)) <= size B + 8.
Proof. split; [done|apply container_size]. Qed.

Lemma run_length_replicate cur n c :
  (c + n <= 255)%nat -> run_length cur (replicate n cur) c = (c + n)%nat.
Proof.
  revert c. induction n as [|n IH]; intros c Hn; simpl; [lia|].
  rewrite Z.eqb_refl. destruct (Nat.ltb_spec c 255); [|lia]. simpl.
  rewrite IH by lia. lia.
Qed.

(** X2.  A run of 4 to 255 equal bytes, the marker byte 0xFF included, is
    stored in three bytes behind the header (the marker, the length of the
    run and the byte) and is restored by decompression. *)
Theorem run_is_stored_in_three_bytes b n :
  (4 <= n <= 255)%nat ->
  data (compress (replicate n b)) = header (replicate n b) ++ [255; Z.of_nat n; b]
  /\ data (decompress (data (compress (replicate n b)))) = replicate n b.
Proof.
  intros Hn.
  assert (encode (replicate n b) = [255; Z.of_nat n; b]) as Hencode.
  { unfold encode. rewrite length_replicate.
    destruct n as [|n]; [lia|]. cbn [replicate encode_loop].
    rewrite run_length_replicate by lia. replace (1 + n)%nat with (S n) by lia.
    replace (S n - 1)%nat with n by lia.
    rewrite drop_ge by (by rewrite length_replicate).
    replace (encode_loop n []) with (@nil Z) by (by destruct n).
    rewrite app_nil_r. unfold emit_run.
    destruct (Nat.leb_spec 4 (S n)); [|lia]. unfold u8. by rewrite Z.mod_small by lia. }
  split.
  - unfold compress, simulateCompressionOperation. cbn [data]. by rewrite Hencode.
  - destruct (decompress_compress_data (replicate n b)) as [-> _].
    rewrite Hencode, decode_run, Nat2Z.id. simpl. by rewrite app_nil_r.
Qed.

Lemma compress_not_empty B : (size (data (compress B)) =? 0) = false.
Proof. pose proof (container_size B). apply Z.eqb_neq. lia. Qed.

End ContainerFacts.

(** *** The entry point of the interface *)

Section InterfaceFacts.
Import Interface.

(** X3.  Through [executeCompressionOperation] in simulation mode: an empty
    input is refused and leaves the statistics alone; a non-empty input
    without the byte 0xFF is compressed and decompressed back to itself, and
    the two operations are counted. *)
Theorem compression_round_trip_through_the_interface B f :
  Forall (fun b => b <> 255) B ->
  let (compressed, f1) := executeCompressionOperation COMPRESSION B f in
  if size B =? 0 then compressed = mkResult false [] 0 /\ f1 = f
  else
    let (restored, f2) := executeCompressionOperation DECOMPRESSION (data compressed) f1 in
    success compressed = true
    /\ success restored = true
    /\ data restored = B
    /\ m_compressionOpsCount f2 = u64 (u64 (m_compressionOpsCount f + 1) + 1).
Proof.
  intros Hfree.
  destruct (decompress_compress_data B) as [Hdata Hok].
  unfold executeCompressionOperation, simulateCompressionOperation.
  destruct (size B =? 0); [done|].
  fold (Compression.compress B).
  assert (success (Compression.compress B) = true) as -> by done.
  cbv beta iota zeta. rewrite compress_not_empty.
  fold (Compression.decompress (data (Compression.compress B))).
  rewrite Hok, Hdata. cbv beta iota zeta.
  split; [done|]. split; [done|]. split; [|done].
  by apply decode_encode_loop.
Qed.

End InterfaceFacts.

(** A run of five bytes 0xFF. *)
Lemma run_is_stored_in_three_bytes_witness :
  (4 <= 5 <= 255)%nat
  /\ data (Compression.compress (replicate 5 255))
     = Compression.header (replicate 5 255) ++ [255; Z.of_nat 5; 255]
  /\ data (Compression.decompress (data (Compression.compress (replicate 5 255))))
     = replicate 5 255.
Proof.
  assert (4 <= 5 <= 255)%nat as Hn by lia.
  split; [exact Hn|].
  exact (run_is_stored_in_three_bytes 255 5 Hn).
Defined.

(** The bytes 41 41 41 41 41 42 through a freshly initialised interface. *)
Lemma compression_round_trip_through_the_interface_witness :
  Forall (fun b => b <> 255) [65; 65; 65; 65; 65; 66]
  /\ let (compressed, f1) :=
       Interface.executeCompressionOperation COMPRESSION [65; 65; 65; 65; 65; 66]
         initialized in
     if size [65; 65; 65; 65; 65; 66] =? 0
     then compressed = mkResult false [] 0 /\ f1 = initialized
     else
       let (restored, f2) :=
         Interface.executeCompressionOperation DECOMPRESSION (data compressed) f1 in
       success compressed = true
       /\ success restored = true
       /\ data restored = [65; 65; 65; 65; 65; 66]
       /\ Interface.m_compressionOpsCount f2
          = u64 (u64 (Interface.m_compressionOpsCount initialized + 1) + 1).
Proof.
  assert (Forall (fun b => b <> 255) [65; 65; 65; 65; 65; 66]) as Hfree
    by (repeat (constructor; [discriminate|]); constructor).
  split; [exact Hfree|].
  exact (compression_round_trip_through_the_interface [65; 65; 65; 65; 65; 66] initialized
           Hfree).
Defined.
(** ** The connection handler *)

Section HandlerFacts.
Context `{Environment}.
Import Handler.

Notation "x <- m ;; k" := (bind m (fun x => k))
  (at level 100, m at next level, right associativity).

(** *** Invariants of the handler object through the monad *)

Lemma preserves_ret {A} I (a : A) : preserves I (ret a).
Proof. intros p a' p' [= <- <-]. done. Qed.

Lemma preserves_bind {A B} I (m : M A) (k : A -> M B) :
  preserves I m -> (forall a, preserves I (k a)) -> preserves I (bind m k).
Proof.
  intros Hm Hk p b p' Hrun HI. unfold bind in Hrun.
  destruct (m p) as [[a p1]|] eqn:E; [|done].
  eapply Hk; [exact Hrun|]. eapply Hm; eauto.
Qed.

Lemma preserves_out_of_bounds {A} I : preserves I (@out_of_bounds _ A).
Proof. intros p a p' [=]. Qed.

Lemma preserves_get I : preserves I get.
Proof. intros p a p' [= <- <-]. done. Qed.

Lemma preserves_isConnected I : preserves I isConnected.
Proof. intros p a p' [= <- <-]. done. Qed.

Lemma preserves_sendto I d : preserves I (sendto d).
Proof. intros p a p' [= <- <-]. done. Qed.

Lemma preserves_now I : preserves I now.
Proof.
  intros p a p'. unfold now. destruct (steady_clock_now (env p)).
  intros [= <- <-]. done.
Qed.

Lemma preserves_executePacketOperation I op input c pn :
  preserves I (executePacketOperation op input c pn).
Proof.
  intros p a p'. unfold executePacketOperation.
  destruct (fpga_executePacketOperation op input c pn (env p)).
  intros [= <- <-]. done.
Qed.

Lemma preserves_modify I f : (forall h, I h -> I (f h)) -> preserves I (modify f).
Proof. intros Hf p a p' [= <- <-]. simpl. auto. Qed.

Lemma preserves_if {A} I (b : bool) (m1 m2 : M A) :
  preserves I m1 -> preserves I m2 -> preserves I (if b then m1 else m2).
Proof. by destruct b. Qed.

(** *** Guard of processIncomingPacket *)

(** C10.  A null data pointer or a length of zero makes
    [processIncomingPacket] return [false] at once: the handler object
    (counters, last activity, tracker), the datagrams handed to [sendto] and
    the environment are what they were before the call. *)
Theorem null_or_empty_packet_is_ignored data len p :
  data = None \/ len = 0 -> processIncomingPacket data len p = Some (false, p).
Proof. intros [-> | ->]; [done|]. by destruct data. Qed.

(** *** Acknowledgements *)

Lemma mark_acknowledged_idempotent n sent :
  mark_acknowledged n (mark_acknowledged n sent) = mark_acknowledged n sent.
Proof.
  induction sent as [|info rest IH]; [done|]. simpl.
  destruct (Z.eqb_spec (packetNumber info) n) as [Heq|Hne]; simpl.
  - rewrite Heq, Z.eqb_refl. done.
  - destruct (Z.eqb_spec (packetNumber info) n); [done|]. by rewrite IH.
Qed.

Lemma mark_acknowledged_numbers n sent :
  map packetNumber (mark_acknowledged n sent) = map packetNumber sent.
Proof.
  induction sent as [|info rest IH]; [done|]. simpl.
  destruct (packetNumber info =? n); simpl; [done|]. by rewrite IH.
Qed.

Lemma mark_acknowledged_length n sent :
  length (mark_acknowledged n sent) = length sent.
Proof.
  rewrite <- (length_map packetNumber), mark_acknowledged_numbers.
  apply length_map.
Qed.

Lemma process_ack_frame_twice rest p :
  exists p1, process_ack_frame rest p = Some (tt, p1)
             /\ process_ack_frame rest p1 = Some (tt, p1).
Proof.
  unfold process_ack_frame. destruct (4 <=? size rest).
  - eexists. split; [reflexivity|]. unfold modify. simpl.
    rewrite mark_acknowledged_idempotent. done.
  - by exists p.
Qed.

(** C6.  An ACK frame (type 0x02 or 0x03) is processed to the end without
    an error, and processing it again from the state it left changes
    nothing: the tracker, and the whole handler, are as after the first
    time. *)
Theorem ack_frame_idempotent ty rest p :
  ty = 2 \/ ty = 3 ->
  exists p1, processFrames (ty :: rest) p = Some (true, p1)
             /\ processFrames (ty :: rest) p1 = Some (true, p1).
Proof.
  intros Hty. destruct (process_ack_frame_twice rest p) as (p1 & H1 & H2).
  exists p1. unfold processFrames.
  assert (forall q, frames_loop (ty :: rest) (ty :: rest) q
                    = bind (process_ack_frame rest) (fun _ => ret true) q) as Hloop.
  { intros q. destruct Hty as [-> | ->]; reflexivity. }
  rewrite !Hloop. unfold bind. rewrite H1, H2. done.
Qed.

(** *** Invariants the whole engine keeps

    A property of the handler object that survives the three updates of
    the tracker (recording a packet, acknowledging one, restamping one) and
    does not look at the other members survives every call. *)

Create HintDb pres discriminated.

Ltac preserve :=
  repeat first
    [ apply preserves_ret | apply preserves_get | apply preserves_isConnected
    | apply preserves_sendto | apply preserves_now
    | apply preserves_executePacketOperation | apply preserves_out_of_bounds
    | assumption
    | solve [auto 1 with pres nocore]
    | apply preserves_bind; [|intros ?]
    | apply preserves_if
    | match goal with
      | |- preserves _ (match ?x with _ => _ end) => destruct x
      end ].

Section Invariant.
Variable I : QUICHandler -> Prop.
Hypothesis I_lastActivity : forall t h, I h -> I (set_lastActivity t h).
Hypothesis I_bytesSent : forall n h, I h -> I (set_bytesSent n h).
Hypothesis I_bytesReceived : forall n h, I h -> I (set_bytesReceived n h).
Hypothesis I_packetsSent : forall n h, I h -> I (set_packetsSent n h).
Hypothesis I_packetsReceived : forall n h, I h -> I (set_packetsReceived n h).
Hypothesis I_destConnID : forall c h, I h -> I (set_destConnID c h).
Hypothesis I_receivedPackets : forall l h, I h -> I (set_receivedPackets l h).
Hypothesis I_record : forall t d h,
  I h ->
  I (set_nextPacketNumber (u32 (m_nextPacketNumber h + 1))
       (set_sentPackets
          (m_sentPackets h ++ [mkPacketInfo (m_nextPacketNumber h) t false d]) h)).
Hypothesis I_acknowledge : forall n h,
  I h -> I (set_sentPackets (mark_acknowledged n (m_sentPackets h)) h).
Hypothesis I_restamp : forall pn t h,
  I h -> I (set_sentPackets (update_sentTime pn t (m_sentPackets h)) h).

Lemma inv_store_sent d : preserves I (store_sent d).
Proof.
  intros p a p'. unfold store_sent, bind, now, modify.
  destruct (steady_clock_now (env p)) as [t w]. intros [= <- <-]. simpl.
  apply (I_record t d).
Qed.
#[local] Hint Resolve inv_store_sent : pres.

Lemma inv_send_and_count d : preserves I (send_and_count d).
Proof. unfold send_and_count. preserve; apply preserves_modify; auto. Qed.
#[local] Hint Resolve inv_send_and_count : pres.

Lemma inv_updateActivity : preserves I updateActivity.
Proof. unfold updateActivity. preserve. apply preserves_modify; auto. Qed.
#[local] Hint Resolve inv_updateActivity : pres.

Lemma inv_push_received pn : preserves I (push_received pn).
Proof. apply preserves_modify; auto. Qed.
#[local] Hint Resolve inv_push_received : pres.

Lemma inv_update_sentTime pn t :
  preserves I (modify (fun h => set_sentPackets (update_sentTime pn t (m_sentPackets h)) h)).
Proof. apply preserves_modify; auto. Qed.
#[local] Hint Resolve inv_update_sentTime : pres.

Lemma inv_process_ack_frame rest : preserves I (process_ack_frame rest).
Proof. unfold process_ack_frame. preserve. apply preserves_modify; auto. Qed.
#[local] Hint Resolve inv_process_ack_frame : pres.

Lemma inv_send_framed_by_fpga payload : preserves I (send_framed_by_fpga payload).
Proof. unfold send_framed_by_fpga. preserve. Qed.
#[local] Hint Resolve inv_send_framed_by_fpga : pres.

Lemma inv_sendPacket ty payload : preserves I (sendPacket ty payload).
Proof. unfold sendPacket. preserve. Qed.
#[local] Hint Resolve inv_sendPacket : pres.

Lemma inv_frames_loop payload rest : preserves I (frames_loop payload rest).
Proof. induction rest as [|frameType rest IH]; simpl; preserve. Qed.
#[local] Hint Resolve inv_frames_loop : pres.

Lemma inv_sendAckPacket pns : preserves I (sendAckPacket pns).
Proof. unfold sendAckPacket. preserve. Qed.
#[local] Hint Resolve inv_sendAckPacket : pres.

Lemma inv_dispatch header payload : preserves I (dispatch header payload).
Proof.
  unfold dispatch, handleInitialPacket, handleHandshakePacket, handleOneRttPacket,
    processFrames.
  preserve.
Qed.
#[local] Hint Resolve inv_dispatch : pres.

Lemma inv_retransmit_one t info : preserves I (retransmit_one t info).
Proof. unfold retransmit_one. preserve. Qed.
#[local] Hint Resolve inv_retransmit_one : pres.

Lemma inv_retransmit_all t infos : preserves I (retransmit_all t infos).
Proof. induction infos as [|info rest IH]; simpl; preserve. Qed.
#[local] Hint Resolve inv_retransmit_all : pres.

Lemma inv_checkForRetransmissions : preserves I checkForRetransmissions.
Proof. unfold checkForRetransmissions. preserve. Qed.
#[local] Hint Resolve inv_checkForRetransmissions : pres.

Lemma inv_processIncomingPacket data len : preserves I (processIncomingPacket data len).
Proof.
  unfold processIncomingPacket. preserve;
    apply preserves_modify; intros h Hh; try destruct (size (m_destConnID h) =? 0);
    auto.
Qed.

End Invariant.

(** *** The numbering of recorded packets *)

Lemma u32_succ n : u32 (u32 (Z.of_nat n) + 1) = u32 (Z.of_nat (S n)).
Proof. unfold u32. rewrite Zplus_mod_idemp_l. f_equal. lia. Qed.

Lemma update_sentTime_numbers pn t sent :
  map packetNumber (update_sentTime pn t sent) = map packetNumber sent.
Proof.
  induction sent as [|info rest IH]; [done|]. simpl.
  destruct (packetNumber info =? pn); simpl; [done|]. by rewrite IH.
Qed.

Lemma update_sentTime_length pn t sent :
  length (update_sentTime pn t sent) = length sent.
Proof.
  rewrite <- (length_map packetNumber), update_sentTime_numbers.
  apply length_map.
Qed.

Lemma numbered_processIncomingPacket data len :
  preserves numbered (processIncomingPacket data len).
Proof.
  apply inv_processIncomingPacket; try done; unfold numbered, sent_numbers; simpl.
  - intros t d h [Hnum Hnext]. split.
    + rewrite map_app, Hnum, length_app, Nat.add_1_r, seq_S, map_app. simpl.
      by rewrite Hnext.
    + rewrite Hnext, length_app, Nat.add_1_r. apply u32_succ.
  - intros n h. by rewrite mark_acknowledged_numbers, mark_acknowledged_length.
  - intros pn t h. by rewrite update_sentTime_numbers, update_sentTime_length.
Qed.

(** Every state of a connection's life has its tracker numbered
    0, 1, 2, ... modulo 2^32 in the order of recording. *)
Lemma reachable_numbered p : reachable p -> numbered (self p).
Proof.
  induction 1 as [accel connID w _ _|p data len r p' _ IH _ Hrun
                 |p enabled r p' _ IH Hrun|p w _ IH].
  - unfold construct. destruct (steady_clock_now w). by split.
  - eapply numbered_processIncomingPacket; eauto.
  - injection Hrun as _ <-. exact IH.
  - exact IH.
Qed.

(** The tracker never shrinks. *)
Lemma tracker_keeps_length data len n :
  preserves (fun h => (n <= length (m_sentPackets h))%nat) (processIncomingPacket data len).
Proof.
  apply inv_processIncomingPacket; try done; simpl.
  - intros t d h Hn. rewrite length_app. lia.
  - intros k h. by rewrite mark_acknowledged_length.
  - intros pn t h. by rewrite update_sentTime_length.
Qed.

(** The numbers recorded before a call are a prefix of those recorded
    after it: the tracker holds the whole sequence of recorded numbers. *)
Lemma tracker_is_a_log p data len r p' :
  reachable p -> 0 <= len -> processIncomingPacket data len p = Some (r, p') ->
  sent_numbers (self p) `prefix_of` sent_numbers (self p').
Proof.
  intros Hr Hlen Hrun.
  destruct (reachable_numbered p Hr) as [Hp _].
  destruct (reachable_numbered p' (reach_packet p data len r p' Hr Hlen Hrun)) as [Hp' _].
  pose proof (tracker_keeps_length data len _ p r p' Hrun (le_n _)) as Hgrow.
  simpl in Hgrow. rewrite Hp, Hp'.
  set (n := length (m_sentPackets (self p))) in *.
  set (n' := length (m_sentPackets (self p'))) in *.
  exists (map (fun k => u32 (Z.of_nat k)) (seq n (n' - n))).
  rewrite <- map_app, <- seq_app. do 2 f_equal. lia.
Qed.

Lemma count_up_ascending start n :
  Z.of_nat (start + n) <= 4294967296 ->
  ascending (map (fun k => u32 (Z.of_nat k)) (seq start n)).
Proof.
  revert start. induction n as [|n IH]; intros start Hle; simpl; constructor.
  - apply IH. lia.
  - apply List.Forall_forall. intros y Hy.
    apply in_map_iff in Hy as (k & <- & Hk%in_seq).
    unfold u32. rewrite !Z.mod_small by lia. lia.
Qed.

Lemma numbers_ascend p :
  reachable p ->
  size (m_sentPackets (self p)) <= 4294967296 ->
  ascending (sent_numbers (self p)).
Proof.
  intros Hr Hle. destruct (reachable_numbered p Hr) as [-> _].
  apply count_up_ascending. unfold size in Hle. lia.
Qed.

(** C3, amended.  In every state of a connection's life in which at most
    2^32 packets have been recorded, the packet numbers in the tracker, read
    in the order of recording, are strictly increasing. *)
Theorem packet_numbers_ascend_until_wrap p :
  reachable p ->
  size (m_sentPackets (self p)) <= 4294967296 ->
  ascending (sent_numbers (self p)).
Proof. apply numbers_ascend. Qed.

(** *** The software path, step by step *)

Lemma send_framed_disconnected payload p :
  fpga_isConnected (env p) = false -> send_framed_by_fpga payload p = Some (false, p).
Proof.
  intros Hc. unfold send_framed_by_fpga, bind, get, isConnected.
  rewrite Hc, andb_false_r. done.
Qed.

Lemma sendPacket_software ty b0 payload d p :
  fpga_isConnected (env p) = false ->
  first_byte ty = Some b0 ->
  software_packet ty b0 payload (self p) = Some d ->
  sendPacket ty payload p = Some (true, sent_in_software d p).
Proof.
  intros Hc Hb Hd. unfold sendPacket, bind.
  rewrite send_framed_disconnected by done. rewrite Hb. unfold get. rewrite Hd.
  unfold send_and_count, store_sent, bind, sendto, modify, now, sent_in_software. simpl.
  destruct (steady_clock_now (env p)). done.
Qed.

Lemma nothing_due t sent :
  Forall (fun info => to_milliseconds (t - sentTime info) <= RETRANSMIT_TIMEOUT_MS) sent ->
  packetsToRetransmit t sent = [].
Proof.
  induction 1 as [|info rest Hi _ IH]; [done|].
  unfold packetsToRetransmit in *. simpl. rewrite IH.
  unfold needs_retransmission.
  destruct (Z.ltb_spec RETRANSMIT_TIMEOUT_MS (to_milliseconds (t - sentTime info))); [lia|].
  by rewrite andb_false_r.
Qed.

Notation "'exec' m ;; k" := (bind m (fun _ => k))
  (at level 100, m at next level, right associativity).

Lemma processIncomingPacket_parsed d len header payload :
  len <> 0 -> parsePacket d len = Some (header, payload) ->
  processIncomingPacket (Some d) len
  = (exec updateActivity ;;
     exec modify (fun h => set_bytesReceived (u64 (m_bytesReceived h + len)) h) ;;
     exec modify (fun h => set_packetsReceived (u64 (m_packetsReceived h + 1)) h) ;;
     exec modify (fun h =>
       if size (m_destConnID h) =? 0 then set_destConnID (destConnID header) h else h) ;;
     result <- dispatch header payload ;;
     exec checkForRetransmissions ;;
     ret result).
Proof.
  intros Hlen Hparse. unfold processIncomingPacket.
  destruct (Z.eqb_spec len 0); [done|]. by rewrite Hparse.
Qed.

Lemma checkForRetransmissions_idle p :
  (let (t, _) := steady_clock_now (env p) in
   packetsToRetransmit t (m_sentPackets (self p)) = []) ->
  checkForRetransmissions p
  = Some (tt, mkProcess (self p) (udp_out p) (snd (steady_clock_now (env p)))).
Proof.
  unfold checkForRetransmissions, bind, now, get.
  destruct (steady_clock_now (env p)) as [t w]. simpl. by intros ->.
Qed.

(** *** The retransmission pass *)

Lemma scan_is_sublist t sent : sublist (packetsToRetransmit t sent) sent.
Proof.
  unfold packetsToRetransmit. induction sent as [|info rest IH]; simpl.
  - constructor.
  - destruct (needs_retransmission t info); by constructor.
Qed.

Lemma sublist_numbers (l1 l2 : list PacketInfo) :
  sublist l1 l2 -> sublist (map packetNumber l1) (map packetNumber l2).
Proof. induction 1; simpl; by constructor. Qed.

Lemma Forall_of_sublist {A} (P : A -> Prop) (l1 l2 : list A) :
  sublist l1 l2 -> Forall P l2 -> Forall P l1.
Proof.
  induction 1 as [|x l1 l2 _ IH|x l1 l2 _ IH]; intros Hall.
  - constructor.
  - inversion Hall; subst. constructor; auto.
  - inversion Hall; subst. auto.
Qed.

Lemma ascending_sublist l1 l2 : sublist l1 l2 -> ascending l2 -> ascending l1.
Proof.
  unfold ascending. intros Hsub. induction Hsub as [|x l1 l2 Hsub IH|x l1 l2 Hsub IH];
    intros Hs.
  - constructor.
  - apply StronglySorted_inv in Hs as [Hs Hx]. constructor; [by apply IH|].
    eapply Forall_of_sublist; eauto.
  - apply StronglySorted_inv in Hs as [Hs _]. by apply IH.
Qed.

Lemma retransmit_one_wire t info p :
  exists p' d,
    retransmit_one t info p = Some (tt, p')
    /\ udp_out p' = udp_out p ++ [d]
    /\ retransmission_of (m_connectionID (self p)) d info
    /\ m_connectionID (self p') = m_connectionID (self p).
Proof.
  unfold retransmit_one, bind, get, isConnected.
  destruct (m_accelerationEnabled (self p) && fpga_isConnected (env p)).
  - unfold executePacketOperation.
    destruct (fpga_executePacketOperation PACKET_RETRANSMISSION [] (m_connectionID (self p))
                (packetNumber info) (env p)) as [result w] eqn:E.
    destruct (success result && negb (size (data result) =? 0)).
    + eexists _, (data result). split; [reflexivity|]. simpl.
      split; [done|]. split; [|done].
      right. exists (env p). by rewrite E.
    + eexists _, (packetData info). split; [reflexivity|]. simpl.
      split; [done|]. split; [by left|done].
  - eexists _, (packetData info). split; [reflexivity|]. simpl.
    split; [done|]. split; [by left|done].
Qed.

Lemma retransmit_all_wire t infos p :
  exists p' ds,
    retransmit_all t infos p = Some (tt, p')
    /\ udp_out p' = udp_out p ++ ds
    /\ Forall2 (retransmission_of (m_connectionID (self p))) ds infos.
Proof.
  revert p. induction infos as [|info rest IH]; intros p; simpl.
  - exists p, []. split; [done|]. split; [by rewrite app_nil_r|constructor].
  - destruct (retransmit_one_wire t info p) as (p1 & d & Hrun & Hout & Hd & Hcid).
    destruct (IH p1) as (p' & ds & Hrun' & Hout' & Hds).
    exists p', (d :: ds). unfold bind. rewrite Hrun. split; [done|].
    split; [by rewrite Hout', Hout, <- app_assoc|].
    constructor; [done|]. by rewrite <- Hcid.
Qed.

(** C9, amended.  In every state of a connection's life the pass selects
    the timed-out unacknowledged packets in the order the tracker holds
    them, which is the order they were first sent in, and puts one datagram
    on the wire for each of them in that order; as long as at most 2^32
    packets have been recorded, that is the order of strictly increasing
    packet numbers. *)
Theorem retransmissions_keep_send_order p :
  reachable p ->
  let t := fst (steady_clock_now (env p)) in
  let selected := packetsToRetransmit t (m_sentPackets (self p)) in
  sublist selected (m_sentPackets (self p))
  /\ (size (m_sentPackets (self p)) <= 4294967296 ->
      ascending (map packetNumber selected))
  /\ exists p' ds,
       checkForRetransmissions p = Some (tt, p')
       /\ udp_out p' = udp_out p ++ ds
       /\ Forall2 (retransmission_of (m_connectionID (self p))) ds selected.
Proof.
  intros Hr t selected. split; [apply scan_is_sublist|]. split.
  - intros Hle. eapply ascending_sublist.
    + apply sublist_numbers, scan_is_sublist.
    + by apply numbers_ascend.
  - unfold checkForRetransmissions, bind, now, get. subst t selected.
    destruct (steady_clock_now (env p)) as [t w]. simpl.
    apply (retransmit_all_wire t _ (mkProcess (self p) (udp_out p) w)).
Qed.
(** *** Framing and parsing *)

Lemma testbit_255 n : Z.testbit 255 n = (0 <=? n) && (n <? 8).
Proof.
  destruct (Z.leb_spec 0 n); [|by rewrite Z.testbit_neg_r by lia].
  change 255 with (Z.ones 8). destruct (Z.ltb_spec n 8).
  - by rewrite Z.ones_spec_low by lia.
  - by rewrite Z.ones_spec_high by lia.
Qed.

Lemma testbit_u32_range x n : 0 <= x < 4294967296 -> 32 <= n -> Z.testbit x n = false.
Proof.
  intros Hx Hn. destruct (Z.eq_dec x 0) as [->|]; [apply Z.bits_0|].
  apply Z.bits_above_log2; [lia|].
  assert (Z.log2 x < 32); [|lia]. apply Z.log2_lt_pow2; lia.
Qed.

Lemma testbit_byte_of x k m :
  0 <= k -> 0 <= m ->
  Z.testbit (Z.shiftl (byte_of x k) k) m = Z.testbit x m && (k <=? m) && (m <? k + 8).
Proof.
  intros Hk Hm. unfold byte_of. rewrite Z.shiftl_spec, Z.land_spec, testbit_255 by lia.
  destruct (Z.leb_spec k m).
  - rewrite Z.shiftr_spec by lia. replace (m - k + k) with m by lia.
    rewrite (proj2 (Z.leb_le 0 (m - k))) by lia.
    destruct (Z.testbit x m), (Z.ltb_spec (m - k) 8), (Z.ltb_spec m (k + 8));
      simpl; try done; lia.
  - rewrite (proj2 (Z.leb_gt 0 (m - k))) by lia. simpl. by rewrite !andb_false_r.
Qed.

(** The four bytes [sendPacket] writes for a 32-bit number are read back
    by the big-endian read of [parsePacket] and [processFrames]. *)
Lemma be32_of_bytes x front rest :
  0 <= x < 4294967296 ->
  be32 (front ++ be32_bytes x ++ rest) (size front) = x.
Proof.
  intros Hx. unfold be32, at_, size.
  replace (Z.to_nat (Z.of_nat (length front))) with (length front + 0)%nat by lia.
  replace (Z.to_nat (Z.of_nat (length front) + 1)) with (length front + 1)%nat by lia.
  replace (Z.to_nat (Z.of_nat (length front) + 2)) with (length front + 2)%nat by lia.
  replace (Z.to_nat (Z.of_nat (length front) + 3)) with (length front + 3)%nat by lia.
  rewrite !app_nth2_plus. cbn [be32_bytes nth app].
  assert (Z.lor (Z.lor (Z.lor (Z.shiftl (byte_of x 24) 24) (Z.shiftl (byte_of x 16) 16))
                       (Z.shiftl (byte_of x 8) 8)) (byte_of x 0) = x) as ->;
    [|unfold u32; apply Z.mod_small; lia].
  rewrite <- (Z.shiftl_0_r (byte_of x 0)).
  apply Z.bits_inj'. intros n Hn.
  rewrite !Z.lor_spec, !testbit_byte_of by lia.
  destruct (Z.ltb_spec n 32).
  - destruct (Z.testbit x n); [|done]. simpl.
    destruct (Z.leb_spec 24 n), (Z.leb_spec 16 n), (Z.leb_spec 8 n), (Z.leb_spec 0 n),
      (Z.ltb_spec n (24 + 8)), (Z.ltb_spec n (16 + 8)), (Z.ltb_spec n (8 + 8)),
      (Z.ltb_spec n (0 + 8)); simpl; try done; lia.
  - rewrite testbit_u32_range by lia. done.
Qed.

Lemma send_framed_off payload p :
  m_accelerationEnabled (self p) && fpga_isConnected (env p) = false ->
  send_framed_by_fpga payload p = Some (false, p).
Proof.
  intros Hoff. unfold send_framed_by_fpga, bind, get, isConnected. by rewrite Hoff.
Qed.

Lemma sendPacket_off ty b0 payload d p :
  m_accelerationEnabled (self p) && fpga_isConnected (env p) = false ->
  first_byte ty = Some b0 ->
  software_packet ty b0 payload (self p) = Some d ->
  sendPacket ty payload p = Some (true, sent_in_software d p).
Proof.
  intros Hoff Hb Hd. unfold sendPacket, bind.
  rewrite send_framed_off by done. rewrite Hb. unfold get. rewrite Hd.
  unfold send_and_count, store_sent, bind, sendto, modify, now, sent_in_software. simpl.
  destruct (steady_clock_now (env p)). done.
Qed.

Lemma next_number_range p :
  reachable p -> 0 <= m_nextPacketNumber (self p) < 4294967296.
Proof.
  intros Hr. destruct (reachable_numbered p Hr) as [_ ->]. unfold u32.
  apply Z.mod_pos_bound. lia.
Qed.

Lemma udp_out_sent_in_software d p :
  udp_out (sent_in_software d p) = udp_out p ++ [d].
Proof. unfold sent_in_software. by destruct (steady_clock_now (env p)). Qed.

Lemma parse_short_frame dcid pn payload :
  length dcid = 8%nat -> 0 <= pn < 4294967296 ->
  let d := [64] ++ dcid ++ be32_bytes pn ++ payload in
  parsePacket d (size d) = Some (mkHeader ONE_RTT 0 dcid [] [] (size payload) pn, payload).
Proof.
  intros Hlen Hpn d.
  assert (size d = 13 + size payload) as Hsize.
  { unfold d, size. rewrite !length_app, Hlen. simpl. lia. }
  pose proof (be32_of_bytes pn ([64] ++ dcid) payload Hpn) as Hread.
  replace (size ([64] ++ dcid)) with 9 in Hread
    by (unfold size; rewrite length_app, Hlen; done).
  rewrite <- app_assoc in Hread. fold d in Hread.
  assert (0 <= size payload) as Hp by (unfold size; lia).
  unfold parsePacket. rewrite Hsize.
  destruct (Z.ltb_spec (13 + size payload) 4); [lia|].
  change (at_ d 0) with 64. cbn [Z.land Pos.land negb Z.eqb].
  cbv zeta.
  destruct (Z.ltb_spec (13 + size payload) (1 + 8)); [lia|].
  destruct (Z.ltb_spec (13 + size payload) (1 + 8 + 4)); [lia|].
  change (1 + 8 + 4) with 13. change (1 + 8) with 9. rewrite Hread.
  do 2 f_equal.
  - f_equal; [|lia]. unfold slice, d. change (Z.to_nat (9 - 1)) with 8%nat.
    change (Z.to_nat 1) with 1%nat. cbn [app drop]. by apply take_app_length'.
  - unfold payload_from. destruct (Z.ltb_spec 13 (13 + size payload)).
    + unfold slice, d. replace (Z.to_nat (13 + size payload - 13)) with (length payload)
        by (unfold size; lia).
      change (Z.to_nat 13) with 13%nat. cbn [app].
      change (be32_bytes pn ++ payload) with
        ([byte_of pn 24; byte_of pn 16; byte_of pn 8; byte_of pn 0] ++ payload).
      rewrite (app_assoc dcid). cbn [drop].
      rewrite drop_app_length' by (rewrite length_app, Hlen; done).
      by rewrite firstn_all.
    + destruct payload; [done|]. unfold size in *. simpl in *. lia.
Qed.

(** X4.  A 1-RTT packet framed in software is read back by [parsePacket] with
    its connection ID, its packet number and its payload. *)
Theorem short_header_round_trip payload p :
  reachable p ->
  m_accelerationEnabled (self p) && fpga_isConnected (env p) = false ->
  size (m_destConnID (self p)) = 8 ->
  exists d p',
    sendPacket ONE_RTT payload p = Some (true, p')
    /\ udp_out p' = udp_out p ++ [d]
    /\ parsePacket d (size d)
       = Some (mkHeader ONE_RTT 0 (m_destConnID (self p)) [] [] (size payload)
                 (m_nextPacketNumber (self p)), payload).
Proof.
  intros Hr Hoff Hcid.
  assert (length (m_destConnID (self p)) = 8%nat) as Hlen by (unfold size in Hcid; lia).
  exists ([64] ++ m_destConnID (self p) ++ be32_bytes (m_nextPacketNumber (self p)) ++ payload).
  eexists. split; [|split].
  - apply (sendPacket_off ONE_RTT 64); [done|done|].
    unfold software_packet. cbn [is_ONE_RTT].
    replace (64 <? size _) with false; [by rewrite <- !app_assoc|].
    symmetry. apply Z.ltb_ge. unfold size. rewrite !length_app, Hlen. simpl. lia.
  - apply udp_out_sent_in_software.
  - apply parse_short_frame; [done|]. by apply next_number_range.
Qed.

(** *** What an acknowledgement does to the tracker *)

Lemma processFrames_ack_frame n p :
  0 <= n < 4294967296 ->
  processFrames (ack_frame n) p
  = Some (true,
          mkProcess (set_sentPackets (mark_acknowledged n (m_sentPackets (self p))) (self p))
            (udp_out p) (env p)).
Proof.
  intros Hn. pose proof (be32_of_bytes n [] [0; 0; 0; 0] Hn) as Hread.
  unfold processFrames, ack_frame. cbn [app frames_loop Z.eqb orb].
  unfold process_ack_frame, bind, modify, ret. cbn [app] in Hread.
  change (size []) with 0 in Hread. change (be32_bytes n ++ [0; 0; 0; 0])
    with (byte_of n 24 :: byte_of n 16 :: byte_of n 8 :: byte_of n 0 :: [0; 0; 0; 0])
    in Hread.
  cbn [be32_bytes app]. rewrite Hread. done.
Qed.

Lemma ascending_NoDup l : ascending l -> NoDup l.
Proof.
  unfold ascending. induction 1 as [|x l _ IH Hx]; constructor; [|done].
  intros Hin. rewrite List.Forall_forall in Hx.
  apply list_elem_of_In in Hin. specialize (Hx x Hin). lia.
Qed.

(** With distinct numbers in the tracker, every entry that carries the
    acknowledged number is marked. *)
Lemma mark_acknowledged_marks n sent info :
  NoDup (map packetNumber sent) ->
  info ∈ mark_acknowledged n sent -> packetNumber info = n -> acknowledged info = true.
Proof.
  induction sent as [|first rest IH]; simpl; [by intros _ ?%elem_of_nil|].
  intros [Hfirst Hrest]%NoDup_cons.
  destruct (Z.eqb_spec (packetNumber first) n) as [Heq|Hne].
  - intros [->|Hin]%elem_of_cons; [done|]. intros Hn. exfalso. apply Hfirst.
    rewrite Heq, <- Hn. by apply list_elem_of_fmap_2.
  - intros [->|Hin]%elem_of_cons; [done|]. by apply IH.
Qed.

Lemma scan_unacknowledged t sent info :
  info ∈ packetsToRetransmit t sent -> info ∈ sent /\ acknowledged info = false.
Proof.
  unfold packetsToRetransmit. rewrite list_elem_of_In, filter_In, <- list_elem_of_In.
  intros [Hin Hneeds]. split; [done|]. unfold needs_retransmission in Hneeds.
  apply andb_true_iff in Hneeds as [Hack _]. by destruct (acknowledged info).
Qed.

(** X5.  An ACK frame as [sendAckPacket] builds it for the number [n] marks
    the packet [n] in the tracker of the handler that receives it, sends
    nothing, and no retransmission pass selects that packet afterwards. *)
Theorem acknowledged_packet_is_not_retransmitted n p :
  reachable p ->
  size (m_sentPackets (self p)) <= 4294967296 ->
  0 <= n < 4294967296 ->
  exists p1,
    processFrames (ack_frame n) p = Some (true, p1)
    /\ udp_out p1 = udp_out p
    /\ sent_numbers (self p1) = sent_numbers (self p)
    /\ forall t info,
         info ∈ packetsToRetransmit t (m_sentPackets (self p1)) -> packetNumber info <> n.
Proof.
  intros Hr Hsize Hn. eexists. split; [by apply processFrames_ack_frame|].
  cbn [udp_out self]. split; [done|]. split.
  { unfold sent_numbers. simpl. apply mark_acknowledged_numbers. }
  intros t info [Hin Hack]%scan_unacknowledged Hnum. simpl in Hin.
  rewrite (mark_acknowledged_marks n (m_sentPackets (self p)) info) in Hack; try done.
  apply ascending_NoDup. by apply numbers_ascend.
Qed.

(** *** The tracker keeps what it has recorded *)


(** *** The tracker keeps what it has recorded *)

Lemma mark_acknowledged_lookup n sent i info :
  sent !! i = Some info ->
  exists info', mark_acknowledged n sent !! i = Some info' /\ same_packet info info'.
Proof.
  revert i. induction sent as [|first rest IH]; intros i; [done|]. simpl.
  destruct (packetNumber first =? n).
  - destruct i as [|i]; simpl.
    + intros [= <-]. eexists. split; [done|]. by repeat split.
    + intros Hi. exists info. split; [done|]. by repeat split.
  - destruct i as [|i]; simpl.
    + intros [= <-]. exists first. split; [done|]. by repeat split.
    + apply IH.
Qed.

Lemma update_sentTime_lookup pn t sent i info :
  sent !! i = Some info ->
  exists info', update_sentTime pn t sent !! i = Some info' /\ same_packet info info'.
Proof.
  revert i. induction sent as [|first rest IH]; intros i; [done|]. simpl.
  destruct (packetNumber first =? pn).
  - destruct i as [|i]; simpl.
    + intros [= <-]. eexists. split; [done|]. by repeat split.
    + intros Hi. exists info. split; [done|]. by repeat split.
  - destruct i as [|i]; simpl.
    + intros [= <-]. exists first. split; [done|]. by repeat split.
    + apply IH.
Qed.

Lemma same_packet_trans a b c : same_packet a b -> same_packet b c -> same_packet a c.
Proof.
  intros (Hn & Hd & Ha) (Hn' & Hd' & Ha'). repeat split; [congruence..|auto].
Qed.

Lemma entry_persists i info data len :
  preserves (fun h => exists info', m_sentPackets h !! i = Some info' /\ same_packet info info')
    (processIncomingPacket data len).
Proof.
  apply inv_processIncomingPacket; try done; simpl.
  - intros t d h (info' & Hi & Hsame). exists info'. split; [|done].
    by apply lookup_app_l_Some.
  - intros n h (info' & Hi & Hsame).
    destruct (mark_acknowledged_lookup n _ i info' Hi) as (info'' & Hi' & Hsame').
    exists info''. split; [done|]. by eapply same_packet_trans.
  - intros pn t h (info' & Hi & Hsame).
    destruct (update_sentTime_lookup pn t _ i info' Hi) as (info'' & Hi' & Hsame').
    exists info''. split; [done|]. by eapply same_packet_trans.
Qed.

(** X6.  No call removes or moves an entry of the tracker: what was recorded
    at a position stays there with its packet number and its bytes, and an
    acknowledged packet stays acknowledged. *)
Theorem tracker_entries_persist data len p r p' i info :
  processIncomingPacket data len p = Some (r, p') ->
  m_sentPackets (self p) !! i = Some info ->
  exists info', m_sentPackets (self p') !! i = Some info' /\ same_packet info info'.
Proof.
  intros Hrun Hi. eapply (entry_persists i info); [exact Hrun|].
  exists info. split; [done|]. by repeat split.
Qed.

(** *** What every datagram does *)

Lemma arrival_is_recorded d len p r p' :
  len <> 0 ->
  processIncomingPacket (Some d) len p = Some (r, p') ->
  m_lastActivity (self p') = fst (steady_clock_now (env p))
  /\ m_bytesReceived (self p') = u64 (m_bytesReceived (self p) + len)
  /\ m_packetsReceived (self p') = u64 (m_packetsReceived (self p) + 1).
Proof.
  intros Hlen. unfold processIncomingPacket.
  destruct (Z.eqb_spec len 0); [done|].
  unfold updateActivity. unfold bind at 1 2 3 4, now, modify.
  destruct (steady_clock_now (env p)) as [t w]. cbn [self udp_out env fst].
  set (I := fun h => m_lastActivity h = t
                     /\ m_bytesReceived h = u64 (m_bytesReceived (self p) + len)
                     /\ m_packetsReceived h = u64 (m_packetsReceived (self p) + 1)).
  intros Hrun.
  assert (preserves I
            (match parsePacket d len with
             | Some (header, payload) =>
                 exec modify (fun h =>
                   if size (m_destConnID h) =? 0
                   then set_destConnID (destConnID header) h else h) ;;
                 result <- dispatch header payload ;;
                 exec checkForRetransmissions ;; ret result
             | None => ret false
             end)) as Hkeeps.
  { destruct (parsePacket d len) as [[header payload]|]; [|apply preserves_ret].
    apply preserves_bind; [|intros _; apply preserves_bind; [|intros result;
      apply preserves_bind; [|intros _; apply preserves_ret]]].
    - apply preserves_modify. intros h Hh. by destruct (size (m_destConnID h) =? 0).
    - by apply inv_dispatch.
    - by apply inv_checkForRetransmissions. }
  apply (Hkeeps _ _ _ Hrun). by repeat split.
Qed.

(** X7.  Every datagram that is neither null nor empty, whether it parses or
    not and whatever the answer to it, is counted once, with the length
    given for it. *)
Theorem every_datagram_is_counted d len p r p' :
  len <> 0 ->
  processIncomingPacket (Some d) len p = Some (r, p') ->
  m_bytesReceived (self p') = u64 (m_bytesReceived (self p) + len)
  /\ m_packetsReceived (self p') = u64 (m_packetsReceived (self p) + 1).
Proof. intros Hlen Hrun. by destruct (arrival_is_recorded d len p r p' Hlen Hrun) as [_ ?]. Qed.

Lemma unparsable_is_only_counted d len p :
  len <> 0 -> parsePacket d len = None ->
  processIncomingPacket (Some d) len p
  = Some (false,
          mkProcess
            (set_packetsReceived (u64 (m_packetsReceived (self p) + 1))
               (set_bytesReceived (u64 (m_bytesReceived (self p) + len))
                  (set_lastActivity (fst (steady_clock_now (env p))) (self p))))
            (udp_out p) (snd (steady_clock_now (env p)))).
Proof.
  intros Hlen Hparse. unfold processIncomingPacket.
  destruct (Z.eqb_spec len 0); [done|]. rewrite Hparse.
  unfold updateActivity, bind, now, modify, ret.
  by destruct (steady_clock_now (env p)) as [t w].
Qed.

Lemma at_is_byte d i : Forall is_byte d -> 0 <= at_ d i < 256.
Proof.
  intros Hd. unfold at_. destruct (nth_in_or_default (Z.to_nat i) d 0) as [Hin| ->]; [|lia].
  rewrite List.Forall_forall in Hd. by apply Hd.
Qed.

(** [parsePacket] accepts no datagram of fewer than twelve bytes. *)
Lemma parsePacket_needs_12 d len :
  Forall is_byte d -> len < 12 -> parsePacket d len = None.
Proof.
  intros Hd Hlen. pose proof (at_is_byte d 5 Hd) as H5.
  unfold parsePacket, parse_long_tail. cbv zeta.
  change (1 + 4 + 1) with 6. change (1 + 4) with 5.
  pose proof (at_is_byte d (6 + at_ d 5) Hd) as Hs.
  set (a := at_ d 5) in *. set (b := at_ d (6 + a)) in *.
  pose proof (at_is_byte d (6 + a + 1 + b) Hd) as Ht.
  set (c := at_ d (6 + a + 1 + b)) in *.
  repeat match goal with
         | |- context [?x <? ?y] => destruct (Z.ltb_spec x y); try lia; try done
         | |- context [if ?x then _ else _] => destruct x; try done
         end.
Qed.

(** X8.  A datagram of fewer than twelve bytes is counted and refreshes the
    idle timer, and that is all: the call returns [false], nothing is sent
    and the tracker is not scanned for retransmissions. *)
Theorem runt_datagram_is_only_counted d len p :
  Forall is_byte d -> 0 < len < 12 ->
  processIncomingPacket (Some d) len p
  = Some (false,
          mkProcess
            (set_packetsReceived (u64 (m_packetsReceived (self p) + 1))
               (set_bytesReceived (u64 (m_bytesReceived (self p) + len))
                  (set_lastActivity (fst (steady_clock_now (env p))) (self p))))
            (udp_out p) (snd (steady_clock_now (env p)))).
Proof.
  intros Hd Hlen. apply unparsable_is_only_counted; [lia|].
  apply parsePacket_needs_12; [done|lia].
Qed.

(** *** The parser stays inside the datagram *)

Section Agree.
Variables (d d' : list Z) (len : Z).
Hypothesis Hagree : take (Z.to_nat len) d = take (Z.to_nat len) d'.

Lemma agree_at i : 0 <= i < len -> at_ d' i = at_ d i.
Proof.
  intros Hi. unfold at_. rewrite !nth_lookup.
  rewrite <- (lookup_take_lt d (Z.to_nat len)), <- (lookup_take_lt d' (Z.to_nat len)) by lia.
  by rewrite Hagree.
Qed.

Lemma agree_be32 o : 0 <= o -> o + 4 <= len -> be32 d' o = be32 d o.
Proof. intros Ho Hlen. unfold be32. by rewrite !agree_at by lia. Qed.

Lemma agree_slice a b : 0 <= a -> b <= len -> slice d' a b = slice d a b.
Proof.
  intros Ha Hb. unfold slice.
  destruct (Z.le_gt_cases b a) as [Hle|Hlt].
  { replace (Z.to_nat (b - a)) with 0%nat by lia. done. }
  rewrite !take_drop_commute. f_equal.
  replace (Z.to_nat a + Z.to_nat (b - a))%nat
    with ((Z.to_nat a + Z.to_nat (b - a)) `min` Z.to_nat len)%nat by lia.
  rewrite <- !take_take. by rewrite Hagree.
Qed.

Lemma agree_payload o : 0 <= o -> payload_from d' o len = payload_from d o len.
Proof.
  intros Ho. unfold payload_from. destruct (o <? len); [|done].
  apply agree_slice; lia.
Qed.

End Agree.

(** X9.  [parsePacket] reads no byte at or behind the length it is given: two
    buffers that agree on their first [len] bytes are parsed alike, whatever
    lies behind. *)
Theorem parsePacket_reads_within_length d d' len :
  Forall is_byte d ->
  take (Z.to_nat len) d = take (Z.to_nat len) d' ->
  parsePacket d' len = parsePacket d len.
Proof.
  intros Hd Hagree.
  pose proof (agree_at d d' len Hagree) as Hat.
  pose proof (agree_be32 d d' len Hagree) as Hbe.
  pose proof (agree_slice d d' len Hagree) as Hsl.
  pose proof (agree_payload d d' len Hagree) as Hpl.
  unfold parsePacket, parse_long_tail. cbv zeta.
  repeat first
    [ match goal with
      | |- context [at_ d' ?i] =>
          rewrite (Hat i) by lia; pose proof (at_is_byte d i Hd)
      | |- context [be32 d' ?o] => rewrite (Hbe o) by lia
      | |- context [slice d' ?a ?b] => rewrite (Hsl a b) by lia
      | |- context [payload_from d' ?o len] => rewrite (Hpl o) by lia
      end
    | done
    | match goal with
      | |- (if ?x then _ else _) = _ =>
          match x with
          | ?a <? ?b => destruct (Z.ltb_spec a b)
          | _ => destruct x eqn:?
          end
      | |- match (if ?x then _ else _) with _ => _ end = _ =>
          match x with
          | ?a <? ?b => destruct (Z.ltb_spec a b)
          | _ => destruct x eqn:?
          end
      end ].
Qed.

(** *** Long headers: what is written and what is read *)

Lemma at_app l1 l2 i : 0 <= i -> at_ (l1 ++ l2) (size l1 + i) = at_ l2 i.
Proof.
  intros Hi. unfold at_, size.
  replace (Z.to_nat (Z.of_nat (length l1) + i)) with (length l1 + Z.to_nat i)%nat by lia.
  apply app_nth2_plus.
Qed.

Lemma slice_app l1 l2 i j :
  0 <= i -> slice (l1 ++ l2) (size l1 + i) (size l1 + j) = slice l2 i j.
Proof.
  intros Hi. unfold slice, size.
  replace (Z.to_nat (Z.of_nat (length l1) + i)) with (length l1 + Z.to_nat i)%nat by lia.
  rewrite drop_app_add. f_equal. lia.
Qed.

Lemma be32_app l1 l2 o : 0 <= o -> be32 (l1 ++ l2) (size l1 + o) = be32 l2 o.
Proof.
  intros Ho. unfold be32. rewrite <- !Z.add_assoc, !at_app by lia. done.
Qed.

Lemma slice_front l1 l2 : slice (l1 ++ l2) 0 (size l1) = l1.
Proof.
  unfold slice, size. simpl. replace (Z.to_nat (Z.of_nat (length l1) - 0)) with (length l1)
    by lia.
  apply take_app_length.
Qed.

Lemma at_behind l1 l2 o : size l1 = o -> at_ (l1 ++ l2) o = at_ l2 0.
Proof. intros <-. rewrite <- (Z.add_0_r (size l1)). by apply at_app. Qed.

Lemma be32_behind l1 l2 o : size l1 = o -> be32 (l1 ++ l2) o = be32 l2 0.
Proof. intros <-. rewrite <- (Z.add_0_r (size l1)). by apply be32_app. Qed.

Lemma slice_behind l1 l2 o e :
  size l1 = o -> e = o + size l2 -> slice (l1 ++ l2) o e = l2.
Proof.
  intros <- ->. rewrite <- (Z.add_0_r (size l1)) at 1. rewrite slice_app by lia.
  rewrite <- (app_nil_r l2) at 1. apply slice_front.
Qed.

Lemma parse_behind_token d rest hi lo p3 p2 p1 p0 payload len o ty ver dcid scid tok :
  d = rest ++ [hi] ++ [lo; p3; p2; p1] ++ [p0] ++ payload ->
  size rest = o -> len = o + 6 + size payload -> 0 <= hi <= 63 ->
  (if len <? o + 1 then None
   else if 63 <? at_ d o then None
        else if len <? o + 1 + 4 then None
             else Some (mkHeader ty ver dcid scid tok (at_ d o) (be32 d (o + 1)),
                        payload_from d (o + 1 + 4) len))
  = Some (mkHeader ty ver dcid scid tok hi (be32 [lo; p3; p2; p1] 0), p0 :: payload).
Proof.
  intros Hd Hrest Hlen Hhi.
  assert (0 <= size payload) as Hp by (unfold size; lia).
  assert (0 <= o) as Ho by (unfold size in Hrest; lia).
  destruct (Z.ltb_spec len (o + 1)); [lia|].
  assert (at_ d o = hi) as -> by (rewrite Hd; by rewrite (at_behind rest _ o)).
  destruct (Z.ltb_spec 63 hi); [lia|].
  destruct (Z.ltb_spec len (o + 1 + 4)); [lia|].
  assert (be32 d (o + 1) = be32 [lo; p3; p2; p1] 0) as ->.
  { rewrite Hd, app_assoc.
    rewrite (be32_behind (rest ++ [hi]) _ (o + 1))
      by (unfold size in *; rewrite length_app; simpl; lia).
    done. }
  do 2 f_equal.
  unfold payload_from. destruct (Z.ltb_spec (o + 1 + 4) len); [|lia].
  rewrite Hd, !app_assoc, <- (app_assoc _ [p0] payload).
  apply slice_behind; unfold size in *; rewrite ?length_app; simpl; lia.
Qed.

(** What [parsePacket] makes of a long header with a length field of two
    bytes [hi], [lo] in front of the four bytes of the packet number. *)
Lemma parse_two_byte_length b0 ty dcid scid hi lo p3 p2 p1 p0 payload :
  Z.land b0 128 <> 0 -> long_packet_type b0 = ty ->
  size dcid < 256 -> size scid < 256 -> 0 <= hi <= 63 ->
  let d := [b0; 0; 0; 0; 1] ++ [size dcid] ++ dcid ++ [size scid] ++ scid
           ++ (if is_INITIAL ty then [0] else [])
           ++ [hi] ++ [lo; p3; p2; p1] ++ [p0] ++ payload in
  parsePacket d (size d)
  = Some (mkHeader ty 1 dcid scid [] hi (be32 [lo; p3; p2; p1] 0), p0 :: payload).
Proof.
  intros Hlong <- Hd Hs Hhi d.
  set (a := size dcid) in *. set (b := size scid) in *.
  set (tokz := if is_INITIAL (long_packet_type b0) then [0] else []) in *.
  assert (0 <= a) as Ha by (unfold a, size; lia).
  assert (0 <= b) as Hb by (unfold b, size; lia).
  assert (0 <= size payload) as Hp by (unfold size; lia).
  assert (size tokz = if is_INITIAL (long_packet_type b0) then 1 else 0) as Htok
    by (unfold tokz; by destruct (is_INITIAL (long_packet_type b0))).
  assert (size d = 13 + a + b + size tokz + size payload) as Hsize.
  { unfold d, size. rewrite !length_app. unfold a, b, size. simpl. lia. }
  assert (0 <= size tokz <= 1) as Htokz
    by (rewrite Htok; destruct (is_INITIAL (long_packet_type b0)); lia).
  unfold parsePacket. rewrite Hsize.
  destruct (Z.ltb_spec (13 + a + b + size tokz + size payload) 4); [lia|].
  change (at_ d 0) with b0.
  destruct (Z.eqb_spec (Z.land b0 128) 0); [done|]. cbn [negb]. cbv zeta.
  destruct (Z.ltb_spec (13 + a + b + size tokz + size payload) (1 + 4)); [lia|].
  change (be32 d 1) with 1. change (1 =? 0) with false. cbv iota.
  destruct (Z.ltb_spec (13 + a + b + size tokz + size payload) (1 + 4 + 1)); [lia|].
  change (at_ d (1 + 4)) with a.
  destruct (Z.ltb_spec (13 + a + b + size tokz + size payload) (1 + 4 + 1 + a)); [lia|].
  assert (slice d (1 + 4 + 1) (1 + 4 + 1 + a) = dcid) as ->.
  { change d with ([b0; 0; 0; 0; 1; a] ++ dcid ++ [b] ++ scid ++ tokz ++ [hi]
                   ++ [lo; p3; p2; p1] ++ [p0] ++ payload).
    change (1 + 4 + 1) with (size [b0; 0; 0; 0; 1; a] + 0).
    rewrite slice_app by lia. apply slice_front. }
  destruct (Z.ltb_spec (13 + a + b + size tokz + size payload) (1 + 4 + 1 + a + 1)); [lia|].
  set (pre := [b0; 0; 0; 0; 1; a] ++ dcid).
  assert (size pre = 1 + 4 + 1 + a) as Hpre
    by (unfold pre, size; rewrite length_app; unfold a, size; simpl; lia).
  assert (d = pre ++ [b] ++ scid ++ tokz ++ [hi] ++ [lo; p3; p2; p1] ++ [p0] ++ payload)
    as Hd1 by (unfold d, pre; by rewrite <- !app_assoc).
  assert (at_ d (1 + 4 + 1 + a) = b) as -> by (rewrite Hd1; by rewrite (at_behind pre)).
  destruct (Z.ltb_spec (13 + a + b + size tokz + size payload) (1 + 4 + 1 + a + 1 + b));
    [lia|].
  assert (slice d (1 + 4 + 1 + a + 1) (1 + 4 + 1 + a + 1 + b) = scid) as ->.
  { rewrite Hd1, app_assoc.
    replace (1 + 4 + 1 + a + 1) with (size (pre ++ [b]) + 0)
      by (unfold size in *; rewrite length_app; simpl; lia).
    replace (size (pre ++ [b]) + 0 + b) with (size (pre ++ [b]) + b) by lia.
    rewrite slice_app by lia. apply slice_front. }
  set (pre2 := pre ++ [b] ++ scid).
  assert (size pre2 = 1 + 4 + 1 + a + 1 + b) as Hpre2
    by (unfold pre2, size in *; rewrite !length_app; unfold b, size; simpl; lia).
  assert (d = pre2 ++ tokz ++ [hi] ++ [lo; p3; p2; p1] ++ [p0] ++ payload) as Hd2
    by (rewrite Hd1; unfold pre2; by rewrite <- !app_assoc).
  rewrite <- Hpre2. unfold parse_long_tail. cbv zeta.
  unfold tokz in *. destruct (is_INITIAL (long_packet_type b0)).
  - change (size [0]) with 1 in *.
    destruct (Z.ltb_spec (13 + a + b + 1 + size payload) (size pre2 + 1)); [lia|].
    assert (at_ d (size pre2) = 0) as -> by (rewrite Hd2; by rewrite (at_behind pre2)).
    change (63 <? 0) with false. cbv iota.
    destruct (Z.ltb_spec (13 + a + b + 1 + size payload) (size pre2 + 1 + 0)); [lia|].
    assert (slice d (size pre2 + 1) (size pre2 + 1 + 0) = []) as ->.
    { unfold slice. replace (Z.to_nat (size pre2 + 1 + 0 - (size pre2 + 1))) with 0%nat by lia.
      done. }
    apply (parse_behind_token d (pre2 ++ [0])); [by rewrite Hd2, <- !app_assoc| |lia|done].
    unfold size in *. rewrite length_app. simpl. lia.
  - change (size []) with 0 in *.
    apply (parse_behind_token d pre2); [done|done|lia|done].
Qed.

Lemma byte_of_high x : 0 <= x < 256 -> byte_of x 8 = 0.
Proof.
  intros Hx. unfold byte_of. rewrite Z.shiftr_div_pow2 by lia.
  rewrite Z.div_small by lia. done.
Qed.

(** X10.  [sendPacket] writes the length of a long-header packet in two bytes,
    [parsePacket] reads it in one.  An Initial, Handshake or 0-RTT packet
    framed in software with a payload of fewer than 252 bytes is therefore
    read back with the length 0, with a packet number made of the low
    byte of the length and the three high bytes of the number it was sent
    with, and with a payload that starts one byte early, at the low byte of
    that number. *)
Theorem long_header_is_read_back_shifted ty b0 payload h d :
  first_byte ty = Some b0 -> is_ONE_RTT ty = false ->
  software_packet ty b0 payload h = Some d ->
  size payload < 252 ->
  let pn := m_nextPacketNumber h in
  parsePacket d (size d)
  = Some (mkHeader ty 1 (m_destConnID h) (m_srcConnID h) [] 0
            (be32 [byte_of (4 + size payload) 0; byte_of pn 24; byte_of pn 16; byte_of pn 8] 0),
          byte_of pn 0 :: payload).
Proof.
  intros Hb Hlong Hd Hsmall pn.
  assert (Z.land b0 128 <> 0 /\ long_packet_type b0 = ty) as [Hbit Hty].
  { destruct ty; simpl in Hb, Hlong; try discriminate; injection Hb as <-; by vm_compute. }
  unfold software_packet in Hd. rewrite Hlong in Hd.
  assert (0 <= size payload) as Hp by (unfold size; lia).
  match type of Hd with
  | context [byte_of ?L 8] => replace L with (4 + size payload) in Hd by lia
  end.
  rewrite byte_of_high in Hd by lia.
  match type of Hd with
  | (if 64 <? ?s then _ else _) = _ =>
      destruct (Z.ltb_spec 64 s) as [|Hfits]; [discriminate|]
  end.
  injection Hd as <-.
  assert (size (m_destConnID h) + size (m_srcConnID h) <= 51) as Hids.
  { unfold size in *. rewrite !length_app in Hfits. simpl in Hfits.
    destruct (is_INITIAL ty); simpl in Hfits; lia. }
  set (dcid := m_destConnID h) in *. set (scid := m_srcConnID h) in *.
  assert (0 <= size dcid /\ 0 <= size scid) as [Hdn Hsn] by (unfold size; lia).
  assert (u8 (size dcid) = size dcid) as -> by (unfold u8; apply Z.mod_small; lia).
  assert (u8 (size scid) = size scid) as -> by (unfold u8; apply Z.mod_small; lia).
  pose proof (parse_two_byte_length b0 ty dcid scid 0 (byte_of (4 + size payload) 0)
                (byte_of pn 24) (byte_of pn 16) (byte_of pn 8) (byte_of pn 0) payload
                Hbit Hty ltac:(lia) ltac:(lia) ltac:(lia)) as Hparse.
  cbv zeta in Hparse. rewrite <- Hparse.
  assert (forall x y : list Z, x = y -> parsePacket x (size x) = parsePacket y (size y))
    as Hsame by (by intros x y ->).
  apply Hsame. unfold be32_bytes. fold pn.
  change (byte_of QUIC_VERSION_1 24) with 0. change (byte_of QUIC_VERSION_1 16) with 0.
  change (byte_of QUIC_VERSION_1 8) with 0. change (byte_of QUIC_VERSION_1 0) with 1.
  cbn [app]. rewrite <- !app_assoc. cbn [app]. rewrite <- !app_assoc. done.
Qed.

(** *** The software framing stays inside its buffer *)

Lemma in_bounds_ret {A} I (a : A) : in_bounds I (ret a).
Proof. intros p HI. by exists a, p. Qed.

Lemma in_bounds_bind {A B} I (m : M A) (k : A -> M B) :
  in_bounds I m -> (forall a, in_bounds I (k a)) -> in_bounds I (bind m k).
Proof.
  intros Hm Hk p HI. destruct (Hm p HI) as (a & p1 & Hrun & HI1).
  destruct (Hk a p1 HI1) as (b & p2 & Hrun' & HI2).
  exists b, p2. unfold bind. rewrite Hrun. done.
Qed.

Lemma in_bounds_isConnected I : in_bounds I isConnected.
Proof. intros p HI. by eexists _, p. Qed.

Lemma in_bounds_sendto I d : in_bounds I (sendto d).
Proof. intros p HI. by eexists _, _. Qed.

Lemma in_bounds_now I : in_bounds I now.
Proof.
  intros p HI. unfold now. destruct (steady_clock_now (env p)). by eexists _, _.
Qed.

Lemma in_bounds_executePacketOperation I op input c pn :
  in_bounds I (executePacketOperation op input c pn).
Proof.
  intros p HI. unfold executePacketOperation.
  destruct (fpga_executePacketOperation op input c pn (env p)). by eexists _, _.
Qed.

Lemma in_bounds_modify I f : (forall h, I h -> I (f h)) -> in_bounds I (modify f).
Proof. intros Hf p HI. eexists _, _. split; [done|]. simpl. auto. Qed.

Lemma in_bounds_get I : in_bounds I get.
Proof. intros p HI. by eexists _, p. Qed.

Lemma in_bounds_if {A} I (b : bool) (m1 m2 : M A) :
  in_bounds I m1 -> in_bounds I m2 -> in_bounds I (if b then m1 else m2).
Proof. by destruct b. Qed.

Create HintDb bounds discriminated.

Ltac bounded :=
  repeat first
    [ apply in_bounds_ret | apply in_bounds_get | apply in_bounds_isConnected
    | apply in_bounds_sendto | apply in_bounds_now
    | apply in_bounds_executePacketOperation
    | assumption
    | solve [auto 1 with bounds nocore]
    | apply in_bounds_modify; solve [auto]
    | apply in_bounds_bind; [|intros ?]
    | apply in_bounds_if
    | match goal with
      | |- in_bounds _ (match ?x with _ => _ end) => destruct x
      end ].

Section Bounds.
Variables dcid scid : list Z.
Hypothesis dcid_adopted : 0 < size dcid.
Hypothesis ids_leave_room : size dcid + size scid <= 50.

Lemma fits_send_and_count d : in_bounds (has_ids dcid scid) (send_and_count d).
Proof. unfold send_and_count. bounded. Qed.
#[local] Hint Resolve fits_send_and_count : bounds.

Lemma fits_store_sent d : in_bounds (has_ids dcid scid) (store_sent d).
Proof. unfold store_sent. bounded. Qed.
#[local] Hint Resolve fits_store_sent : bounds.

Lemma fits_send_framed_by_fpga payload :
  in_bounds (has_ids dcid scid) (send_framed_by_fpga payload).
Proof. unfold send_framed_by_fpga. bounded. Qed.
#[local] Hint Resolve fits_send_framed_by_fpga : bounds.

(** With room for the headers every store of the software framing is
    inside the buffer. *)
Lemma software_packet_fits ty b0 payload h :
  has_ids dcid scid h -> exists d, software_packet ty b0 payload h = Some d.
Proof.
  intros [Hd Hs]. unfold software_packet. rewrite Hd, Hs.
  destruct (is_ONE_RTT ty).
  - destruct (Z.ltb_spec 64 (size ([b0] ++ dcid
                                     ++ be32_bytes (m_nextPacketNumber h)))) as [Hover|_];
      [|by eexists].
    unfold size in *. rewrite !length_app in Hover. simpl in Hover. lia.
  - match goal with
    | |- context [64 <? ?s] => destruct (Z.ltb_spec 64 s) as [Hover|_]; [|by eexists]
    end.
    unfold size in *. rewrite !length_app in Hover. simpl in Hover.
    destruct (is_INITIAL ty); simpl in Hover; lia.
Qed.

Lemma fits_sendPacket ty payload : in_bounds (has_ids dcid scid) (sendPacket ty payload).
Proof.
  unfold sendPacket. apply in_bounds_bind; [bounded|]. intros framed.
  destruct framed; [bounded|]. destruct (first_byte ty) as [b0|]; [|bounded].
  intros p Hfit. unfold bind at 1, get.
  destruct (software_packet_fits ty b0 payload (self p) Hfit) as [d ->].
  revert p Hfit.
  change (in_bounds (has_ids dcid scid)
            (exec send_and_count d ;; exec store_sent d ;; ret true)).
  bounded.
Qed.
#[local] Hint Resolve fits_sendPacket : bounds.

Lemma fits_frames_loop payload rest :
  in_bounds (has_ids dcid scid) (frames_loop payload rest).
Proof.
  induction rest as [|frameType rest IH]; simpl; [bounded|].
  unfold process_ack_frame. bounded.
Qed.
#[local] Hint Resolve fits_frames_loop : bounds.

Lemma fits_sendAckPacket pns : in_bounds (has_ids dcid scid) (sendAckPacket pns).
Proof. unfold sendAckPacket. bounded. Qed.
#[local] Hint Resolve fits_sendAckPacket : bounds.

Lemma fits_dispatch header payload :
  in_bounds (has_ids dcid scid) (dispatch header payload).
Proof.
  unfold dispatch, handleInitialPacket, handleHandshakePacket, handleOneRttPacket,
    processFrames, push_received.
  bounded.
Qed.
#[local] Hint Resolve fits_dispatch : bounds.

Lemma fits_retransmit_all t infos :
  in_bounds (has_ids dcid scid) (retransmit_all t infos).
Proof.
  induction infos as [|info rest IH]; simpl; [bounded|].
  unfold retransmit_one. bounded.
Qed.
#[local] Hint Resolve fits_retransmit_all : bounds.

Lemma fits_checkForRetransmissions :
  in_bounds (has_ids dcid scid) checkForRetransmissions.
Proof. unfold checkForRetransmissions. bounded. Qed.
#[local] Hint Resolve fits_checkForRetransmissions : bounds.

Lemma fits_processIncomingPacket data len :
  in_bounds (has_ids dcid scid) (processIncomingPacket data len).
Proof.
  unfold processIncomingPacket, updateActivity. bounded.
  apply in_bounds_modify. intros h [Hd Hs].
  destruct (Z.eqb_spec (size (m_destConnID h)) 0) as [Hempty|]; [|done].
  rewrite Hd in Hempty. lia.
Qed.

End Bounds.

(** X11.  Once the connection has adopted a connection ID of its peer, and the
    two connection IDs together have at most 50 bytes (as two IDs within
    the limit of 20 bytes have), no call stores outside the buffer that
    [sendPacket] allocates: every datagram is processed to the end, and the
    connection IDs stay as they are. *)
Theorem software_framing_stays_in_bounds data len p :
  ids_fit (self p) ->
  exists r p',
    processIncomingPacket data len p = Some (r, p')
    /\ m_destConnID (self p') = m_destConnID (self p)
    /\ m_srcConnID (self p') = m_srcConnID (self p).
Proof.
  intros [Hpos Hfit].
  destruct (fits_processIncomingPacket _ _ Hpos Hfit data len p)
    as (r & p' & Hrun & Hd & Hs); [done|].
  by exists r, p'.
Qed.

(** *** What a call does outside the handler object *)

Lemma keeps_ret {A} J (a : A) : keeps J (ret a).
Proof. intros p a' p' [= <- <-]. done. Qed.

Lemma keeps_bind {A B} J (m : M A) (k : A -> M B) :
  keeps J m -> (forall a, keeps J (k a)) -> keeps J (bind m k).
Proof.
  intros Hm Hk p b p' Hrun HJ. unfold bind in Hrun.
  destruct (m p) as [[a p1]|] eqn:E; [|done].
  eapply Hk; [exact Hrun|]. eapply Hm; eauto.
Qed.

Lemma keeps_out_of_bounds {A} J : keeps J (@out_of_bounds _ A).
Proof. intros p a p' [=]. Qed.

Lemma keeps_get J : keeps J get.
Proof. intros p a p' [= <- <-]. done. Qed.

Lemma keeps_isConnected J : keeps J isConnected.
Proof. intros p a p' [= <- <-]. done. Qed.

Lemma keeps_if {A} J (b : bool) (m1 m2 : M A) :
  keeps J m1 -> keeps J m2 -> keeps J (if b then m1 else m2).
Proof. by destruct b. Qed.

Create HintDb kept discriminated.

Ltac keep :=
  repeat first
    [ apply keeps_ret | apply keeps_get | apply keeps_isConnected
    | apply keeps_out_of_bounds
    | assumption
    | solve [auto 1 with kept nocore]
    | apply keeps_bind; [|intros ?]
    | apply keeps_if
    | match goal with
      | |- keeps _ (match ?x with _ => _ end) => destruct x
      end ].

Section Keeping.
Variable J : Process -> Prop.

(** [J] survives a reading of the clock, *)
Hypothesis J_clock : forall p,
  J p -> J (mkProcess (self p) (udp_out p) (snd (steady_clock_now (env p)))).
(** an operation of the accelerator, which is called only with
    acceleration enabled and the accelerator connected, *)
Hypothesis J_accelerator : forall op input c pn p,
  m_accelerationEnabled (self p) && fpga_isConnected (env p) = true ->
  J p ->
  J (mkProcess (self p) (udp_out p)
       (snd (fpga_executePacketOperation op input c pn (env p)))).
(** a datagram handed to [sendto] with the two counters updated, *)
Hypothesis J_send : forall d p,
  J p ->
  J (mkProcess
       (set_packetsSent (u64 (m_packetsSent (self p) + 1))
          (set_bytesSent (u64 (m_bytesSent (self p) + size d)) (self p)))
       (udp_out p ++ [d]) (env p)).
(** and every update of the handler object that leaves the acceleration
    flag and the two counters alone. *)
Hypothesis J_self : forall h' p,
  J p ->
  m_accelerationEnabled h' = m_accelerationEnabled (self p) ->
  m_bytesSent h' = m_bytesSent (self p) ->
  m_packetsSent h' = m_packetsSent (self p) ->
  J (mkProcess h' (udp_out p) (env p)).

Lemma keeps_now : keeps J now.
Proof.
  intros p a p'. unfold now. pose proof (J_clock p) as Hc.
  destruct (steady_clock_now (env p)). intros [= <- <-]. exact Hc.
Qed.
#[local] Hint Resolve keeps_now : kept.

Lemma keeps_modify f :
  (forall h, m_accelerationEnabled (f h) = m_accelerationEnabled h
             /\ m_bytesSent (f h) = m_bytesSent h
             /\ m_packetsSent (f h) = m_packetsSent h) ->
  keeps J (modify f).
Proof.
  intros Hf p a p' [= <- <-] HJ. destruct (Hf (self p)) as (Ha & Hb & Hp).
  by apply J_self.
Qed.

Lemma keeps_send_and_count d : keeps J (send_and_count d).
Proof.
  intros p a p' [= <- <-] HJ. apply (J_send d p HJ).
Qed.
#[local] Hint Resolve keeps_send_and_count : kept.

Lemma keeps_store_sent d : keeps J (store_sent d).
Proof. unfold store_sent. keep; by apply keeps_modify. Qed.
#[local] Hint Resolve keeps_store_sent : kept.

Lemma keeps_restamp pn t :
  keeps J (modify (fun h => set_sentPackets (update_sentTime pn t (m_sentPackets h)) h)).
Proof. by apply keeps_modify. Qed.
#[local] Hint Resolve keeps_restamp : kept.

(** The guard in front of every call of the accelerator. *)
Lemma keeps_guarded {A} op input pn (k : QUICHandler -> FPGAOperationResult -> M A)
    (otherwise : M A) :
  (forall h result, keeps J (k h result)) -> keeps J otherwise ->
  keeps J (h <- get ;;
           connected <- isConnected ;;
           if m_accelerationEnabled h && connected then
             result <- executePacketOperation op input (m_connectionID h) (pn h) ;;
             k h result
           else otherwise).
Proof.
  intros Hk Hotherwise p a p'. unfold bind at 1 2, get, isConnected.
  destruct (m_accelerationEnabled (self p) && fpga_isConnected (env p)) eqn:Hguard;
    [|apply Hotherwise].
  unfold bind, executePacketOperation.
  pose proof (J_accelerator op input (m_connectionID (self p)) (pn (self p)) p Hguard) as Hc.
  destruct (fpga_executePacketOperation op input (m_connectionID (self p)) (pn (self p))
              (env p)) as [result w].
  intros Hrun HJ. eapply Hk; [exact Hrun|]. by apply Hc.
Qed.

Lemma keeps_send_framed_by_fpga payload : keeps J (send_framed_by_fpga payload).
Proof.
  unfold send_framed_by_fpga.
  apply (keeps_guarded PACKET_FRAMING payload m_nextPacketNumber
           (fun _ result =>
              if success result then
                exec send_and_count (data result) ;;
                exec store_sent (data result) ;; ret true
              else ret false)); [intros h result|]; keep.
Qed.
#[local] Hint Resolve keeps_send_framed_by_fpga : kept.

Lemma keeps_sendPacket ty payload : keeps J (sendPacket ty payload).
Proof. unfold sendPacket. keep. Qed.
#[local] Hint Resolve keeps_sendPacket : kept.

Lemma keeps_frames_loop payload rest : keeps J (frames_loop payload rest).
Proof.
  induction rest as [|frameType rest IH]; simpl; keep.
  unfold process_ack_frame. keep. by apply keeps_modify.
Qed.
#[local] Hint Resolve keeps_frames_loop : kept.

Lemma keeps_sendAckPacket pns : keeps J (sendAckPacket pns).
Proof.
  unfold sendAckPacket. destruct pns as [|first others]; [keep|]. cbv zeta.
  apply (keeps_guarded PACKET_ACK_PROCESSING (ack_frame (max_element first others))
           (fun _ => max_element first others)
           (fun _ result =>
              if success result then exec send_and_count (data result) ;; ret true
              else sendPacket ONE_RTT (ack_frame (max_element first others))));
    [intros h result|]; keep.
Qed.
#[local] Hint Resolve keeps_sendAckPacket : kept.

Lemma keeps_push_received pn : keeps J (push_received pn).
Proof. by apply keeps_modify. Qed.
#[local] Hint Resolve keeps_push_received : kept.

Lemma keeps_dispatch header payload : keeps J (dispatch header payload).
Proof.
  unfold dispatch, handleInitialPacket, handleHandshakePacket, handleOneRttPacket,
    processFrames.
  keep.
Qed.
#[local] Hint Resolve keeps_dispatch : kept.

Lemma keeps_retransmit_one t info : keeps J (retransmit_one t info).
Proof.
  assert (forall byFpga : bool,
            keeps J (if byFpga then ret tt
                     else
                       exec send_and_count (packetData info) ;;
                       modify (fun h =>
                         set_sentPackets
                           (update_sentTime (packetNumber info) t (m_sentPackets h)) h)))
    as Hafter by (intros byFpga; keep).
  intros p a p'. unfold retransmit_one. unfold bind at 1 2, get, isConnected.
  destruct (m_accelerationEnabled (self p) && fpga_isConnected (env p)) eqn:Hguard.
  - unfold bind at 1 2, executePacketOperation.
    pose proof (J_accelerator PACKET_RETRANSMISSION [] (m_connectionID (self p))
                  (packetNumber info) p Hguard) as Hc.
    destruct (fpga_executePacketOperation PACKET_RETRANSMISSION [] (m_connectionID (self p))
                (packetNumber info) (env p)) as [result w].
    intros Hrun HJ. simpl in Hc.
    refine (keeps_bind J _ _ _ Hafter _ _ _ Hrun (Hc HJ)). keep.
  - apply keeps_bind; [keep|exact Hafter].
Qed.
#[local] Hint Resolve keeps_retransmit_one : kept.

Lemma keeps_retransmit_all t infos : keeps J (retransmit_all t infos).
Proof. induction infos as [|info rest IH]; simpl; keep. Qed.
#[local] Hint Resolve keeps_retransmit_all : kept.

Lemma keeps_checkForRetransmissions : keeps J checkForRetransmissions.
Proof. unfold checkForRetransmissions. keep. Qed.
#[local] Hint Resolve keeps_checkForRetransmissions : kept.

Lemma keeps_processIncomingPacket data len : keeps J (processIncomingPacket data len).
Proof.
  unfold processIncomingPacket, updateActivity. keep; apply keeps_modify; try done.
  intros h. by destruct (size (m_destConnID h) =? 0).
Qed.

End Keeping.

Lemma bytes_on_wire_snoc ds d : bytes_on_wire (ds ++ [d]) = bytes_on_wire ds + size d.
Proof. unfold bytes_on_wire. induction ds as [|d0 ds IH]; simpl; lia. Qed.

Lemma statistics_kept data len :
  keeps (fun p => m_packetsSent (self p) = u64 (size (udp_out p))
                  /\ m_bytesSent (self p) = u64 (bytes_on_wire (udp_out p)))
    (processIncomingPacket data len).
Proof.
  apply keeps_processIncomingPacket; simpl; try done.
  - intros d p [Hp Hb]. rewrite Hp, Hb, bytes_on_wire_snoc. unfold size, u64.
    rewrite length_app, !Zplus_mod_idemp_l. simpl. split; f_equal; lia.
  - intros h' p [Hp Hb] _ -> ->. done.
Qed.

(** X12.  The statistics of a connection are those of the wire: in every state
    of its life [getPacketsSent] is the number of datagrams it has handed
    to [sendto] and [getBytesSent] the number of their bytes, as 64-bit
    counters. *)
Theorem sent_statistics_match_the_wire p :
  reachable p ->
  m_packetsSent (self p) = u64 (size (udp_out p))
  /\ m_bytesSent (self p) = u64 (bytes_on_wire (udp_out p)).
Proof.
  induction 1 as [accel connID w _ _|p data len r p' _ IH _ Hrun
                 |p enabled r p' _ IH Hrun|p w _ IH].
  - unfold construct. destruct (steady_clock_now w). by split.
  - by apply (statistics_kept data len p r p' Hrun).
  - injection Hrun as _ <-. exact IH.
  - exact IH.
Qed.

(** X13.  With acceleration disabled a call does nothing to its environment
    but read the clock: whatever holds of the environment and survives a
    clock reading holds after the call, and acceleration is still
    disabled. *)
Theorem disabled_acceleration_only_reads_the_clock (Q : World -> Prop) data len p r p' :
  (forall w, Q w -> Q (snd (steady_clock_now w))) ->
  m_accelerationEnabled (self p) = false ->
  Q (env p) ->
  processIncomingPacket data len p = Some (r, p') ->
  m_accelerationEnabled (self p') = false /\ Q (env p').
Proof.
  intros Hclock Hoff HQ Hrun.
  apply (keeps_processIncomingPacket
           (fun p => m_accelerationEnabled (self p) = false /\ Q (env p)))
    with (data := data) (len := len) (p := p) (a := r); simpl; try done.
  - intros p0 [Ha Hq]. split; [done|]. by apply Hclock.
  - intros op input c pn p0 Hguard [Ha _]. by rewrite Ha in Hguard.
  - intros h' p0 [Ha Hq] -> _ _. done.
Qed.

(** *** Retransmission behind the parameter check of the accelerator *)

Lemma retransmit_one_stored t info p :
  rejects_empty_input ->
  exists p',
    retransmit_one t info p = Some (tt, p')
    /\ udp_out p' = udp_out p ++ [packetData info].
Proof.
  intros Hcheck. unfold retransmit_one, bind, get, isConnected.
  destruct (m_accelerationEnabled (self p) && fpga_isConnected (env p)).
  - unfold executePacketOperation.
    pose proof (Hcheck PACKET_RETRANSMISSION (m_connectionID (self p)) (packetNumber info)
                  (env p) eq_refl) as Hfail.
    destruct (fpga_executePacketOperation PACKET_RETRANSMISSION [] (m_connectionID (self p))
                (packetNumber info) (env p)) as [result w].
    simpl in Hfail. rewrite Hfail. simpl. by eexists.
  - simpl. by eexists.
Qed.

Lemma retransmit_all_stored t infos p :
  rejects_empty_input ->
  exists p',
    retransmit_all t infos p = Some (tt, p')
    /\ udp_out p' = udp_out p ++ map packetData infos.
Proof.
  intros Hcheck. revert p. induction infos as [|info rest IH]; intros p; simpl.
  - exists p. by rewrite app_nil_r.
  - destruct (retransmit_one_stored t info p Hcheck) as (p1 & Hrun & Hout).
    destruct (IH p1) as (p' & Hrun' & Hout').
    exists p'. unfold bind. rewrite Hrun. split; [done|].
    by rewrite Hout', Hout, <- app_assoc.
Qed.

(** X14.  [checkForRetransmissions] asks the accelerator to retransmit with an
    empty input, which [executePacketOperation] refuses for every operation
    but ACK processing: whether acceleration is enabled or not, a
    retransmission pass puts the stored bytes of the selected packets on the
    wire, in the order of the tracker. *)
Theorem retransmissions_resend_the_stored_bytes p :
  rejects_empty_input ->
  exists p',
    checkForRetransmissions p = Some (tt, p')
    /\ udp_out p'
       = udp_out p
         ++ map packetData
              (packetsToRetransmit (fst (steady_clock_now (env p))) (m_sentPackets (self p))).
Proof.
  intros Hcheck. unfold checkForRetransmissions, bind, now, get.
  destruct (steady_clock_now (env p)) as [t w]. simpl.
  apply (retransmit_all_stored t _ (mkProcess (self p) (udp_out p) w) Hcheck).
Qed.

(** *** Any datagram keeps the connection alive *)

Lemma reachable_connected p : reachable p -> m_connected (self p) = true.
Proof.
  induction 1 as [accel connID w _ _|p data len r p' _ IH _ Hrun
                 |p enabled r p' _ IH Hrun|p w _ IH].
  - unfold construct. by destruct (steady_clock_now w).
  - by apply (inv_processIncomingPacket (fun h => m_connected h = true))
      with (data := data) (len := len) (p := p) (a := r).
  - injection Hrun as _ <-. exact IH.
  - exact IH.
Qed.

(** X15.  After a datagram that is neither null nor empty, whether it parses or
    not, [isActive] holds at every clock reading less than 30 seconds behind
    the one taken at its arrival. *)
Theorem any_datagram_keeps_the_connection_active d len p r p' t :
  reachable p -> 0 < len ->
  processIncomingPacket (Some d) len p = Some (r, p') ->
  t - fst (steady_clock_now (env p)) < 30000000000 ->
  isActive_at t (self p') = true.
Proof.
  intros Hr Hlen Hrun Ht.
  destruct (arrival_is_recorded d len p r p' ltac:(lia) Hrun) as [Hstamp _].
  unfold isActive_at.
  rewrite (reachable_connected p' (reach_packet p (Some d) len r p' Hr ltac:(lia) Hrun)).
  rewrite Hstamp. simpl. apply Z.ltb_lt. unfold to_milliseconds, IDLE_TIMEOUT_MS.
  destruct (Z.le_gt_cases 0 (t - fst (steady_clock_now (env p)))).
  - rewrite Z.quot_div_nonneg by lia. apply Z.div_lt_upper_bound; lia.
  - pose proof (Z.quot_opp_l (- (t - fst (steady_clock_now (env p)))) 1000000 ltac:(lia)).
    rewrite Z.opp_involutive in *.
    assert (0 <= Z.quot (- (t - fst (steady_clock_now (env p)))) 1000000)
      by (apply Z.quot_pos; lia).
    lia.
Qed.

End HandlerFacts.

(** C10 at a freshly constructed handler and a null pointer. *)
Lemma null_or_empty_packet_is_ignored_witness :
  (@None (list Z) = None \/ 1200 = 0)
  /\ @Handler.processIncomingPacket standstill None 1200 sample_process
     = Some (false, sample_process).
Proof.
  split; [by left|].
  apply (@null_or_empty_packet_is_ignored standstill None 1200 sample_process).
  by left.
Defined.

(** C6 at an ACK frame for packet number 0, after one Initial exchange. *)
Lemma ack_frame_idempotent_witness :
  (2 = 2 \/ 2 = 3)
  /\ exists p1,
       @Handler.processFrames standstill (2 :: [0; 0; 0; 0; 0; 0; 0; 0])
         (after_initials 1 sample_process) = Some (true, p1)
       /\ @Handler.processFrames standstill (2 :: [0; 0; 0; 0; 0; 0; 0; 0]) p1
         = Some (true, p1).
Proof.
  split; [by left|].
  apply (@ack_frame_idempotent standstill 2 [0; 0; 0; 0; 0; 0; 0; 0]
           (after_initials 1 sample_process)).
  by left.
Defined.

(** ** A connection that outlives its packet-number counter

    At a clock that stands still and without accelerator, every Initial
    datagram of the peer is answered by one packet framed in software, and
    nothing is retransmitted. *)

Section Wrap.
Import Handler.

Lemma parse_initial_datagram :
  parsePacket initial_datagram 36
  = Some (mkHeader INITIAL 1 [1; 2; 3; 4; 5; 6; 7; 8] [17; 18; 19; 20; 21; 22; 23; 24]
            [] 7 0, [6; 0; 4; 170; 187; 204; 221]).
Proof. vm_compute. reflexivity. Qed.

Lemma quiet_step n p :
  quiet n p ->
  exists p',
    @processIncomingPacket standstill (Some initial_datagram) 36 p = Some (true, p')
    /\ quiet (S n) p'.
Proof.
  destruct p as [h out w]. intros (Hw & Hd & Hs & Hlen & Hall).
  cbn [self env] in Hw, Hd, Hs, Hlen, Hall. subst w.
  rewrite (@processIncomingPacket_parsed standstill initial_datagram 36 _ _
             ltac:(lia) parse_initial_datagram).
  unfold updateActivity, dispatch. simpl type. cbv iota.
  unfold handleInitialPacket, push_received.
  unfold bind at 1 2 3 4 5 6 7 8, now, modify, get. simpl. rewrite Hd. simpl.
  rewrite (@send_framed_disconnected standstill) by reflexivity. cbv iota beta.
  erewrite (@sendPacket_software standstill INITIAL 195); [|reflexivity|reflexivity|];
    cycle 1.
  { unfold software_packet.
    cbn [self m_destConnID m_srcConnID m_nextPacketNumber set_receivedPackets
         set_packetsReceived set_bytesReceived set_lastActivity is_ONE_RTT is_INITIAL].
    rewrite Hd, Hs. reflexivity. }
  set (packet := (_ ++ crypto_sample 1)%list).
  assert (Forall (fun info => acknowledged info = false /\ sentTime info = 0)
            (m_sentPackets h ++ [mkPacketInfo (m_nextPacketNumber h) 0 false packet]))
    as Hall'.
  { apply Forall_app. split; [done|]. by repeat constructor. }
  unfold bind. rewrite (@checkForRetransmissions_idle standstill); cycle 1.
  { unfold sent_in_software. simpl. apply nothing_due.
    eapply List.Forall_impl; [|exact Hall']. intros info [_ ->]. by vm_compute. }
  eexists. split; [reflexivity|].
  unfold sent_in_software, quiet. simpl.
  repeat split; try done. rewrite length_app, Hlen. simpl. lia.
Qed.

Lemma first_initial :
  exists p',
    @processIncomingPacket standstill (Some initial_datagram) 36 sample_process
    = Some (true, p')
    /\ quiet 1 p'.
Proof.
  eexists. split; [vm_compute; reflexivity|].
  unfold quiet. simpl. repeat split. by repeat constructor.
Qed.

Lemma after_initials_S k p :
  after_initials (S k) p
  = match @processIncomingPacket standstill (Some initial_datagram) 36
            (after_initials k p) with
    | Some (_, p') => p'
    | None => after_initials k p
    end.
Proof. reflexivity. Qed.

(** The run of [n] Initial datagrams stays in the life of the connection. *)
Lemma initials_reachable n :
  @reachable standstill (after_initials n sample_process)
  /\ ((1 <= n)%nat -> quiet n (after_initials n sample_process)).
Proof.
  induction n as [|n [IHr IHq]].
  - split; [|lia]. apply (@reach_construct standstill); [done|].
    repeat constructor; unfold is_byte; lia.
  - rewrite after_initials_S.
    assert (exists p',
              @processIncomingPacket standstill (Some initial_datagram) 36
                (after_initials n sample_process) = Some (true, p')
              /\ quiet (S n) p') as (p' & Hrun & Hq).
    { destruct n as [|n]; [exact first_initial|]. apply quiet_step, IHq. lia. }
    rewrite Hrun. split; [|done].
    eapply (@reach_packet standstill); [exact IHr| |exact Hrun]. lia.
Qed.

Lemma ascending_nth l i j d :
  ascending l -> (i < j < length l)%nat -> nth i l d < nth j l d.
Proof.
  unfold ascending. intros Hs. revert i j.
  induction Hs as [|x l Hs IH Hx]; intros i j Hij; simpl in *; [lia|].
  destruct j as [|j]; [lia|]. destruct i as [|i].
  - rewrite List.Forall_forall in Hx. apply Hx, nth_In. lia.
  - apply IH. lia.
Qed.

(** Once 2^32 + 1 packets have been recorded the numbers are no longer
    increasing: the last but one is 2^32 - 1 and the last is 0. *)
Lemma count_up_wraps n :
  Z.of_nat n = 4294967297 ->
  ~ ascending (map (fun k => u32 (Z.of_nat k)) (seq 0 n)).
Proof.
  intros Hn Hs.
  pose proof (ascending_nth _ (n - 2) (n - 1) (u32 (Z.of_nat 0)) Hs) as Hlt.
  rewrite length_map, length_seq in Hlt.
  assert (n - 2 < n - 1 < n)%nat as Hij by lia. specialize (Hlt Hij).
  rewrite !(map_nth (fun k => u32 (Z.of_nat k))) in Hlt.
  rewrite !seq_nth, !Nat.add_0_l in Hlt by lia.
  replace (Z.of_nat (n - 2)) with 4294967295 in Hlt by lia.
  replace (Z.of_nat (n - 1)) with 4294967296 in Hlt by lia.
  change (u32 4294967295) with 4294967295 in Hlt.
  change (u32 4294967296) with 0 in Hlt. lia.
Qed.

Lemma count_up_lookup n i :
  (i < n)%nat ->
  map (fun k => u32 (Z.of_nat k)) (seq 0 n) !! i = Some (u32 (Z.of_nat i)).
Proof.
  intros Hi. change (map ?f ?l) with (f <$> l).
  by rewrite list_lookup_fmap, lookup_seq_lt.
Qed.

Lemma wrapped_tracker n i j :
  Z.of_nat n = 4294967297 -> Z.of_nat i = 4294967295 -> Z.of_nat j = 4294967296 ->
  @reachable standstill (after_initials n sample_process)
  /\ Forall (fun info => acknowledged info = false /\ sentTime info = 0)
       (m_sentPackets (self (after_initials n sample_process)))
  /\ sent_numbers (self (after_initials n sample_process)) !! i = Some 4294967295
  /\ sent_numbers (self (after_initials n sample_process)) !! j = Some 0
  /\ ~ ascending (sent_numbers (self (after_initials n sample_process))).
Proof.
  intros Hn Hi Hj. destruct (initials_reachable n) as [Hr Hq].
  assert (1 <= n)%nat as Hpos by lia.
  destruct (Hq Hpos) as (_ & _ & _ & Hlen & Hall).
  split; [exact Hr|]. split; [exact Hall|].
  destruct (@reachable_numbered standstill _ Hr) as [Hnum _].
  rewrite Hnum, Hlen. split; [|split].
  - rewrite count_up_lookup by lia. rewrite Hi. reflexivity.
  - rewrite count_up_lookup by lia. rewrite Hj. reflexivity.
  - by apply count_up_wraps.
Qed.

Lemma before_the_wrap : Z.of_nat (Z.to_nat 4294967295) = 4294967295.
Proof. apply Z2Nat.id. lia. Qed.

Lemma at_the_wrap : Z.of_nat (Z.to_nat 4294967296) = 4294967296.
Proof. apply Z2Nat.id. lia. Qed.

Lemma past_the_wrap : Z.of_nat (Z.to_nat 4294967297) = 4294967297.
Proof. apply Z2Nat.id. lia. Qed.

End Wrap.

(** C3, as stated, fails: after 2^32 + 1 Initial datagrams the tracker of
    the connection holds the packet numbers 0, 1, ..., 2^32 - 1, 0. *)
Lemma packet_numbers_wrap :
  @Handler.reachable standstill (after_initials (Z.to_nat 4294967297) sample_process)
  /\ Handler.sent_numbers
       (@Handler.self standstill (after_initials (Z.to_nat 4294967297) sample_process))
     !! Z.to_nat 4294967295 = Some 4294967295
  /\ Handler.sent_numbers
       (@Handler.self standstill (after_initials (Z.to_nat 4294967297) sample_process))
     !! Z.to_nat 4294967296 = Some 0
  /\ ~ ascending
        (Handler.sent_numbers
           (@Handler.self standstill
              (after_initials (Z.to_nat 4294967297) sample_process))).
Proof.
  pose proof (wrapped_tracker _ _ _ past_the_wrap before_the_wrap at_the_wrap)
    as (Hr & _ & Hi & Hj & Hn).
  split; [exact Hr|]. split; [exact Hi|]. split; [exact Hj|exact Hn].
Qed.

(** C3 after two Initial datagrams. *)
Lemma packet_numbers_ascend_until_wrap_witness :
  let p := after_initials 2 sample_process in
  @Handler.reachable standstill p
  /\ size (Handler.m_sentPackets (@Handler.self standstill p)) <= 4294967296
  /\ ascending (Handler.sent_numbers (@Handler.self standstill p)).
Proof.
  intros p.
  assert (@Handler.reachable standstill p) as Hr by apply (initials_reachable 2).
  assert (size (Handler.m_sentPackets (@Handler.self standstill p)) <= 4294967296) as Hle
    by (vm_compute; discriminate).
  split; [exact Hr|]. split; [exact Hle|].
  exact (@packet_numbers_ascend_until_wrap standstill p Hr Hle).
Defined.

Lemma sent_numbers_eq h :
  Handler.sent_numbers h = map Handler.packetNumber (Handler.m_sentPackets h).
Proof. reflexivity. Qed.

Lemma all_selected t sent :
  Forall (fun info => Handler.acknowledged info = false /\ Handler.sentTime info = 0) sent ->
  Handler.RETRANSMIT_TIMEOUT_MS < to_milliseconds (t - 0) ->
  Handler.packetsToRetransmit t sent = sent.
Proof.
  intros Hall Ht. unfold Handler.packetsToRetransmit.
  induction Hall as [|info rest [Hack Htime] _ IH]; [done|]. cbn [List.filter].
  assert (Handler.needs_retransmission t info = true) as ->.
  { unfold Handler.needs_retransmission. rewrite Hack, Htime.
    apply andb_true_iff. split; [done|]. by apply Z.ltb_lt. }
  by rewrite IH.
Qed.

(** C9, as stated, fails: one second after the run of 2^32 + 1 Initial
    datagrams every packet is unacknowledged and timed out, and the pass
    selects the whole tracker, whose numbers end in 2^32 - 1, 0. *)
Lemma retransmission_scan_wraps :
  @Handler.reachable standstill
    (@Handler.mkProcess standstill
       (@Handler.self standstill (after_initials (Z.to_nat 4294967297) sample_process))
       (@Handler.udp_out standstill (after_initials (Z.to_nat 4294967297) sample_process))
       1000000000)
  /\ ~ ascending
        (map Handler.packetNumber
           (Handler.packetsToRetransmit 1000000000
              (Handler.m_sentPackets
                 (@Handler.self standstill
                    (after_initials (Z.to_nat 4294967297) sample_process))))).
Proof.
  pose proof (wrapped_tracker _ _ _ past_the_wrap before_the_wrap at_the_wrap)
    as (Hr & Hall & _ & _ & Hn).
  rewrite sent_numbers_eq in Hn.
  assert (Handler.RETRANSMIT_TIMEOUT_MS < to_milliseconds (1000000000 - 0)) as Hlate
    by (vm_compute; reflexivity).
  split; [exact (@Handler.reach_env standstill _ 1000000000 Hr)|].
  rewrite (all_selected 1000000000 _ Hall Hlate). exact Hn.
Qed.

(** C9 after two Initial datagrams and one second. *)
Lemma retransmissions_keep_send_order_witness :
  let p := after_initials 2 sample_process in
  let later := @Handler.mkProcess standstill (@Handler.self standstill p)
                 (@Handler.udp_out standstill p) 1000000000 in
  let selected :=
    Handler.packetsToRetransmit
      (fst (@steady_clock_now standstill (@Handler.env standstill later)))
      (Handler.m_sentPackets (@Handler.self standstill later)) in
  @Handler.reachable standstill later
  /\ map Handler.packetNumber selected = [0; 1]
  /\ size (Handler.m_sentPackets (@Handler.self standstill later)) <= 4294967296
  /\ sublist selected (Handler.m_sentPackets (@Handler.self standstill later))
  /\ ascending (map Handler.packetNumber selected).
Proof.
  intros p later selected.
  assert (@Handler.reachable standstill later) as Hr.
  { apply (@Handler.reach_env standstill). apply (initials_reachable 2). }
  assert (size (Handler.m_sentPackets (@Handler.self standstill later)) <= 4294967296)
    as Hle by (vm_compute; discriminate).
  split; [exact Hr|]. split; [by vm_compute|]. split; [exact Hle|].
  pose proof (@retransmissions_keep_send_order standstill later Hr) as (Hsub & Hasc & _).
  split; [exact Hsub|exact (Hasc Hle)].
Defined.

(** ** Connection ID lengths in parsePacket *)

(** C4.  [parsePacket] reads the two length fields and compares them with
    what is left of the datagram only: [MAX_CONN_ID_LEN] is never consulted.
    The datagram with a destination connection ID length of 21 is parsed
    with its 21-byte connection ID, and the handler answers it and adopts
    the 21 bytes as the peer's connection ID. *)
Theorem oversized_cid_is_parsed :
  at_ oversized_cid_datagram 5 = 21
  /\ Handler.MAX_CONN_ID_LEN < at_ oversized_cid_datagram 5
  /\ Handler.parsePacket oversized_cid_datagram 34
     = Some (Handler.mkHeader Handler.INITIAL 1
               [1; 2; 3; 4; 5; 6; 7; 8; 9; 10; 11; 12; 13; 14; 15; 16; 17; 18; 19; 20; 21]
               [] [] 0 1, [])
  /\ exists p',
       @Handler.processIncomingPacket standstill (Some oversized_cid_datagram) 34
         sample_process = Some (true, p')
       /\ Handler.m_destConnID (@Handler.self standstill p')
          = [1; 2; 3; 4; 5; 6; 7; 8; 9; 10; 11; 12; 13; 14; 15; 16; 17; 18; 19; 20; 21]
       /\ length (@Handler.udp_out standstill p') = 1%nat.
Proof.
  split; [reflexivity|]. split; [reflexivity|]. split; [vm_compute; reflexivity|].
  eexists. split; [vm_compute; reflexivity|]. split; reflexivity.
Qed.

(** ** What the software path does not check *)

(** The software pass keeps no count of retransmissions: the answer to one
    Initial datagram, never acknowledged, is put on the wire again by each of
    eleven passes a second apart, and is still in the tracker. *)
Lemma software_path_has_no_cap :
  let p0 := after_initials 1 sample_process in
  let p := Nat.iter 11 second_and_poll p0 in
  exists packet,
    @Handler.udp_out standstill p0 = [packet]
    /\ @Handler.udp_out standstill p = replicate 12 packet
    /\ map Handler.packetNumber (Handler.m_sentPackets (@Handler.self standstill p)) = [0]
    /\ map Handler.acknowledged (Handler.m_sentPackets (@Handler.self standstill p)) = [false].
Proof. eexists. repeat split; vm_compute; reflexivity. Qed.

(** The software parser does not look at the reserved bits of a short
    header: the datagram with first byte 0x70 is parsed as a 1-RTT packet,
    and the handler processes and acknowledges it. *)
Lemma software_accepts_reserved_bits :
  Z.land (at_ reserved_bits_datagram 0) 31 <> 0
  /\ Handler.parsePacket reserved_bits_datagram 16
     = Some (Handler.mkHeader Handler.ONE_RTT 0 [1; 2; 3; 4; 5; 6; 7; 8] [] [] 3 9,
             [1; 0; 0])
  /\ exists p',
       @Handler.processIncomingPacket standstill (Some reserved_bits_datagram) 16
         sample_process = Some (true, p')
       /\ length (@Handler.udp_out standstill p') = 1%nat.
Proof.
  split; [vm_compute; congruence|]. split; [vm_compute; reflexivity|].
  eexists. split; [vm_compute; reflexivity|reflexivity].
Qed.

(** ** The properties of the handler at concrete connections *)

Section HandlerExamples.
Import Handler.

(** The 1-RTT round trip at a connection that has answered one Initial
    datagram, for a PING frame. *)
Lemma short_header_round_trip_witness :
  let p := after_initials 1 sample_process in
  @reachable standstill p
  /\ m_accelerationEnabled (self p) && @fpga_isConnected standstill (env p) = false
  /\ size (m_destConnID (self p)) = 8
  /\ exists d p',
       sendPacket ONE_RTT [1] p = Some (true, p')
       /\ udp_out p' = udp_out p ++ [d]
       /\ parsePacket d (size d)
          = Some (mkHeader ONE_RTT 0 (m_destConnID (self p)) [] [] (size [1])
                    (m_nextPacketNumber (self p)), [1]).
Proof.
  intros p.
  assert (@reachable standstill p) as Hr by apply (initials_reachable 1).
  assert (m_accelerationEnabled (self p) && @fpga_isConnected standstill (env p) = false)
    as Hoff by (vm_compute; reflexivity).
  assert (size (m_destConnID (self p)) = 8) as Hcid by (vm_compute; reflexivity).
  split; [exact Hr|]. split; [exact Hoff|]. split; [exact Hcid|].
  exact (@short_header_round_trip standstill [1] p Hr Hoff Hcid).
Defined.

(** An acknowledgement of packet 1 after two Initial exchanges. *)
Lemma acknowledged_packet_is_not_retransmitted_witness :
  let p := after_initials 2 sample_process in
  @reachable standstill p
  /\ size (m_sentPackets (self p)) <= 4294967296
  /\ 0 <= 1 < 4294967296
  /\ exists p1,
       processFrames (ack_frame 1) p = Some (true, p1)
       /\ udp_out p1 = udp_out p
       /\ sent_numbers (self p1) = sent_numbers (self p)
       /\ forall t info,
            info ∈ packetsToRetransmit t (m_sentPackets (self p1)) -> packetNumber info <> 1.
Proof.
  intros p.
  assert (@reachable standstill p) as Hr by apply (initials_reachable 2).
  assert (size (m_sentPackets (self p)) <= 4294967296) as Hle by (vm_compute; discriminate).
  assert (0 <= 1 < 4294967296) as Hn by lia.
  split; [exact Hr|]. split; [exact Hle|]. split; [exact Hn|].
  exact (@acknowledged_packet_is_not_retransmitted standstill 1 p Hr Hle Hn).
Defined.

(** The first entry of the tracker across a second Initial exchange. *)
Lemma tracker_entries_persist_witness :
  let p := after_initials 1 sample_process in
  let p' := after_initials 2 sample_process in
  let info := nth 0 (m_sentPackets (self p)) (mkPacketInfo 0 0 false []) in
  @processIncomingPacket standstill (Some initial_datagram) 36 p = Some (true, p')
  /\ m_sentPackets (self p) !! 0%nat = Some info
  /\ exists info', m_sentPackets (self p') !! 0%nat = Some info' /\ same_packet info info'.
Proof.
  intros p p' info.
  assert (@processIncomingPacket standstill (Some initial_datagram) 36 p = Some (true, p'))
    as Hrun by (vm_compute; reflexivity).
  assert (m_sentPackets (self p) !! 0%nat = Some info) as Hi by (vm_compute; reflexivity).
  split; [exact Hrun|]. split; [exact Hi|].
  exact (@tracker_entries_persist standstill (Some initial_datagram) 36 p true p' 0%nat info
           Hrun Hi).
Defined.

(** The first Initial datagram of a connection. *)
Lemma every_datagram_is_counted_witness :
  let p' := after_initials 1 sample_process in
  36 <> 0
  /\ @processIncomingPacket standstill (Some initial_datagram) 36 sample_process
     = Some (true, p')
  /\ m_bytesReceived (self p') = u64 (m_bytesReceived (self sample_process) + 36)
  /\ m_packetsReceived (self p') = u64 (m_packetsReceived (self sample_process) + 1).
Proof.
  intros p'.
  assert (36 <> 0) as Hlen by lia.
  assert (@processIncomingPacket standstill (Some initial_datagram) 36 sample_process
          = Some (true, p')) as Hrun by (vm_compute; reflexivity).
  split; [exact Hlen|]. split; [exact Hrun|].
  exact (@every_datagram_is_counted standstill initial_datagram 36 sample_process true p'
           Hlen Hrun).
Defined.

(** Three bytes of a short header. *)
Lemma runt_datagram_is_only_counted_witness :
  Forall is_byte [64; 1; 2]
  /\ 0 < 3 < 12
  /\ @processIncomingPacket standstill (Some [64; 1; 2]) 3 sample_process
     = Some (false,
             mkProcess
               (set_packetsReceived (u64 (m_packetsReceived (self sample_process) + 1))
                  (set_bytesReceived (u64 (m_bytesReceived (self sample_process) + 3))
                     (set_lastActivity
                        (fst (@steady_clock_now standstill (env sample_process)))
                        (self sample_process))))
               (udp_out sample_process)
               (snd (@steady_clock_now standstill (env sample_process)))).
Proof.
  assert (Forall is_byte [64; 1; 2]) as Hd by (repeat constructor; unfold is_byte; lia).
  assert (0 < 3 < 12) as Hlen by lia.
  split; [exact Hd|]. split; [exact Hlen|].
  exact (@runt_datagram_is_only_counted standstill [64; 1; 2] 3 sample_process Hd Hlen).
Defined.

(** The Initial datagram in a buffer with two more bytes behind it. *)
Lemma parsePacket_reads_within_length_witness :
  Forall is_byte initial_datagram
  /\ take (Z.to_nat 36) initial_datagram
     = take (Z.to_nat 36) (initial_datagram ++ [255; 255])
  /\ parsePacket (initial_datagram ++ [255; 255]) 36 = parsePacket initial_datagram 36.
Proof.
  assert (Forall is_byte initial_datagram) as Hd
    by (repeat constructor; unfold is_byte; lia).
  assert (take (Z.to_nat 36) initial_datagram
          = take (Z.to_nat 36) (initial_datagram ++ [255; 255])) as Hagree
    by (vm_compute; reflexivity).
  split; [exact Hd|]. split; [exact Hagree|].
  exact (parsePacket_reads_within_length initial_datagram (initial_datagram ++ [255; 255]) 36
           Hd Hagree).
Defined.

(** A second Initial datagram at a connection with two connection IDs
    of eight bytes. *)
Lemma software_framing_stays_in_bounds_witness :
  let p := after_initials 1 sample_process in
  ids_fit (self p)
  /\ exists r p',
       @processIncomingPacket standstill (Some initial_datagram) 36 p = Some (r, p')
       /\ m_destConnID (self p') = m_destConnID (self p)
       /\ m_srcConnID (self p') = m_srcConnID (self p).
Proof.
  intros p.
  assert (ids_fit (self p)) as Hfit by (split; vm_compute; [reflexivity|discriminate]).
  split; [exact Hfit|].
  exact (@software_framing_stays_in_bounds standstill (Some initial_datagram) 36 p Hfit).
Defined.

(** The statistics after two Initial exchanges. *)
Lemma sent_statistics_match_the_wire_witness :
  let p := after_initials 2 sample_process in
  @reachable standstill p
  /\ m_packetsSent (self p) = u64 (size (udp_out p))
  /\ m_bytesSent (self p) = u64 (bytes_on_wire (udp_out p)).
Proof.
  intros p.
  assert (@reachable standstill p) as Hr by apply (initials_reachable 2).
  split; [exact Hr|].
  exact (@sent_statistics_match_the_wire standstill p Hr).
Defined.

(** A handler with acceleration disabled at an initialised interface in
    simulation mode: the Initial exchange leaves the interface, and with
    it its operation counters, as it was. *)
Lemma disabled_acceleration_only_reads_the_clock_witness :
  let p := @construct simulation false [1; 2; 3; 4; 5; 6; 7; 8] (0, initialized) in
  let p' := match @processIncomingPacket simulation (Some initial_datagram) 36 p with
            | Some (_, p') => p'
            | None => p
            end in
  let Q := fun w : @World simulation => snd w = initialized in
  (forall w, Q w -> Q (snd (@steady_clock_now simulation w)))
  /\ m_accelerationEnabled (self p) = false
  /\ Q (env p)
  /\ @processIncomingPacket simulation (Some initial_datagram) 36 p = Some (true, p')
  /\ m_accelerationEnabled (self p') = false
  /\ Q (env p').
Proof.
  intros p p' Q.
  assert (forall w, Q w -> Q (snd (@steady_clock_now simulation w))) as Hclock
    by (intros w Hw; exact Hw).
  assert (m_accelerationEnabled (self p) = false) as Hoff by reflexivity.
  assert (Q (env p)) as HQ by reflexivity.
  assert (@processIncomingPacket simulation (Some initial_datagram) 36 p = Some (true, p'))
    as Hrun.
  { assert (fst <$> @processIncomingPacket simulation (Some initial_datagram) 36 p
            = Some true) as Hreturns by (vm_compute; reflexivity).
    subst p'.
    destruct (@processIncomingPacket simulation (Some initial_datagram) 36 p)
      as [[r q]|]; [|discriminate].
    injection Hreturns as ->. reflexivity. }
  split; [exact Hclock|]. split; [exact Hoff|]. split; [exact HQ|]. split; [exact Hrun|].
  exact (@disabled_acceleration_only_reads_the_clock simulation Q (Some initial_datagram) 36
           p true p' Hclock Hoff HQ Hrun).
Defined.

Lemma simulation_rejects_empty_input : @rejects_empty_input simulation.
Proof.
  intros op connectionID pn w Hop. simpl. unfold Interface.executePacketOperation.
  by rewrite Hop.
Qed.

(** A retransmission pass with acceleration enabled, one second after an
    Initial exchange that the simulated accelerator has framed. *)
Lemma retransmissions_resend_the_stored_bytes_witness :
  let p := accelerated_process in
  @rejects_empty_input simulation
  /\ exists p',
       checkForRetransmissions p = Some (tt, p')
       /\ udp_out p'
          = udp_out p
            ++ map packetData
                 (packetsToRetransmit (fst (@steady_clock_now simulation (env p)))
                    (m_sentPackets (self p))).
Proof.
  intros p. split; [exact simulation_rejects_empty_input|].
  exact (@retransmissions_resend_the_stored_bytes simulation p
           simulation_rejects_empty_input).
Defined.

(** Three bytes that do not parse, and the clock 29 seconds later. *)
Lemma any_datagram_keeps_the_connection_active_witness :
  let p' := match @processIncomingPacket standstill (Some [64; 1; 2]) 3 sample_process with
            | Some (_, p') => p'
            | None => sample_process
            end in
  @reachable standstill sample_process
  /\ 0 < 3
  /\ @processIncomingPacket standstill (Some [64; 1; 2]) 3 sample_process = Some (false, p')
  /\ 29000000000 - fst (@steady_clock_now standstill (env sample_process)) < 30000000000
  /\ isActive_at 29000000000 (self p') = true.
Proof.
  intros p'.
  assert (@reachable standstill sample_process) as Hr by apply (initials_reachable 0).
  assert (0 < 3) as Hlen by lia.
  assert (@processIncomingPacket standstill (Some [64; 1; 2]) 3 sample_process
          = Some (false, p')) as Hrun by (vm_compute; reflexivity).
  assert (29000000000 - fst (@steady_clock_now standstill (env sample_process))
          < 30000000000) as Ht by (vm_compute; reflexivity).
  split; [exact Hr|]. split; [exact Hlen|]. split; [exact Hrun|]. split; [exact Ht|].
  exact (@any_datagram_keeps_the_connection_active standstill [64; 1; 2] 3 sample_process
           false p' 29000000000 Hr Hlen Hrun Ht).
Defined.

(** The answer to a second Initial datagram, as [sendPacket] frames it
    in software. *)
Lemma long_header_is_read_back_shifted_witness :
  let h := @self standstill (after_initials 1 sample_process) in
  let d := default [] (software_packet INITIAL 195 (crypto_sample 1) h) in
  first_byte INITIAL = Some 195
  /\ is_ONE_RTT INITIAL = false
  /\ software_packet INITIAL 195 (crypto_sample 1) h = Some d
  /\ size (crypto_sample 1) < 252
  /\ parsePacket d (size d)
     = Some (mkHeader INITIAL 1 (m_destConnID h) (m_srcConnID h) [] 0
               (be32 [byte_of (4 + size (crypto_sample 1)) 0;
                      byte_of (m_nextPacketNumber h) 24;
                      byte_of (m_nextPacketNumber h) 16;
                      byte_of (m_nextPacketNumber h) 8] 0),
             byte_of (m_nextPacketNumber h) 0 :: crypto_sample 1).
Proof.
  intros h d.
  assert (first_byte INITIAL = Some 195) as Hb by reflexivity.
  assert (is_ONE_RTT INITIAL = false) as Hlong by reflexivity.
  assert (software_packet INITIAL 195 (crypto_sample 1) h = Some d) as Hd
    by (vm_compute; reflexivity).
  assert (size (crypto_sample 1) < 252) as Hsmall by (vm_compute; reflexivity).
  split; [exact Hb|]. split; [exact Hlong|]. split; [exact Hd|]. split; [exact Hsmall|].
  exact (long_header_is_read_back_shifted INITIAL 195 (crypto_sample 1) h d
           Hb Hlong Hd Hsmall).
Defined.

End HandlerExamples.

(** ** The frames of the simulated accelerator *)

Section SimulatedFrames.
Import Handler.

(** A header that [parsePacket] accepts behind a first byte with the top
    bit set is never that of a 1-RTT packet. *)
Lemma long_bit_is_not_one_rtt d len header payload :
  Z.land (at_ d 0) 128 <> 0 ->
  parsePacket d len = Some (header, payload) -> type header <> ONE_RTT.
Proof.
  intros Hbit. unfold parsePacket, parse_long_tail. cbv zeta.
  destruct (Z.eqb_spec (Z.land (at_ d 0) 128) 0); [done|]. cbn [negb].
  assert (long_packet_type (at_ d 0) <> ONE_RTT) as Hty
    by (unfold long_packet_type; repeat case_match; done).
  repeat match goal with
         | |- context [if ?c then _ else _] => destruct c
         end;
    try discriminate; intros [= <- <-]; simpl; done.
Qed.

Lemma frame_eq inputData connectionID packetNumber f :
  data (fst (Interface.simulatePacketOperation PACKET_FRAMING inputData connectionID
               packetNumber f))
  = Interface.stream_frame_header connectionID packetNumber inputData ++ inputData.
Proof. reflexivity. Qed.

Lemma header_length connectionID packetNumber inputData :
  length (Interface.stream_frame_header connectionID packetNumber inputData) = 17%nat.
Proof. reflexivity. Qed.

(** X16.  The frame that the simulation builds for PACKET_FRAMING is the input
    behind seventeen bytes of header; the eight bytes behind the first
    are the connection ID in the byte order in which the packet processor
    compares connection IDs.  The first byte has the long-header bit set:
    [parsePacket] never reads such a frame as a 1-RTT packet.  For
    PACKET_RETRANSMISSION the frame is that of the next packet number. *)
Theorem simulated_frame_layout inputData connectionID packetNumber f :
  let frame :=
    data (fst (Interface.simulatePacketOperation PACKET_FRAMING inputData connectionID
                 packetNumber f)) in
  size frame = 17 + size inputData
  /\ drop 17 frame = inputData
  /\ PacketProcessor.cid_match frame 1 connectionID = true
  /\ (forall len header payload,
        parsePacket frame len = Some (header, payload) -> type header <> ONE_RTT)
  /\ data (fst (Interface.simulatePacketOperation PACKET_RETRANSMISSION inputData
                  connectionID packetNumber f))
     = data (fst (Interface.simulatePacketOperation PACKET_FRAMING inputData connectionID
                    (u32 (packetNumber + 1)) f)).
Proof.
  intros frame. subst frame. rewrite frame_eq.
  split; [|split; [|split; [|split]]].
  - unfold size. rewrite length_app, header_length. lia.
  - apply drop_app_length'. by rewrite header_length.
  - unfold PacketProcessor.cid_match, Interface.stream_frame_header.
    cbn [forallb seq app map]. unfold at_.
    cbn [Z.to_nat Z.add Z.of_nat Pos.to_nat Pos.iter_op Nat.add Pos.add Pos.succ nth
         Pos.of_succ_nat Z.mul Pos.mul].
    rewrite !Z.eqb_refl. reflexivity.
  - intros len header payload. apply long_bit_is_not_one_rtt.
    unfold Interface.stream_frame_header. cbn [app]. unfold at_. cbn [Z.to_nat nth]. done.
  - reflexivity.
Qed.
End SimulatedFrames.

(** ** The connection table *)

Section ProxyFacts.
Context `{Environment}.
Import Handler Proxy.

(** A connection that survives the pass was active at a clock reading
    taken during the pass. *)
Lemma remove_inactive_kept conns w lo :
  steady -> lo <= fst (steady_clock_now w) ->
  forall handler, handler ∈ fst (remove_inactive conns w) ->
  exists t, lo <= t /\ isActive_at t handler = true.
Proof.
  intros Hsteady. revert w lo.
  induction conns as [|c rest IH]; intros w lo Hlo handler; simpl.
  - by intros ?%elem_of_nil.
  - pose proof (Hsteady w) as Hnext.
    destruct (steady_clock_now w) as [t w1] eqn:Ew. simpl in Hlo, Hnext.
    specialize (IH w1 t Hnext handler).
    destruct (remove_inactive rest w1) as [kept w2]. simpl in IH.
    destruct (isActive_at t c) eqn:Eactive; simpl.
    + intros [->|Hin]%elem_of_cons.
      * exists t. by split.
      * destruct (IH Hin) as (t' & Ht' & Ha). exists t'. split; [lia|done].
    + intros Hin. destruct (IH Hin) as (t' & Ht' & Ha). exists t'. split; [lia|done].
Qed.

Lemma idle_is_inactive t handler :
  30000000000 < t - m_lastActivity handler -> isActive_at t handler = false.
Proof.
  intros Hidle. unfold isActive_at, to_milliseconds, IDLE_TIMEOUT_MS.
  apply andb_false_iff. right. apply Z.ltb_ge.
  rewrite Z.quot_div_nonneg by lia. apply Z.div_le_lower_bound; lia.
Qed.

(** C8.  When the cleanup pass is due (five seconds or more since the
    last one), every connection whose last activity lies more than 30
    seconds before the pass is gone from the table after it. *)
Theorem idle_connections_are_reaped px w last currentTime w1 handler :
  steady ->
  cleanup_clock px w = (last, currentTime, w1) ->
  5 <= to_seconds (currentTime - last) ->
  handler ∈ m_connections px ->
  30000000000 < currentTime - m_lastActivity handler ->
  handler ∉ m_connections (fst (cleanupInactiveConnections px w)).
Proof.
  intros Hsteady Hclock Hdue Hin Hidle Hkept.
  unfold cleanupInactiveConnections in Hkept. rewrite Hclock in Hkept.
  destruct (Z.ltb_spec (to_seconds (currentTime - last)) 5); [lia|].
  assert (currentTime <= fst (steady_clock_now w1)) as Hlo.
  { unfold cleanup_clock in Hclock.
    destruct (match lastCleanupTime px with
              | Some l => (l, w)
              | None => steady_clock_now w
              end) as [l w0].
    pose proof (Hsteady w0) as Hs.
    destruct (steady_clock_now w0) as [c w1']. injection Hclock as -> -> ->. exact Hs. }
  pose proof (remove_inactive_kept (m_connections px) w1 currentTime Hsteady Hlo handler)
    as Hactive.
  destruct (remove_inactive (m_connections px) w1) as [kept w2]. simpl in Hkept, Hactive.
  destruct (Hactive Hkept) as (t & Ht & Ha).
  rewrite idle_is_inactive in Ha by lia. done.
Qed.

End ProxyFacts.

(** C8 at a table of two connections, one idle for 31 s and one for 11 s:
    the pass at 31 s removes the first. *)
Lemma idle_connections_are_reaped_witness :
  let idle := Handler.mkHandler false true 0 0 0 0 0 1 0 [] [1; 2; 3; 4; 5; 6; 7; 8] [] [] in
  @Proxy.steady standstill
  /\ @Proxy.cleanup_clock standstill sample_proxy 31000000000
     = (25000000000, 31000000000, 31000000000)
  /\ 5 <= to_seconds (31000000000 - 25000000000)
  /\ idle ∈ @Proxy.m_connections sample_proxy
  /\ 30000000000 < 31000000000 - Handler.m_lastActivity idle
  /\ idle ∉ @Proxy.m_connections
              (fst (@Proxy.cleanupInactiveConnections standstill sample_proxy 31000000000)).
Proof.
  intros idle.
  assert (@Proxy.steady standstill) as Hsteady by (intros w; simpl; lia).
  assert (5 <= to_seconds (31000000000 - 25000000000)) as Hdue by (vm_compute; discriminate).
  assert (idle ∈ @Proxy.m_connections sample_proxy) as Hin by (simpl; left).
  assert (30000000000 < 31000000000 - Handler.m_lastActivity idle) as Hidle by (simpl; lia).
  repeat (split; [done|]).
  exact (@idle_connections_are_reaped standstill sample_proxy 31000000000
           25000000000 31000000000 31000000000 idle Hsteady eq_refl Hdue Hin Hidle).
Defined.

(** *** What the cleanup pass keeps *)

Section CleanupFacts.
Context `{Environment}.
Import Handler Proxy.

Lemma remove_inactive_sublist conns w : sublist (fst (remove_inactive conns w)) conns.
Proof.
  revert w. induction conns as [|c rest IH]; intros w; simpl; [constructor|].
  destruct (steady_clock_now w) as [t w1]. specialize (IH w1).
  destruct (remove_inactive rest w1) as [kept w2]. simpl in IH.
  destruct (isActive_at t c); simpl; by constructor.
Qed.

Lemma sublist_same_length {A} (l1 l2 : list A) :
  sublist l1 l2 -> (length l2 <= length l1)%nat -> l1 = l2.
Proof.
  induction 1 as [|x l1 l2 Hsub IH|x l1 l2 Hsub IH]; simpl; intros Hlen; [done| |].
  - f_equal. apply IH. lia.
  - apply sublist_length in Hsub. lia.
Qed.

(** X17.  The pass never adds a connection and never reorders the table: what
    it leaves is a sublist of what it found.  Either it removes nothing and
    leaves the table and [m_activeConnections] as they are, or it sets
    [m_activeConnections] to the new size of the table. *)
Theorem cleanup_only_removes px w :
  let px' := fst (cleanupInactiveConnections px w) in
  sublist (m_connections px') (m_connections px)
  /\ ((m_connections px' = m_connections px
       /\ m_activeConnections px' = m_activeConnections px)
      \/ ((length (m_connections px') < length (m_connections px))%nat
          /\ m_activeConnections px' = size (m_connections px'))).
Proof.
  unfold cleanupInactiveConnections.
  destruct (cleanup_clock px w) as [[last currentTime] w1].
  destruct (to_seconds (currentTime - last) <? 5); [split; [done|by left]|].
  pose proof (remove_inactive_sublist (m_connections px) w1) as Hsub.
  destruct (remove_inactive (m_connections px) w1) as [kept w2]. simpl in *.
  split; [done|].
  destruct (Nat.ltb_spec (length kept) (length (m_connections px))); [by right|].
  left. by rewrite (sublist_same_length _ _ Hsub).
Qed.

Lemma remove_inactive_keeps conns w handler :
  handler ∈ conns ->
  Forall (fun t => isActive_at t handler = true) (clock_readings (length conns) w) ->
  handler ∈ fst (remove_inactive conns w).
Proof.
  revert w. induction conns as [|c rest IH]; intros w; simpl; [by intros ?%elem_of_nil|].
  destruct (steady_clock_now w) as [t w1]. specialize (IH w1).
  destruct (remove_inactive rest w1) as [kept w2]. simpl in IH.
  intros Hin Hall. inversion Hall as [|? ? Ht Hrest]; subst.
  apply elem_of_cons in Hin as [->|Hin].
  - rewrite Ht. simpl. left.
  - destruct (isActive_at t c); simpl; [right|]; by apply IH.
Qed.

(** X18.  A connection that [isActive] finds active at every clock reading of
    the pass is in the table after it, whether the pass was due or not. *)
Theorem active_connections_survive px w handler :
  handler ∈ m_connections px ->
  Forall (fun t => isActive_at t handler = true)
    (clock_readings (length (m_connections px)) (snd (cleanup_clock px w))) ->
  handler ∈ m_connections (fst (cleanupInactiveConnections px w)).
Proof.
  intros Hin Hactive. unfold cleanupInactiveConnections.
  destruct (cleanup_clock px w) as [[last currentTime] w1]. simpl in Hactive.
  destruct (to_seconds (currentTime - last) <? 5); [done|].
  pose proof (remove_inactive_keeps (m_connections px) w1 handler Hin Hactive) as Hkept.
  by destruct (remove_inactive (m_connections px) w1) as [kept w2].
Qed.

End CleanupFacts.

(** The cleanup pass at 31 s over the table of two connections keeps the
    one that was active at 20 s. *)
Lemma active_connections_survive_witness :
  let recent :=
    Handler.mkHandler false true 20000000000 0 0 0 0 2 0 [] [8; 7; 6; 5; 4; 3; 2; 1] [] [] in
  recent ∈ @Proxy.m_connections sample_proxy
  /\ Forall (fun t => Handler.isActive_at t recent = true)
       (@clock_readings standstill (length (@Proxy.m_connections sample_proxy))
          (snd (@Proxy.cleanup_clock standstill sample_proxy 31000000000)))
  /\ recent ∈ @Proxy.m_connections
                (fst (@Proxy.cleanupInactiveConnections standstill sample_proxy 31000000000)).
Proof.
  intros recent.
  assert (recent ∈ @Proxy.m_connections sample_proxy) as Hin by (simpl; right; left).
  assert (Forall (fun t => Handler.isActive_at t recent = true)
            (@clock_readings standstill (length (@Proxy.m_connections sample_proxy))
               (snd (@Proxy.cleanup_clock standstill sample_proxy 31000000000)))) as Hactive
    by (repeat constructor).
  split; [exact Hin|]. split; [exact Hactive|].
  exact (@active_connections_survive standstill sample_proxy 31000000000 recent Hin Hactive).
Defined.

(** ** The packet processor *)

Section PacketProcessorFacts.
Import PacketProcessor.

Lemma runs_snoc es e p : runs (es ++ [e]) p = run e (runs es p).
Proof. unfold runs. by rewrite fold_left_app. Qed.

(** An invariant of every state of the clocked process is one of every
    reachable state. *)
Lemma reachable_ind (I : processor -> Prop) :
  I power_on -> (forall e p, I p -> I (run e p)) -> forall p, reachable p -> I p.
Proof.
  intros H0 Hstep p [es ->]. induction es as [|e es IH] using rev_ind; [done|].
  rewrite runs_snoc. by apply Hstep.
Qed.

(** *** The stream table *)

Lemma track_stream_count sid off len fin t ss n :
  (n <= MAX_STREAMS)%nat ->
  (snd (track_stream sid off len fin t ss n) <= MAX_STREAMS)%nat.
Proof.
  intros Hn. unfold track_stream. destruct (find_stream sid ss n); [done|].
  destruct (Nat.ltb_spec n MAX_STREAMS); simpl; lia.
Qed.

Lemma track_stream_full sid off len fin t ss :
  find_stream sid ss MAX_STREAMS = None ->
  track_stream sid off len fin t ss MAX_STREAMS = (ss, MAX_STREAMS).
Proof. intros Hnone. unfold track_stream. by rewrite Hnone. Qed.

Lemma choose_stream_count t ss n :
  (n <= MAX_STREAMS)%nat ->
  (snd (fst (choose_stream t ss n)) <= MAX_STREAMS)%nat.
Proof.
  intros Hn. unfold choose_stream. destruct (Nat.eqb_spec n 0); [simpl; unfold MAX_STREAMS; lia|].
  destruct (Nat.ltb_spec n MAX_STREAMS); [simpl; lia|].
  by destruct (list_find _ ss) as [[i s]|].
Qed.

Lemma run_stream_count e p :
  (stream_count p <= MAX_STREAMS)%nat -> (stream_count (run e p) <= MAX_STREAMS)%nat.
Proof.
  intros Hn. destruct e; simpl; try done.
  - unfold MAX_STREAMS. lia.
  - destruct (in_buf_rdptr p <? in_buf_wrptr p); [|done].
    pose proof (choose_stream_count (current_time p) (streams p) (stream_count p) Hn).
    destruct (choose_stream _ _ _) as [[ss n] sid]. done.
  - unfold PROCESS_STREAM_FRAME.
    destruct ((in_buf_rdptr p <? in_buf_wrptr p) && _); [|done].
    destruct (read_le _ _ 4) as [sid rd].
    destruct (if Z.testbit _ 2 then _ else _) as [off rd'].
    destruct (if Z.testbit _ 1 then _ else _) as [len rd''].
    pose proof (track_stream_count sid off len
                  (Z.testbit (at_ (input_buffer p) (in_buf_rdptr p)) 0)
                  (current_time p) (streams p) (stream_count p) Hn).
    destruct (track_stream _ _ _ _ _ _ _) as [ss n]. done.
  - unfold PROCESS_ACK. by destruct ack_receive.
  - unfold CHECK_RETRANSMIT. by destruct (list_find _ _) as [[i e]|].
  - unfold COMPLETE. by destruct (header_valid p).
Qed.

(** C7.  In every state the packet processor reaches, at most 64 streams
    are tracked; and when 64 are tracked, a STREAM frame for a stream ID
    that is not among them leaves the stream records and their count as they
    are. *)
Theorem stream_table_is_capped p :
  reachable p ->
  (streams_tracked p <= MAX_STREAMS)%nat
  /\ (streams_tracked p = MAX_STREAMS ->
      find_stream (incoming_stream_id p) (streams p) (stream_count p) = None ->
      streams (PROCESS_STREAM_FRAME p) = streams p
      /\ stream_count (PROCESS_STREAM_FRAME p) = stream_count p).
Proof.
  intros Hr. split.
  - revert p Hr. apply reachable_ind; [simpl; unfold MAX_STREAMS; lia|].
    intros e p. apply run_stream_count.
  - unfold streams_tracked, incoming_stream_id. intros Hfull Hnone.
    unfold PROCESS_STREAM_FRAME.
    destruct ((in_buf_rdptr p <? in_buf_wrptr p) && _); [|done].
    destruct (read_le _ _ 4) as [sid rd]. simpl in Hnone.
    destruct (if Z.testbit _ 2 then _ else _) as [off rd'].
    destruct (if Z.testbit _ 1 then _ else _) as [len rd''].
    rewrite Hfull in *. rewrite track_stream_full by done. by rewrite <- Hfull.
Qed.

(** *** The packet tracker *)




(** PROCESS_ACK, too, acknowledges idempotently: a second ACK for the same
    packet number leaves the tracker as the first one left it. *)
Lemma fpga_ack_idempotent n p :
  packet_tracker (PROCESS_ACK true n (PROCESS_ACK true n p))
  = packet_tracker (PROCESS_ACK true n p).
Proof.
  unfold PROCESS_ACK. simpl.
  destruct (list_find _ (packet_tracker p)) as [[i e]|] eqn:Efind.
  - assert (list_find (fun e => is_packet n e = true) (alter acknowledge i (packet_tracker p))
            = Some (i, acknowledge e)) as ->.
    { apply list_find_Some in Efind as (Hi & He & Hfirst).
      apply list_find_Some. split; [|split].
      - rewrite list_lookup_alter. destruct (decide (i = i)); [|done]. by rewrite Hi.
      - by destruct e.
      - intros j y Hj Hlt. rewrite list_lookup_alter_ne in Hj by lia. eauto. }
    rewrite list_alter_alter_eq. apply list_alter_ext; [|done].
    by intros [r|].
  - by rewrite Efind.
Qed.

(** *** Header validation *)

Lemma flag_rejects c e v : fst v = false -> fst (flag c e v) = false.
Proof. by destruct c. Qed.


(** The accelerated path does reject oversized connection IDs: a long
    header whose destination connection ID length exceeds 20 never passes
    validation, and neither does one whose source connection ID length
    does. *)
Lemma fpga_rejects_oversized_cid buf wrptr connection_id :
  0 < wrptr -> Z.testbit (at_ buf 0) 7 = true ->
  (20 < at_ buf 5 \/ (6 + at_ buf 5 <= wrptr /\ 20 < at_ buf (6 + at_ buf 5))) ->
  fst (validate buf wrptr connection_id) = false.
Proof.
  intros Hdata Hlong Hcid. unfold validate.
  destruct (Z.ltb_spec 0 wrptr); [|lia]. rewrite Hlong.
  unfold validate_long, flag. cbv zeta.
  destruct Hcid as [Hd|[Hin Hs]];
    repeat (cbn [fst snd andb negb];
            match goal with
            | |- context [if (?a <? ?b) then _ else _] => destruct (Z.ltb_spec a b)
            | |- context [if (?a <=? ?b) then _ else _] => destruct (Z.leb_spec a b)
            | |- context [if ?c then _ else _] => destruct c
            end);
    cbn [fst]; first [reflexivity | lia].
Qed.

End PacketProcessorFacts.

(** C7 at a full table and a frame for stream 1000. *)
Lemma stream_table_is_capped_witness :
  let p := PacketProcessor.runs full_table_run PacketProcessor.power_on in
  PacketProcessor.reachable p
  /\ PacketProcessor.streams_tracked p = PacketProcessor.MAX_STREAMS
  /\ PacketProcessor.incoming_stream_id p = 1000
  /\ PacketProcessor.find_stream (PacketProcessor.incoming_stream_id p)
       (PacketProcessor.streams p) (PacketProcessor.stream_count p) = None
  /\ (PacketProcessor.streams_tracked p <= PacketProcessor.MAX_STREAMS)%nat
  /\ PacketProcessor.streams (PacketProcessor.PROCESS_STREAM_FRAME p)
     = PacketProcessor.streams p
  /\ PacketProcessor.stream_count (PacketProcessor.PROCESS_STREAM_FRAME p)
     = PacketProcessor.stream_count p.
Proof.
  intros p.
  assert (PacketProcessor.reachable p) as Hr by (by exists full_table_run).
  assert (PacketProcessor.streams_tracked p = PacketProcessor.MAX_STREAMS) as Hfull
    by (vm_compute; reflexivity).
  assert (PacketProcessor.find_stream (PacketProcessor.incoming_stream_id p)
            (PacketProcessor.streams p) (PacketProcessor.stream_count p) = None) as Hnone
    by (vm_compute; reflexivity).
  split; [exact Hr|]. split; [exact Hfull|]. split; [vm_compute; reflexivity|].
  split; [exact Hnone|].
  pose proof (stream_table_is_capped p Hr) as [Hle Hkeep].
  split; [exact Hle|]. exact (Hkeep Hfull Hnone).
Defined.





(** ** More of the packet processor *)

Section PacketProcessorMore.
Import PacketProcessor.

(** *** Which headers pass validation *)

Lemma flag_fst c e v : fst (flag c e v) = negb c && fst v.
Proof. by destruct c. Qed.


(** *** The tracker is a ring of 128 entries *)

Lemma run_tracker_shape e p :
  length (packet_tracker p) = MAX_TRACKED_PACKETS /\ (packet_index p < MAX_TRACKED_PACKETS)%nat ->
  length (packet_tracker (run e p)) = MAX_TRACKED_PACKETS
  /\ (packet_index (run e p) < MAX_TRACKED_PACKETS)%nat.
Proof.
  intros [Hlen Hidx]. destruct e; simpl; try done.
  - split; [done|]. unfold MAX_TRACKED_PACKETS. lia.
  - unfold FRAME_DATA. simpl.
    assert (forall q, packet_tracker q = packet_tracker p -> packet_index q = packet_index p ->
              length (<[packet_index q := Some (mkPacket (final_packet_num q) (current_time q)
                                                  false 0)]> (packet_tracker q))
              = MAX_TRACKED_PACKETS
              /\ ((packet_index q + 1) mod MAX_TRACKED_PACKETS < MAX_TRACKED_PACKETS)%nat)
      as Hstore.
    { intros q -> ->. rewrite length_insert. split; [done|].
      apply Nat.mod_upper_bound. done. }
    destruct (in_buf_rdptr p <? in_buf_wrptr p); [|by apply Hstore].
    destruct (choose_stream _ _ _) as [[ss n] sid]. by apply Hstore.
  - unfold PROCESS_STREAM_FRAME.
    destruct ((in_buf_rdptr p <? in_buf_wrptr p) && _); [|done].
    destruct (read_le _ _ 4) as [sid rd].
    destruct (if Z.testbit _ 2 then _ else _) as [off rd'].
    destruct (if Z.testbit _ 1 then _ else _) as [len rd''].
    destruct (track_stream _ _ _ _ _ _ _) as [ss n]. done.
  - unfold PROCESS_ACK. destruct ack_receive; [|done]. simpl.
    destruct (list_find _ _) as [[i e]|]; [|done]. by rewrite length_alter.
  - unfold CHECK_RETRANSMIT.
    destruct (list_find _ _) as [[i e]|]; [|done]. simpl. by rewrite length_alter.
  - unfold COMPLETE. by destruct (header_valid p).
Qed.

Lemma reachable_tracker_shape p :
  reachable p ->
  length (packet_tracker p) = MAX_TRACKED_PACKETS /\ (packet_index p < MAX_TRACKED_PACKETS)%nat.
Proof.
  revert p. apply reachable_ind.
  - split; [apply length_replicate|]. simpl. unfold MAX_TRACKED_PACKETS. lia.
  - intros e p. apply run_tracker_shape.
Qed.

Lemma FRAME_DATA_tracker p :
  packet_tracker (FRAME_DATA p)
  = <[packet_index p := Some (mkPacket (final_packet_num p) (current_time p) false 0)]>
      (packet_tracker p)
  /\ packet_index (FRAME_DATA p) = ((packet_index p + 1) mod MAX_TRACKED_PACKETS)%nat
  /\ packet_count_sent (FRAME_DATA p) = u32 (packet_count_sent p + 1).
Proof.
  unfold FRAME_DATA. destruct (in_buf_rdptr p <? in_buf_wrptr p); [|done].
  by destruct (choose_stream _ _ _) as [[ss n] sid].
Qed.

(** X20.  In every state the machine reaches, FRAME_DATA records the packet it
    frames in the tracker, unacknowledged and with no retransmission, in
    the slot [packet_index], whatever that slot held; the other slots are
    left as they are, and [packet_index] moves on by one modulo 128. *)
Theorem framed_packet_takes_the_next_slot p :
  reachable p ->
  let q := FRAME_DATA p in
  packet_tracker q !! packet_index p
  = Some (Some (mkPacket (final_packet_num p) (current_time p) false 0))
  /\ (forall j, j <> packet_index p -> packet_tracker q !! j = packet_tracker p !! j)
  /\ packet_index q = ((packet_index p + 1) mod MAX_TRACKED_PACKETS)%nat
  /\ packet_count_sent q = u32 (packet_count_sent p + 1).
Proof.
  intros [Hlen Hidx]%reachable_tracker_shape q. subst q.
  destruct (FRAME_DATA_tracker p) as (-> & -> & ->).
  split; [|split; [|done]].
  - apply list_lookup_insert_eq. lia.
  - intros j Hj. by apply list_lookup_insert_ne.
Qed.

(** *** An acknowledged packet is settled *)

Lemma acknowledge_acked r : acked r = true -> acknowledge (Some r) = Some r.
Proof. destruct r as [num time a n]. simpl. by intros ->. Qed.

Lemma run_keeps_acked e p i r :
  e <> Frame ->
  packet_tracker p !! i = Some (Some r) -> acked r = true ->
  packet_tracker (run e p) !! i = Some (Some r).
Proof.
  intros He Hi Hr. destruct e; simpl; try done.
  - unfold PROCESS_STREAM_FRAME.
    destruct ((in_buf_rdptr p <? in_buf_wrptr p) && _); [|done].
    destruct (read_le _ _ 4) as [sid rd].
    destruct (if Z.testbit _ 2 then _ else _) as [off rd'].
    destruct (if Z.testbit _ 1 then _ else _) as [len rd''].
    destruct (track_stream _ _ _ _ _ _ _) as [ss n]. done.
  - unfold PROCESS_ACK. destruct ack_receive; [|done]. simpl.
    destruct (list_find _ _) as [[j e]|]; [|done].
    destruct (decide (j = i)) as [->|Hne].
    + rewrite list_lookup_alter_eq, Hi. cbn [fmap option_fmap option_map].
      by rewrite acknowledge_acked.
    + by rewrite list_lookup_alter_ne.
  - unfold CHECK_RETRANSMIT.
    destruct (list_find _ _) as [[j e]|] eqn:Efind; [|done]. simpl.
    apply list_find_Some in Efind as (Hj & Hdue & _).
    destruct (decide (j = i)) as [->|Hne]; [|by rewrite list_lookup_alter_ne].
    rewrite Hi in Hj. injection Hj as <-. simpl in Hdue. by rewrite Hr in Hdue.
  - unfold COMPLETE. by destruct (header_valid p).
Qed.

(** X21.  Once a tracked packet is acknowledged, its entry is never chosen for
    retransmission and does not change, whatever the machine does, until
    FRAME_DATA stores another packet: further acknowledgements, passes of
    CHECK_RETRANSMIT at any timeout and even a reset leave it as it is. *)
Theorem acknowledged_entry_is_settled es p i r :
  Forall (fun e => e <> Frame) es ->
  packet_tracker p !! i = Some (Some r) -> acked r = true ->
  packet_tracker (runs es p) !! i = Some (Some r)
  /\ forall retx_timeout, due (current_time (runs es p)) retx_timeout (Some r) = false.
Proof.
  intros Hes Hi Hr. split; [|intros t; unfold due; by rewrite Hr].
  revert p Hi. induction Hes as [|e es He _ IH]; intros p Hi; [done|].
  simpl. apply IH. by apply run_keeps_acked.
Qed.

(** *** Tracked streams only advance *)

Lemma stream_advanced_refl s : stream_advanced s s.
Proof. repeat split; (done || lia). Qed.

Lemma stream_advanced_trans a b c :
  stream_advanced a b -> stream_advanced b c -> stream_advanced a c.
Proof.
  intros (Hi & Ho & Hf & Hs) (Hi' & Ho' & Hf' & Hs').
  repeat split; [congruence|lia|auto|auto].
Qed.

Lemma alter_advanced f j (ss : list stream_record) i s :
  (forall x, stream_advanced x (f x)) ->
  ss !! i = Some s ->
  exists s', alter f j ss !! i = Some s' /\ stream_advanced s s'.
Proof.
  intros Hf Hi. destruct (decide (j = i)) as [->|Hne].
  - exists (f s). rewrite list_lookup_alter_eq, Hi. done.
  - exists s. rewrite list_lookup_alter_ne by done. split; [done|apply stream_advanced_refl].
Qed.

Lemma receive_on_advanced new_offset t fin s :
  stream_advanced s (receive_on new_offset t fin s).
Proof.
  unfold receive_on, stream_advanced, is_open. simpl. repeat split.
  - destruct (Z.ltb_spec (recv_offset s) new_offset); lia.
  - intros ->. by rewrite orb_true_r.
  - intros ->. by rewrite andb_false_r.
Qed.

Lemma touch_advanced t s : stream_advanced s (touch t s).
Proof. repeat split; simpl; (done || lia). Qed.

Lemma advance_send_advanced amount t s : stream_advanced s (advance_send amount t s).
Proof. repeat split; simpl; (done || lia). Qed.

Lemma track_stream_advanced sid off len fin t ss n i s :
  (i < n)%nat -> ss !! i = Some s ->
  exists s',
    fst (track_stream sid off len fin t ss n) !! i = Some s'
    /\ stream_advanced s s'
    /\ (i < snd (track_stream sid off len fin t ss n))%nat.
Proof.
  intros Hn Hi. unfold track_stream. destruct (find_stream sid ss n) as [j|]; simpl.
  - destruct (alter_advanced (receive_on (u64 (off + len)) t fin) j ss i s) as (s' & ? & ?);
      [apply receive_on_advanced|done|]. by exists s'.
  - destruct (Nat.ltb_spec n MAX_STREAMS); simpl.
    + exists s. rewrite list_lookup_insert_ne by lia.
      split; [done|]. split; [apply stream_advanced_refl|lia].
    + exists s. split; [done|]. split; [apply stream_advanced_refl|done].
Qed.

Lemma choose_stream_advanced t ss n i s :
  (i < n)%nat -> ss !! i = Some s ->
  exists s',
    fst (fst (choose_stream t ss n)) !! i = Some s'
    /\ stream_advanced s s'
    /\ (i < snd (fst (choose_stream t ss n)))%nat.
Proof.
  intros Hn Hi. unfold choose_stream. destruct (Nat.eqb_spec n 0); [lia|].
  destruct (Nat.ltb_spec n MAX_STREAMS); simpl.
  - exists s. rewrite list_lookup_alter_ne by lia.
    split; [done|]. split; [apply stream_advanced_refl|lia].
  - destruct (list_find _ ss) as [[j x]|]; simpl.
    + destruct (alter_advanced (touch t) j ss i s) as (s' & ? & ?);
        [apply touch_advanced|done|]. by exists s'.
    + exists s. split; [done|]. split; [apply stream_advanced_refl|done].
Qed.

Lemma account_send_advanced sid amount t ss i s :
  ss !! i = Some s ->
  exists s', account_send sid amount t ss !! i = Some s' /\ stream_advanced s s'.
Proof.
  intros Hi. unfold account_send. destruct (list_find _ ss) as [[j x]|].
  - apply alter_advanced; [apply advance_send_advanced|done].
  - exists s. split; [done|apply stream_advanced_refl].
Qed.

Lemma run_streams_advance e p i s :
  e <> Reset -> (i < stream_count p)%nat -> streams p !! i = Some s ->
  exists s',
    streams (run e p) !! i = Some s'
    /\ stream_advanced s s'
    /\ (i < stream_count (run e p))%nat.
Proof.
  intros He Hn Hi.
  assert (exists s', streams p !! i = Some s' /\ stream_advanced s s'
                     /\ (i < stream_count p)%nat) as Hsame.
  { exists s. split; [done|]. split; [apply stream_advanced_refl|done]. }
  destruct e; simpl; try done.
  - unfold FRAME_DATA. simpl.
    destruct (in_buf_rdptr p <? in_buf_wrptr p); [|done].
    destruct (choose_stream_advanced (current_time p) (streams p) (stream_count p) i s Hn Hi)
      as (s1 & Hi1 & Hadv1 & Hn1).
    destruct (choose_stream _ _ _) as [[ss n] sid]. simpl in *.
    destruct (account_send_advanced sid (in_buf_wrptr p - in_buf_rdptr p) (current_time p)
                ss i s1 Hi1) as (s2 & Hi2 & Hadv2).
    exists s2. split; [done|]. split; [by eapply stream_advanced_trans|done].
  - unfold PROCESS_STREAM_FRAME.
    destruct ((in_buf_rdptr p <? in_buf_wrptr p) && _); [|done].
    destruct (read_le _ _ 4) as [sid rd].
    destruct (if Z.testbit _ 2 then _ else _) as [off rd'].
    destruct (if Z.testbit _ 1 then _ else _) as [len rd''].
    pose proof (track_stream_advanced sid off len
                  (Z.testbit (at_ (input_buffer p) (in_buf_rdptr p)) 0)
                  (current_time p) (streams p) (stream_count p) i s Hn Hi) as Htrack.
    destruct (track_stream _ _ _ _ _ _ _) as [ss n]. done.
  - unfold PROCESS_ACK. by destruct ack_receive.
  - unfold CHECK_RETRANSMIT. by destruct (list_find _ _) as [[j e]|].
  - unfold COMPLETE. by destruct (header_valid p).
Qed.

(** X22.  Between two resets the record of a tracked stream only advances:
    whatever frames arrive and whatever is framed, the record stays in its
    slot with its stream ID, its receive offset never goes back, a received
    FIN stays received and a closed stream stays closed. *)
Theorem tracked_streams_only_advance es p i s :
  Forall (fun e => e <> Reset) es ->
  (i < stream_count p)%nat -> streams p !! i = Some s ->
  exists s', streams (runs es p) !! i = Some s' /\ stream_advanced s s'.
Proof.
  intros Hes. revert p s. induction Hes as [|e es He _ IH]; intros p s Hn Hi.
  - exists s. split; [done|apply stream_advanced_refl].
  - destruct (run_streams_advance e p i s He Hn Hi) as (s1 & Hi1 & Hadv1 & Hn1).
    destruct (IH (run e p) s1 Hn1 Hi1) as (s' & Hi' & Hadv').
    exists s'. split; [done|]. by eapply stream_advanced_trans.
Qed.

End PacketProcessorMore.

(** The properties of the packet processor at concrete runs. *)

(** Framing packet 7 from power-on. *)
Lemma framed_packet_takes_the_next_slot_witness :
  let p := PacketProcessor.runs [PacketProcessor.CreateHeader 7] PacketProcessor.power_on in
  let q := PacketProcessor.FRAME_DATA p in
  PacketProcessor.reachable p
  /\ PacketProcessor.packet_tracker q !! PacketProcessor.packet_index p
     = Some (Some (PacketProcessor.mkPacket (PacketProcessor.final_packet_num p)
                     (PacketProcessor.current_time p) false 0))
  /\ (forall j, j <> PacketProcessor.packet_index p ->
        PacketProcessor.packet_tracker q !! j = PacketProcessor.packet_tracker p !! j)
  /\ PacketProcessor.packet_index q
     = ((PacketProcessor.packet_index p + 1) mod PacketProcessor.MAX_TRACKED_PACKETS)%nat
  /\ PacketProcessor.packet_count_sent q = u32 (PacketProcessor.packet_count_sent p + 1).
Proof.
  intros p q.
  assert (PacketProcessor.reachable p) as Hr by (by exists [PacketProcessor.CreateHeader 7]).
  split; [exact Hr|].
  exact (framed_packet_takes_the_next_slot p Hr).
Defined.

(** Packet 7 is framed and acknowledged; a millisecond later a pass of
    CHECK_RETRANSMIT with timeout 0, a second acknowledgement and a reset
    leave its entry as it is. *)
Lemma acknowledged_entry_is_settled_witness :
  let p := PacketProcessor.runs
             [PacketProcessor.CreateHeader 7; PacketProcessor.Frame;
              PacketProcessor.Ack true 7] PacketProcessor.power_on in
  let es := [PacketProcessor.Tick; PacketProcessor.CheckRetransmit 0;
             PacketProcessor.Ack true 7; PacketProcessor.Reset] in
  let r := PacketProcessor.mkPacket 7 0 true 0 in
  Forall (fun e => e <> PacketProcessor.Frame) es
  /\ PacketProcessor.packet_tracker p !! 0%nat = Some (Some r)
  /\ PacketProcessor.acked r = true
  /\ PacketProcessor.packet_tracker (PacketProcessor.runs es p) !! 0%nat = Some (Some r)
  /\ forall retx_timeout,
       PacketProcessor.due (PacketProcessor.current_time (PacketProcessor.runs es p))
         retx_timeout (Some r) = false.
Proof.
  intros p es r.
  assert (Forall (fun e => e <> PacketProcessor.Frame) es) as Hes
    by (repeat (constructor; [discriminate|]); constructor).
  assert (PacketProcessor.packet_tracker p !! 0%nat = Some (Some r)) as Hi
    by (vm_compute; reflexivity).
  assert (PacketProcessor.acked r = true) as Hr by reflexivity.
  split; [exact Hes|]. split; [exact Hi|]. split; [exact Hr|].
  exact (acknowledged_entry_is_settled es p 0%nat r Hes Hi Hr).
Defined.

(** A payload of eight bytes is framed, which opens stream 0; then a
    STREAM frame with FIN for stream 0 arrives, which closes it, and
    another payload is framed, which opens stream 1. *)
Lemma tracked_streams_only_advance_witness :
  let p := PacketProcessor.runs
             [PacketProcessor.Load (replicate 2048 0) 8; PacketProcessor.Frame]
             PacketProcessor.power_on in
  let buffer := replicate 8 0 ++ [9; 0; 0; 0; 0; 1; 2; 3] ++ replicate 2032 0 in
  let es := [PacketProcessor.Load buffer 16; PacketProcessor.StreamFrame;
             PacketProcessor.Tick; PacketProcessor.Load buffer 24;
             PacketProcessor.Frame] in
  let s := nth 0 (PacketProcessor.streams p) PacketProcessor.idle_stream in
  Forall (fun e => e <> PacketProcessor.Reset) es
  /\ (0 < PacketProcessor.stream_count p)%nat
  /\ PacketProcessor.streams p !! 0%nat = Some s
  /\ exists s', PacketProcessor.streams (PacketProcessor.runs es p) !! 0%nat = Some s'
                /\ stream_advanced s s'.
Proof.
  intros p buffer es s.
  assert (Forall (fun e => e <> PacketProcessor.Reset) es) as Hes
    by (repeat (constructor; [discriminate|]); constructor).
  assert (0 < PacketProcessor.stream_count p)%nat as Hn by (vm_compute; lia).
  assert (PacketProcessor.streams p !! 0%nat = Some s) as Hi by (vm_compute; reflexivity).
  split; [exact Hes|]. split; [exact Hn|]. split; [exact Hi|].
  exact (tracked_streams_only_advance es p 0%nat s Hes Hn Hi).
Defined.

(** ** The embedding on the seed scenarios *)

(** A run of five equal bytes becomes one marker triple. *)
Example compress_run :
  data (Compression.compress [65; 65; 65; 65; 65; 66; 66; 67])
  = [81; 67; 77; 80; 8; 0; 0; 0; 255; 5; 65; 66; 66; 67]
  /\ data (Compression.decompress [81; 67; 77; 80; 8; 0; 0; 0; 255; 5; 65; 66; 66; 67])
     = [65; 65; 65; 65; 65; 66; 66; 67].
Proof. split; reflexivity. Qed.

(** A container with a wrong magic number is refused. *)
Example decompress_bad_magic :
  success (Compression.decompress [81; 67; 77; 81; 0; 0; 0; 0]) = false.
Proof. reflexivity. Qed.

(** The answer to the Initial datagram: packet number 0, framed in
    software, recorded in the tracker and counted. *)
Example initial_exchange :
  let p := after_initials 1 sample_process in
  Handler.sent_numbers (@Handler.self standstill p) = [0]
  /\ Handler.m_nextPacketNumber (@Handler.self standstill p) = 1
  /\ Handler.m_packetsSent (@Handler.self standstill p) = 1
  /\ map (fun d => take 6 d) (@Handler.udp_out standstill p) = [[195; 0; 0; 0; 1; 8]].
Proof. repeat split; vm_compute; reflexivity. Qed.

(** An ACK for packet 12 while only packet 0 is in flight marks nothing. *)
Example ack_of_unseen_packet :
  let p := after_initials 1 sample_process in
  @Handler.processFrames standstill [2; 0; 0; 0; 12; 0; 0; 0; 0] p = Some (true, p).
Proof. vm_compute. reflexivity. Qed.

(** A packet is retransmitted once more than 500 ms have passed since it
    was sent, not before, and is stamped with the time of the pass. *)
Example retransmission_after_timeout :
  let p := after_initials 1 sample_process in
  let at_ms (t : Z) :=
    @Handler.mkProcess standstill (@Handler.self standstill p)
      (@Handler.udp_out standstill p) (t * 1000000) in
  (exists p', @Handler.checkForRetransmissions standstill (at_ms 500) = Some (tt, p')
              /\ @Handler.udp_out standstill p' = @Handler.udp_out standstill p)
  /\ (exists p', @Handler.checkForRetransmissions standstill (at_ms 501) = Some (tt, p')
                 /\ @Handler.udp_out standstill p'
                    = @Handler.udp_out standstill p ++ @Handler.udp_out standstill p
                 /\ map Handler.sentTime (Handler.m_sentPackets (@Handler.self standstill p'))
                    = [501000000]).
Proof.
  split; eexists; (split; [vm_compute; reflexivity|]); repeat split; vm_compute; reflexivity.
Qed.

(** A STREAM frame for stream 0 with offset 0, four bytes and FIN opens
    the stream record closed, with receive offset 4. *)
Example stream_frame_with_fin :
  let frame := [15; 0; 0; 0; 0; 0; 0; 0; 0; 0; 0; 0; 0; 4; 0; 222; 173; 190; 239] in
  let p := PacketProcessor.PROCESS_STREAM_FRAME
             (PacketProcessor.load (frame ++ replicate 2029 0) 24 PacketProcessor.power_on) in
  PacketProcessor.stream_count p = 1%nat
  /\ PacketProcessor.streams p !! 0%nat
     = Some (PacketProcessor.mkStream 0 PacketProcessor.STREAM_CLOSED 4 0 true 0 true false)
  /\ PacketProcessor.in_buf_rdptr p = 19.
Proof. repeat split; vm_compute; reflexivity. Qed.

(** A header that passes validation lets the machine go on to build the
    packet. *)
Example valid_short_header :
  let p := PacketProcessor.load
             ([64; 1; 2; 3; 4; 5; 6; 7; 8; 0; 0; 0; 9; 1; 0; 0] ++ replicate 2032 0) 16
             PacketProcessor.power_on in
  let q := PacketProcessor.VALIDATE_HEADER 578437695752307201 p in
  PacketProcessor.header_valid q = true
  /\ PacketProcessor.validation_error q = PacketProcessor.VALID_HEADER
  /\ PacketProcessor.after_validation q = PacketProcessor.CREATE_HEADER.
Proof. repeat split; vm_compute; reflexivity. Qed.
